(** * PS5 NOR modifier: image accessor and UART error-code pipeline

    A shallow embedding of [src/nor_handler.py] and [src/uart_handler.py].
    Python values are modelled as follows.
    - [int] is [Z]; [bytes]/[bytearray] is [list byte].
    - [str] is [string]: a sequence of code points below 256.  [None] where a
      [str] is expected is the [None] of [option string].
    - An object with mutable attributes is a record threaded through a
      state-and-exception monad; a raised exception leaves the mutations made
      before it in place, as in Python.
    - The database file, the disk and the remote service are fields of a
      [World] record, together with a trace of the I/O performed; an open
      serial port carries the lines its device is going to send. *)

From Stdlib Require Import ZArith List Bool Lia.
From Stdlib Require Import Strings.String Strings.Ascii Strings.Byte.
From Stdlib Require Import Numbers.DecimalString.
Import ListNotations.

Set Warnings "-register-all".

Local Open Scope string_scope.
Local Open Scope Z_scope.

(* ===================================================================== *)
(** ** Python primitives used by the two handlers *)
(* ===================================================================== *)

Module Py.

(** [len(x)] *)
Definition len {A : Type} (l : list A) : Z := Z.of_nat (List.length l).

Definition str_len (s : string) : Z := Z.of_nat (String.length s).

(** Normalisation of one bound of a slice [x[i:j]] over a sequence of
    length [n]: a negative bound counts from the end, and every bound is
    clamped to [0..n]. *)
Definition norm_index (n i : Z) : Z :=
  if i <? 0 then Z.max (i + n) 0 else Z.min i n.

(** [l[lo:hi]] *)
Definition slice {A : Type} (l : list A) (lo hi : Z) : list A :=
  let n := len l in
  let lo' := norm_index n lo in
  let hi' := norm_index n hi in
  firstn (Z.to_nat (hi' - lo')) (skipn (Z.to_nat lo') l).

(** [l[lo:hi] = v] on a [bytearray]: the range is replaced by [v], whatever
    the length of [v]. *)
Definition slice_assign {A : Type} (l : list A) (lo hi : Z) (v : list A) : list A :=
  let n := len l in
  let lo' := norm_index n lo in
  let hi' := Z.max lo' (norm_index n hi) in
  (firstn (Z.to_nat lo') l ++ v ++ skipn (Z.to_nat hi') l)%list.

(** [ord(c)] *)
Definition ord (c : ascii) : Z := Z.of_N (N_of_ascii c).

(** [bs.decode('ascii', errors='ignore')]: bytes above 0x7f are dropped. *)
Fixpoint decode_ascii_ignore (bs : list byte) : string :=
  match bs with
  | [] => EmptyString
  | b :: bs' =>
      if (Byte.to_N b <? 128)%N
      then String (ascii_of_byte b) (decode_ascii_ignore bs')
      else decode_ascii_ignore bs'
  end.

(** [s.encode('ascii')]: [None] stands for [UnicodeEncodeError]. *)
Fixpoint encode_ascii (s : string) : option (list byte) :=
  match s with
  | EmptyString => Some []
  | String c s' =>
      if ord c <? 128
      then option_map (cons (byte_of_ascii c)) (encode_ascii s')
      else None
  end.

(** [bs.ljust(width, fill)] *)
Definition ljust (bs : list byte) (width : Z) (fill : byte) : list byte :=
  (bs ++ repeat fill (Z.to_nat (width - len bs)))%list.

(** [s.lstrip(chars)], [s.rstrip(chars)] and [s.strip(chars)], the set of
    characters given as a predicate. *)
Fixpoint lstrip (p : ascii -> bool) (s : string) : string :=
  match s with
  | EmptyString => EmptyString
  | String c s' => if p c then lstrip p s' else s
  end.

Fixpoint rstrip (p : ascii -> bool) (s : string) : string :=
  match s with
  | EmptyString => EmptyString
  | String c s' =>
      match rstrip p s' with
      | EmptyString => if p c then EmptyString else String c EmptyString
      | r => String c r
      end
  end.

Definition strip (p : ascii -> bool) (s : string) : string :=
  rstrip p (lstrip p s).

(** The character set ['\x00'] of [strip('\x00')]. *)
Definition is_nul (c : ascii) : bool := Ascii.eqb c zero.

(** [str.isspace] on code points below 256: the set removed by [strip()]
    without argument. *)
Definition is_space (c : ascii) : bool :=
  let n := ord c in
  ((9 <=? n) && (n <=? 13)) || ((28 <=? n) && (n <=? 32))
  || (n =? 133) || (n =? 160).

(** The line feed ['\n'], as a character and as a text. *)
Definition LF : ascii := "010"%char.
Definition nl : string := String LF EmptyString.

(** [s.startswith(p)] *)
Definition startswith (s p : string) : bool := String.prefix p s.

(** [s[n:]] for a literal [n >= 0] *)
Fixpoint drop (n : nat) (s : string) : string :=
  match n, s with
  | O, _ => s
  | S n', String _ s' => drop n' s'
  | S _, EmptyString => EmptyString
  end.

(** [s.split(sep)] for a one-character separator; the second argument
    accumulates the piece being read. *)
Fixpoint split_aux (sep : ascii) (s : string) (acc : string) : list string :=
  match s with
  | EmptyString => [acc]
  | String c s' =>
      if Ascii.eqb c sep
      then acc :: split_aux sep s' EmptyString
      else split_aux sep s' (acc ++ String c EmptyString)
  end.

Definition split (sep : ascii) (s : string) : list string :=
  split_aux sep s EmptyString.

(** [sep.join(l)] *)
Definition join (sep : string) (l : list string) : string := String.concat sep l.

(** [c in s] *)
Fixpoint contains (c : ascii) (s : string) : bool :=
  match s with
  | EmptyString => false
  | String d s' => Ascii.eqb c d || contains c s'
  end.

(** [s.upper()].  Only the ASCII letters are mapped: over code points below
    256 no other case mapping yields a character of [[0-9A-F]], which is all
    the callers look at. *)
Definition upper_char (c : ascii) : ascii :=
  let n := ord c in
  if (97 <=? n) && (n <=? 122) then ascii_of_N (Z.to_N (n - 32)) else c.

Fixpoint upper (s : string) : string :=
  match s with
  | EmptyString => EmptyString
  | String c s' => String (upper_char c) (upper s')
  end.

(** One hexadecimal digit, lower and upper case. *)
Definition hex_digit_lower (n : Z) : ascii :=
  if n <? 10 then ascii_of_N (Z.to_N (48 + n)) else ascii_of_N (Z.to_N (87 + n)).

Definition hex_digit_upper (n : Z) : ascii :=
  if n <? 10 then ascii_of_N (Z.to_N (48 + n)) else ascii_of_N (Z.to_N (55 + n)).

(** [f'{n:02x}'] and [f'{n:02X}'] for [0 <= n < 256] *)
Definition fmt_02x (n : Z) : string :=
  String (hex_digit_lower (n / 16)) (String (hex_digit_lower (n mod 16)) EmptyString).

Definition fmt_02X (n : Z) : string :=
  String (hex_digit_upper (n / 16)) (String (hex_digit_upper (n mod 16)) EmptyString).

(** [f'{n}'] for an [int] *)
Definition fmt_int (n : Z) : string := NilZero.string_of_int (Z.to_int n).

(** [f'{x}'] for a value that is a [str] or [None] *)
Definition fmt_opt (x : option string) : string :=
  match x with
  | Some s => s
  | None => "None"
  end.

(** [bs.decode('ascii')]: [None] stands for [UnicodeDecodeError]. *)
Fixpoint decode_ascii (bs : list byte) : option string :=
  match bs with
  | [] => Some EmptyString
  | b :: bs' =>
      if (Byte.to_N b <? 128)%N
      then option_map (String (ascii_of_byte b)) (decode_ascii bs')
      else None
  end.

(** [bs.hex()]: two lower-case digits for every byte. *)
Fixpoint hex (bs : list byte) : string :=
  match bs with
  | [] => EmptyString
  | b :: bs' => fmt_02x (Z.of_N (Byte.to_N b)) ++ hex bs'
  end.

(** [[s[i:i+2] for i in range(0, len(s), 2)]] *)
Fixpoint pairs (s : string) : list string :=
  match s with
  | EmptyString => []
  | String a EmptyString => [String a EmptyString]
  | String a (String b r) => String a (String b EmptyString) :: pairs r
  end.

(** The value of a hexadecimal digit of either case. *)
Definition hex_value (c : ascii) : option Z :=
  let n := ord c in
  if (48 <=? n) && (n <=? 57) then Some (n - 48)
  else if (65 <=? n) && (n <=? 70) then Some (n - 55)
  else if (97 <=? n) && (n <=? 102) then Some (n - 87)
  else None.

(** The ASCII white space that [bytes.fromhex] skips between bytes. *)
Definition is_ascii_space (c : ascii) : bool :=
  let n := ord c in
  ((9 <=? n) && (n <=? 13)) || (n =? 32).

(** [bytes.fromhex(s)]: pairs of hexadecimal digits, white space allowed
    between the pairs; [None] stands for [ValueError]. *)
Fixpoint fromhex (s : string) : option (list byte) :=
  match s with
  | EmptyString => Some []
  | String c s' =>
      if is_ascii_space c then fromhex s'
      else
        match s' with
        | EmptyString => None
        | String d s'' =>
            match hex_value c, hex_value d with
            | Some hi, Some lo =>
                option_map (cons (byte_of_ascii (ascii_of_N (Z.to_N (16 * hi + lo)))))
                           (fromhex s'')
            | _, _ => None
            end
        end
  end.

(** [range(n)] *)
Definition range (n : Z) : list Z := map Z.of_nat (seq 0 (Z.to_nat n)).

(** [a == b] on [bytes] *)
Definition bytes_eqb (a b : list byte) : bool :=
  if list_eq_dec Byte.byte_eq_dec a b then true else false.

(** Python exceptions.  [NorError] and [UartError] are the two dataclass
    exceptions of the program; their [details], which the program fills with
    [str(e)] of the exception it caught, is kept as that exception. *)
Inductive Exc : Type :=
| NorError (message : string) (details : option Exc)
| UartError (message : string) (details : option Exc)
| UnicodeEncodeError
| UnicodeDecodeError
| IOError
| SerialException
| RequestException
| ParseError
| AttributeError.

Inductive result (A : Type) : Type :=
| Ok (a : A)
| Raise (e : Exc).
Arguments Ok {A} a.
Arguments Raise {A} e.

(** A method of an object of type [S]: it runs on the object's state and
    returns normally or raises, with the state it leaves behind. *)
Definition M (S A : Type) : Type := S -> result A * S.

Definition ret {S A : Type} (a : A) : M S A := fun s => (Ok a, s).

Definition bind {S A B : Type} (m : M S A) (k : A -> M S B) : M S B :=
  fun s =>
    match m s with
    | (Ok a, s') => k a s'
    | (Raise e, s') => (Raise e, s')
    end.

Definition raise {S A : Type} (e : Exc) : M S A := fun s => (Raise e, s).

Definition get {S : Type} : M S S := fun s => (Ok s, s).

Definition put {S : Type} (s : S) : M S unit := fun _ => (Ok tt, s).

(** [try: body except ... as e: handler e] *)
Definition try_except {S A : Type} (body : M S A) (handler : Exc -> M S A) : M S A :=
  fun s =>
    match body s with
    | (Ok a, s') => (Ok a, s')
    | (Raise e, s') => handler e s'
    end.

(** [isinstance(e, NorError)] and [isinstance(e, UartError)] *)
Definition is_NorError (e : Exc) : bool :=
  match e with NorError _ _ => true | _ => false end.

Definition is_UartError (e : Exc) : bool :=
  match e with UartError _ _ => true | _ => false end.

End Py.

Import Py.

Declare Scope py_scope.
Delimit Scope py_scope with py.
Notation "x <- c ;; k" := (bind c (fun x => k))
  (at level 61, c at next level, right associativity) : py_scope.
Notation "c ;;; k" := (bind c (fun _ => k))
  (at level 61, right associativity) : py_scope.
Local Open Scope py_scope.

(* ===================================================================== *)
(** ** nor_handler.py *)
(* ===================================================================== *)

Module NorHandler.

(** The instance state that the methods read and write. *)
Record t : Type := mk { nor_data : option (list byte) }.

(** NOR file offsets and constants, set once by the constructor. *)
Definition OFFSET_ONE : Z := 0x1c7010.
Definition OFFSET_TWO : Z := 0x1c7030.
Definition WIFI_MAC_OFFSET : Z := 0x1C73C0.
Definition LAN_MAC_OFFSET : Z := 0x1C4020.
Definition SERIAL_OFFSET : Z := 0x1c7210.
Definition VARIANT_OFFSET : Z := 0x1c7226.
Definition MOBO_SERIAL_OFFSET : Z := 0x1C7200.
Definition SERIAL_LENGTH : Z := 16.
Definition MAC_LENGTH : Z := 6.

Definition __init__ : t := mk None.

(** Truth value of [self.nor_data]: [None] and the empty [bytearray] are
    false. *)
Definition loaded (self : t) : option (list byte) :=
  match nor_data self with
  | Some (b :: bs) => Some (b :: bs)
  | _ => None
  end.

Definition _read_string (offset length : Z) : M t string :=
  try_except
    (self <- get ;;
     match loaded self with
     | None => raise (NorError "No NOR data loaded" None)
     | Some data =>
         if (offset <? 0) || (offset + length >? len data)
         then raise (NorError ("Invalid offset " ++ fmt_int offset
                               ++ " or length " ++ fmt_int length) None)
         else ret (strip is_nul
                     (decode_ascii_ignore (slice data offset (offset + length))))
     end)
    (fun e =>
       match e with
       | UnicodeDecodeError =>
           raise (NorError ("Failed to decode string at offset " ++ fmt_int offset)
                           (Some e))
       | _ => raise (NorError "Unexpected error reading string" (Some e))
       end).

Definition _write_string (offset : Z) (value : string) (length : Z) : M t bool :=
  try_except
    (self <- get ;;
     match loaded self with
     | None => raise (NorError "No NOR data loaded" None)
     | Some data =>
         if (offset <? 0) || (offset + length >? len data)
         then raise (NorError ("Invalid offset " ++ fmt_int offset
                               ++ " or length " ++ fmt_int length) None)
         else
           match encode_ascii value with
           | None => raise UnicodeEncodeError
           | Some value_bytes =>
               if len value_bytes >? length
               then raise (NorError ("String too long: " ++ fmt_int (len value_bytes)
                                     ++ " > " ++ fmt_int length) None)
               else
                 let padded_bytes := ljust value_bytes length x00 in
                 put (mk (Some (slice_assign data offset (offset + length) padded_bytes))) ;;;
                 ret true
           end
     end)
    (fun e =>
       match e with
       | UnicodeEncodeError =>
           raise (NorError ("Failed to encode string: " ++ value) (Some e))
       | _ => raise (NorError "Unexpected error writing string" (Some e))
       end).

(** [try: body except NorError as e: raise NorError(message, str(e))] *)
Definition rewrap {A : Type} (message : string) (body : M t A) : M t A :=
  try_except body
    (fun e => if is_NorError e then raise (NorError message (Some e)) else raise e).

Definition get_serial_number : M t string :=
  rewrap "Failed to read serial number" (_read_string SERIAL_OFFSET SERIAL_LENGTH).

Definition set_serial_number (new_serial : string) : M t bool :=
  rewrap "Failed to set serial number"
    (if negb (str_len new_serial =? SERIAL_LENGTH)
     then raise (NorError ("Invalid serial number length: " ++ fmt_int (str_len new_serial)
                           ++ " != " ++ fmt_int SERIAL_LENGTH) None)
     else _write_string SERIAL_OFFSET new_serial SERIAL_LENGTH).

Definition get_version : M t string :=
  rewrap "Failed to read version"
    (offset_one_value <- _read_string OFFSET_ONE 1 ;;
     offset_two_value <- _read_string OFFSET_TWO 1 ;;
     if String.eqb offset_one_value "1" && String.eqb offset_two_value "1"
     then ret "Disc Edition"
     else if String.eqb offset_one_value "0" && String.eqb offset_two_value "0"
     then ret "Digital Edition"
     else ret "Unknown").

Definition set_version (is_disc_edition : bool) : M t bool :=
  rewrap "Failed to set version"
    (let value := if is_disc_edition then "1" else "0" in
     success <- _write_string OFFSET_ONE value 1 ;;
     success2 <- _write_string OFFSET_TWO value 1 ;;
     ret (success && success2)).

Definition get_motherboard_serial : M t string :=
  rewrap "Failed to read motherboard serial"
    (_read_string MOBO_SERIAL_OFFSET SERIAL_LENGTH).

(** [':'.join(f'{b:02x}' for b in mac_bytes)] *)
Definition format_mac (mac_bytes : list byte) : string :=
  join ":" (map (fun b => fmt_02x (Z.of_N (Byte.to_N b))) mac_bytes).

Definition read_mac (message : string) (offset : Z) : M t string :=
  try_except
    (self <- get ;;
     match loaded self with
     | None => raise (NorError "No NOR data loaded" None)
     | Some data =>
         let mac_bytes := slice data offset (offset + MAC_LENGTH) in
         ret (format_mac mac_bytes)
     end)
    (fun e => raise (NorError message (Some e))).

Definition get_wifi_mac : M t string :=
  read_mac "Failed to read WiFi MAC" WIFI_MAC_OFFSET.

Definition get_lan_mac : M t string :=
  read_mac "Failed to read LAN MAC" LAN_MAC_OFFSET.

(** A file of the disk: one that exists but cannot be read, or its
    content. *)
Inductive File : Type :=
| Unreadable
| Content (data : list byte).

(** The disk: the file found at every path, if any, and the paths that
    cannot be written. *)
Record Disk : Type := mkDisk {
  files : string -> option File;
  write_protected : string -> bool
}.

(** The handler together with the disk its file methods act on. *)
Record Session : Type := mkSession {
  handler : t;
  disk : Disk
}.

(** [open(file_path, 'wb')] followed by the write of [data]. *)
Definition write_file (file_path : string) (data : list byte) (d : Disk) : Disk :=
  mkDisk (fun p => if String.eqb p file_path then Some (Content data) else files d p)
         (write_protected d).

Definition load_nor_file (file_path : string) : M Session bool :=
  try_except
    (s <- get ;;
     match files (disk s) file_path with
     | None => raise (NorError ("NOR file not found: " ++ file_path) None)
     | Some Unreadable => raise IOError
     | Some (Content data) =>
         put (mkSession (mk (Some data)) (disk s)) ;;;
         s' <- get ;;
         match loaded (handler s') with
         | None => raise (NorError "Loaded NOR file is empty" None)
         | Some _ => ret true
         end
     end)
    (fun e =>
       match e with
       | IOError => raise (NorError ("Failed to read NOR file: " ++ file_path) (Some e))
       | _ => raise (NorError "Unexpected error loading NOR file" (Some e))
       end).

Definition save_nor_file (file_path : string) : M Session bool :=
  s <- get ;;
  match loaded (handler s) with
  | None => raise (NorError "No NOR data to save" None)
  | Some data =>
      try_except
        (if write_protected (disk s) file_path
         then raise IOError
         else
           put (mkSession (handler s) (write_file file_path data (disk s))) ;;;
           ret true)
        (fun e =>
           match e with
           | IOError =>
               raise (NorError ("Failed to write NOR file: " ++ file_path) (Some e))
           | _ => raise (NorError "Unexpected error saving NOR file" (Some e))
           end)
  end.

(** A method of the handler run inside a session: the disk is not
    touched. *)
Definition on_handler {A : Type} (m : M t A) : M Session A :=
  fun s =>
    let '(r, h) := m (handler s) in
    (r, mkSession h (disk s)).

End NorHandler.

(* ===================================================================== *)
(** ** The environment of the UART handler *)
(* ===================================================================== *)

Module Xml.

(** An [xml.etree.ElementTree.Element]: tag, text and child elements. *)
Inductive Element : Type :=
| Elem (tag : string) (text : option string) (children : list Element).

Definition tag (e : Element) : string :=
  match e with Elem t _ _ => t end.

Definition text (e : Element) : option string :=
  match e with Elem _ x _ => x end.

Definition children (e : Element) : list Element :=
  match e with Elem _ _ c => c end.

(** [e.findall(name)]: the direct children with that tag, in document
    order. *)
Definition findall (e : Element) (name : string) : list Element :=
  filter (fun c => String.eqb (tag c) name) (children e).

(** [e.find(name)]: the first of them, or [None]. *)
Definition find (e : Element) (name : string) : option Element :=
  hd_error (findall e name).

(** A text handed to the XML parser: [ET.parse] and [ET.fromstring] raise
    [ParseError] on [Malformed] and return the root element otherwise. *)
Inductive Source : Type :=
| Malformed
| Wellformed (root : Element).

Definition parse {S : Type} (src : Source) : M S Element :=
  match src with
  | Malformed => raise ParseError
  | Wellformed root => ret root
  end.

End Xml.

(** What [requests.get(url)] does: it raises [RequestException], or returns a
    response with a status code and a body. *)
Inductive HttpOutcome : Type :=
| TransportFailure
| Response (status_code : Z) (body : Xml.Source).

(** What the device does when a line is read from it. *)
Inductive RxEvent : Type :=
| RxLine (data : string)
| RxError.

(** An open [serial.Serial]: the lines the device is going to send, and
    whether a write to it fails. *)
Record Serial : Type := mkSerial {
  port : string;
  baudrate : Z;
  write_fails : bool;
  incoming : list RxEvent
}.

(** The I/O the handler performs, in order. *)
Inductive Event : Type :=
| SerialWrite (data : string)
| SerialReadline
| HttpGet (url : string)
| FileWrite (path : string) (doc : Xml.Element).

(** Everything outside the handler: the file at the database path (absent
    when [None]), whether the disk accepts a write, the remote service, and
    the trace of I/O so far (latest first). *)
Record World : Type := mkWorld {
  db_file : option Xml.Source;
  disk_ok : bool;
  remote : string -> HttpOutcome;
  trace : list Event
}.

(** A [dict] whose keys and values are [str] or [None], in insertion
    order. *)
Module Dict.

Definition key : Type := option string.
Definition value : Type := option string.
Definition t : Type := list (key * value).

Definition key_eqb (a b : key) : bool :=
  match a, b with
  | Some x, Some y => String.eqb x y
  | None, None => true
  | _, _ => false
  end.

(** [d[k] = v]: an existing key keeps its place. *)
Fixpoint set (d : t) (k : key) (v : value) : t :=
  match d with
  | [] => [(k, v)]
  | (k', v') :: d' =>
      if key_eqb k k' then (k, v) :: d' else (k', v') :: set d' k v
  end.

(** [d[k]] when [k in d], as [Some]; [None] when [k not in d]. *)
Fixpoint get (d : t) (k : key) : option value :=
  match d with
  | [] => None
  | (k', v') :: d' => if key_eqb k k' then Some v' else get d' k
  end.

(** [k in d] *)
Definition mem (d : t) (k : key) : bool :=
  match get d k with Some _ => true | None => false end.

Definition keys (d : t) : list key := map fst d.

End Dict.

(* ===================================================================== *)
(** ** uart_handler.py *)
(* ===================================================================== *)

Module UartHandler.

(** The instance attributes, and the world the methods act on. *)
Record t : Type := mk {
  connection : option Serial;
  error_codes_db : Dict.t;
  db_path : string;
  env : World
}.

Definition set_connection (c : option Serial) (self : t) : t :=
  mk c (error_codes_db self) (db_path self) (env self).

Definition set_error_codes_db (d : Dict.t) (self : t) : t :=
  mk (connection self) d (db_path self) (env self).

Definition set_env (w : World) (self : t) : t :=
  mk (connection self) (error_codes_db self) (db_path self) w.

Definition log (ev : Event) (w : World) : World :=
  mkWorld (db_file w) (disk_ok w) (remote w) (ev :: trace w).

(** [requests.get(url)] *)
Definition requests_get (url : string) : M t (Z * Xml.Source) :=
  self <- get ;;
  put (set_env (log (HttpGet url) (env self)) self) ;;;
  match remote (env self) url with
  | TransportFailure => raise RequestException
  | Response status_code body => ret (status_code, body)
  end.

(** [[0-9A-F]] *)
Definition is_hex_upper (c : ascii) : bool :=
  let n := ord c in
  ((48 <=? n) && (n <=? 57)) || ((65 <=? n) && (n <=? 70)).

(** [re.match(r'^[0-9A-F]{n}$', s)]: [n] characters of the class, followed by
    the end of the string or by one line feed that ends the string. *)
Fixpoint match_hex (n : nat) (s : string) : bool :=
  match n with
  | O =>
      match s with
      | EmptyString => true
      | String c EmptyString => Ascii.eqb c LF
      | _ => false
      end
  | S n' =>
      match s with
      | String c s' => is_hex_upper c && match_hex n' s'
      | EmptyString => false
      end
  end.

Definition validate_error_code (error_code : string) : bool :=
  match_hex 8 (upper error_code).

(** [validate_error_code(x)] for [x] that may be [None]: [None.upper()]
    raises [AttributeError]. *)
Definition validate_error_code_opt (x : option string) : M t bool :=
  match x with
  | Some s => ret (validate_error_code s)
  | None => raise AttributeError
  end.

Definition validate_command (command : string) : bool :=
  negb (String.eqb command "") && negb (contains LF command).

Fixpoint sum_ord (data : string) : Z :=
  match data with
  | EmptyString => 0
  | String c s => ord c + sum_ord s
  end.

Definition calculate_checksum (data : string) : string :=
  let checksum := Z.land (sum_ord data) 0xFF in
  data ++ ":" ++ fmt_02X checksum.

(** The tree built by [save_error_codes]. *)
Definition document (d : Dict.t) : Xml.Element :=
  Xml.Elem "errorCodes" None
    (map (fun '(code, desc) =>
            Xml.Elem "errorCode" None
              [Xml.Elem "ErrorCode" code []; Xml.Elem "Description" desc []])
         d).

Definition save_error_codes : M t unit :=
  try_except
    (self <- get ;;
     let root := document (error_codes_db self) in
     if disk_ok (env self)
     then
       let w := env self in
       put (set_env (mkWorld (Some (Xml.Wellformed root)) (disk_ok w) (remote w)
                       (FileWrite (db_path self) root :: trace w)) self)
     else raise IOError)
    (fun e =>
       match e with
       | IOError =>
           self <- get ;;
           raise (UartError ("Failed to write error codes database: " ++ db_path self)
                            (Some e))
       | _ => raise (UartError "Failed to save error codes database" (Some e))
       end).

(** The loop of [load_error_codes] over [root.findall("errorCode")]. *)
Fixpoint load_nodes (nodes : list Xml.Element) : M t unit :=
  match nodes with
  | [] => ret tt
  | error_code :: rest =>
      match Xml.find error_code "ErrorCode", Xml.find error_code "Description" with
      | Some code, Some desc =>
          self <- get ;;
          put (set_error_codes_db
                 (Dict.set (error_codes_db self) (Xml.text code) (Xml.text desc)) self) ;;;
          load_nodes rest
      | _, _ => load_nodes rest
      end
  end.

Definition load_error_codes : M t unit :=
  try_except
    (self <- get ;;
     match db_file (env self) with
     | Some src =>
         root <- Xml.parse src ;;
         if String.eqb (Xml.tag root) "errorCodes"
         then load_nodes (Xml.findall root "errorCode")
         else ret tt
     | None => ret tt
     end)
    (fun e =>
       match e with
       | ParseError => raise (UartError "Invalid error codes database format" (Some e))
       | _ => raise (UartError "Failed to load error codes database" (Some e))
       end).

(** The loop of [download_error_database] over
    [root.findall("errorCode")]. *)
Fixpoint download_nodes (nodes : list Xml.Element) : M t unit :=
  match nodes with
  | [] => ret tt
  | error_code :: rest =>
      match Xml.find error_code "ErrorCode", Xml.find error_code "Description" with
      | Some code, Some desc =>
          valid <- validate_error_code_opt (Xml.text code) ;;
          if valid
          then
            self <- get ;;
            put (set_error_codes_db
                   (Dict.set (error_codes_db self) (Xml.text code) (Xml.text desc)) self) ;;;
            download_nodes rest
          else download_nodes rest
      | _, _ => download_nodes rest
      end
  end.

Definition download_error_database : M t bool :=
  try_except
    (response <- requests_get "http://uartcodes.com/xml.php" ;;
     let '(status_code, body) := response in
     if status_code =? 200
     then
       root <- Xml.parse body ;;
       if String.eqb (Xml.tag root) "errorCodes"
       then
         self <- get ;;
         put (set_error_codes_db [] self) ;;;
         download_nodes (Xml.findall root "errorCode") ;;;
         save_error_codes ;;;
         ret true
       else ret false
     else ret false)
    (fun e =>
       match e with
       | RequestException => raise (UartError "Failed to download error database" (Some e))
       | ParseError => raise (UartError "Failed to parse error database response" (Some e))
       | _ => raise (UartError "Unexpected error downloading error database" (Some e))
       end).

Definition initialize_error_database : M t bool :=
  try_except
    (self <- get ;;
     match db_file (env self) with
     | None => download_error_database
     | Some _ => ret true
     end)
    (fun e => raise (UartError "Failed to initialize error database" (Some e))).

(** The constructor: the attributes are set, then the database is
    initialised; [module_dir] is the directory of the module file. *)
Definition __init__ (module_dir : string) (w : World) : result bool * t :=
  initialize_error_database
    (mk None [] (module_dir ++ "/../resources/error_codes.xml") w).

(** The loop of [get_error_description] over [root.findall("errorCode")]:
    [Some d] when the loop returned [d], [None] when it ran to its end. *)
Fixpoint lookup_nodes (error_code : string) (nodes : list Xml.Element)
  : M t (option (option string)) :=
  match nodes with
  | [] => ret None
  | error_code_node :: rest =>
      match Xml.find error_code_node "ErrorCode",
            Xml.find error_code_node "Description" with
      | Some code, Some desc =>
          if Dict.key_eqb (Xml.text code) (Some error_code)
          then
            self <- get ;;
            put (set_error_codes_db
                   (Dict.set (error_codes_db self) (Some error_code) (Xml.text desc)) self) ;;;
            save_error_codes ;;;
            ret (Some (Xml.text desc))
          else lookup_nodes error_code rest
      | _, _ => lookup_nodes error_code rest
      end
  end.

Definition get_error_description (error_code : string) : M t (option string) :=
  if negb (validate_error_code error_code)
  then raise (UartError "Invalid error code format" None)
  else
    self <- get ;;
    match Dict.get (error_codes_db self) (Some error_code) with
    | Some desc => ret desc
    | None =>
        found <-
          try_except
            (response <- requests_get
                           ("http://uartcodes.com/xml.php?errorCode=" ++ error_code) ;;
             let '(status_code, body) := response in
             if status_code =? 200
             then
               root <- Xml.parse body ;;
               if String.eqb (Xml.tag root) "errorCodes"
               then lookup_nodes error_code (Xml.findall root "errorCode")
               else ret None
             else ret None)
            (fun e =>
               match e with
               | RequestException =>
                   raise (UartError "Failed to fetch error description from online database"
                                    (Some e))
               | ParseError =>
                   raise (UartError "Failed to parse error description response" (Some e))
               | _ =>
                   raise (UartError "Unexpected error getting error description" (Some e))
               end) ;;
        match found with
        | Some desc => ret desc
        | None => ret (Some "Unknown error")
        end
    end.

(** The loop of [handle_error_response] over the codes; [error_messages] is
    the list built so far. *)
Fixpoint handle_codes (codes : list string) (error_messages : list string)
  : M t (list string) :=
  match codes with
  | [] => ret error_messages
  | code :: rest =>
      let code := strip is_space code in
      if validate_error_code code
      then
        desc <- get_error_description code ;;
        handle_codes rest
          (error_messages
             ++ [("Error code: " ++ code ++ nl ++ "Description: " ++ fmt_opt desc)%string])%list
      else handle_codes rest error_messages
  end.

Definition handle_error_response (response : string) : M t string :=
  try_except
    (if startswith response "ERROR:"
     then
       let codes := split ","%char (drop 6 response) in
       error_messages <- handle_codes codes [] ;;
       ret (join (nl ++ nl) error_messages)
     else ret response)
    (fun e => raise (UartError "Failed to handle error response" (Some e))).

(** [self.connection.write(data)], the frame logged as text. *)
Definition serial_write (conn : Serial) (data : string) : M t unit :=
  self <- get ;;
  put (set_env (log (SerialWrite data) (env self)) self) ;;;
  if write_fails conn then raise SerialException else ret tt.

(** [self.connection.readline().decode()]: the next line of the device, or
    the empty text when the read times out. *)
Definition serial_readline (conn : Serial) : M t string :=
  self <- get ;;
  put (set_env (log SerialReadline (env self)) self) ;;;
  match incoming conn with
  | [] => ret ""
  | RxLine data :: rest =>
      self <- get ;;
      put (set_connection
             (Some (mkSerial (port conn) (baudrate conn) (write_fails conn) rest)) self) ;;;
      ret data
  | RxError :: rest =>
      self <- get ;;
      put (set_connection
             (Some (mkSerial (port conn) (baudrate conn) (write_fails conn) rest)) self) ;;;
      raise SerialException
  end.

Definition send_command (command : string) : M t string :=
  self <- get ;;
  match connection self with
  | None => raise (UartError "Not connected to UART device" None)
  | Some conn =>
      if negb (validate_command command)
      then raise (UartError "Invalid command format" None)
      else
        try_except
          (let command_with_checksum := calculate_checksum command in
           serial_write conn (command_with_checksum ++ nl) ;;;
           line <- serial_readline conn ;;
           let response := strip is_space line in
           handle_error_response response)
          (fun e =>
             match e with
             | SerialException => raise (UartError "Failed to send UART command" (Some e))
             | _ => raise (UartError "Unexpected error sending UART command" (Some e))
             end)
  end.

(** [try: body except UartError as e: raise UartError(message, str(e))] *)
Definition rewrap {A : Type} (message : string) (body : M t A) : M t A :=
  try_except body
    (fun e => if is_UartError e then raise (UartError message (Some e)) else raise e).

(** The list comprehension of [get_error_codes]. *)
Definition parse_codes (codes : list string) : list string :=
  map (strip is_space)
    (filter (fun code =>
               negb (String.eqb (strip is_space code) "")
               && validate_error_code (strip is_space code))
            codes).

Definition get_error_codes : M t (list string) :=
  self <- get ;;
  match connection self with
  | None => raise (UartError "Not connected to UART device" None)
  | Some _ =>
      rewrap "Failed to get error codes"
        (response <- send_command "get_error_codes" ;;
         if negb (String.eqb response "") && startswith response "ERROR:"
         then ret (parse_codes (split ","%char (drop 6 response)))
         else ret [])
  end.

Definition clear_error_codes : M t bool :=
  self <- get ;;
  match connection self with
  | None => raise (UartError "Not connected to UART device" None)
  | Some _ =>
      rewrap "Failed to clear error codes"
        (response <- send_command "clear_error_codes" ;;
         ret (String.eqb response "OK"))
  end.

(** [send_custom_command]: the body of [send_command] with its own
    messages. *)
Definition send_custom_command (command : string) : M t string :=
  self <- get ;;
  match connection self with
  | None => raise (UartError "Not connected to UART device" None)
  | Some conn =>
      if negb (validate_command command)
      then raise (UartError "Invalid command format" None)
      else
        try_except
          (let command_with_checksum := calculate_checksum command in
           serial_write conn (command_with_checksum ++ nl) ;;;
           line <- serial_readline conn ;;
           let response := strip is_space line in
           handle_error_response response)
          (fun e =>
             match e with
             | SerialException =>
                 raise (UartError "Failed to send custom UART command" (Some e))
             | _ =>
                 raise (UartError "Unexpected error sending custom UART command" (Some e))
             end)
  end.

(** [disconnect]; [close_fails] tells whether [self.connection.close()]
    raises [SerialException].  The [finally] clause runs either way. *)
Definition disconnect (close_fails : bool) : M t unit :=
  self <- get ;;
  match connection self with
  | None => ret tt
  | Some _ =>
      put (set_connection None self) ;;;
      if close_fails
      then raise (UartError "Failed to disconnect from UART device" (Some SerialException))
      else ret tt
  end.

Definition _parse_error_offline (error_code : string) : M t string :=
  self <- get ;;
  match Dict.get (error_codes_db self) (Some error_code) with
  | Some desc =>
      ret ("Error code: " ++ error_code ++ nl ++ "Description: " ++ fmt_opt desc)
  | None =>
      ret ("Error code: " ++ error_code ++ nl
           ++ "No description available in offline database")
  end.

(** The loop of [parse_error_code] over [root.findall("errorCode")]:
    [Some text] when the loop returned [text], [None] when it ran to its
    end. *)
Fixpoint parse_nodes (error_code : string) (nodes : list Xml.Element)
  : option string :=
  match nodes with
  | [] => None
  | error_code_node :: rest =>
      match Xml.find error_code_node "ErrorCode",
            Xml.find error_code_node "Description" with
      | Some code, Some desc =>
          if Dict.key_eqb (Xml.text code) (Some error_code)
          then Some ("Error code: " ++ fmt_opt (Xml.text code) ++ nl
                     ++ "Description: " ++ fmt_opt (Xml.text desc))
          else parse_nodes error_code rest
      | _, _ => parse_nodes error_code rest
      end
  end.

Definition parse_error_code (error_code : string) (use_offline : bool) : M t string :=
  if negb (validate_error_code error_code)
  then raise (UartError "Invalid error code format" None)
  else if use_offline
  then _parse_error_offline error_code
  else
    try_except
      (response <- requests_get
                     ("http://uartcodes.com/xml.php?errorCode=" ++ error_code) ;;
       let '(status_code, body) := response in
       found <-
         (if status_code =? 200
          then
            root <- Xml.parse body ;;
            if String.eqb (Xml.tag root) "errorCodes"
            then ret (parse_nodes error_code (Xml.findall root "errorCode"))
            else ret None
          else ret None) ;;
       match found with
       | Some text => ret text
       | None => ret ("Error code: " ++ error_code ++ nl ++ "No description available")
       end)
      (fun e => raise (UartError "Failed to parse error code" (Some e))).

(** The module-level NOR offsets of [uart_handler.py]. *)
Definition OFFSET_ONE : Z := 0x1c7010.
Definition OFFSET_TWO : Z := 0x1c7030.
Definition WIFI_MAC_OFFSET : Z := 0x1C73C0.
Definition LAN_MAC_OFFSET : Z := 0x1C4020.
Definition SERIAL_OFFSET : Z := 0x1c7210.
Definition VARIANT_OFFSET : Z := 0x1c7226.
Definition MOBO_SERIAL_OFFSET : Z := 0x1C7200.

(** [validate_nor_file]: no statement of its [try] block can raise, so it is
    a function of the data alone. *)
Definition validate_nor_file (nor_data : list byte) : bool :=
  if len nor_data
     <? Z.max OFFSET_ONE
          (Z.max OFFSET_TWO
             (Z.max WIFI_MAC_OFFSET
                (Z.max LAN_MAC_OFFSET
                   (Z.max SERIAL_OFFSET (Z.max VARIANT_OFFSET MOBO_SERIAL_OFFSET))))) + 16
  then false
  else
    let version :=
      strip is_nul (decode_ascii_ignore (slice nor_data OFFSET_ONE (OFFSET_ONE + 16))) in
    let variant :=
      strip is_nul (decode_ascii_ignore (slice nor_data OFFSET_TWO (OFFSET_TWO + 16))) in
    negb (String.eqb version "") && negb (String.eqb variant "").

(** [try: body except Exception as e: raise UartError(message, str(e))] for
    the methods that work on the data they are given and not on the
    handler. *)
Definition guarded {A : Type} (message : string) (body : result A) : result A :=
  match body with
  | Ok a => Ok a
  | Raise e => Raise (UartError message (Some e))
  end.

(** A strict ASCII decoding followed by [strip('\x00')]. *)
Definition decode_strip (bs : list byte) : result string :=
  match decode_ascii bs with
  | Some s => Ok (strip is_nul s)
  | None => Raise UnicodeDecodeError
  end.

Definition detect_console_version (nor_data : list byte) : result string :=
  guarded "Failed to detect console version"
    (if negb (validate_nor_file nor_data)
     then Raise (UartError "Invalid NOR file" None)
     else
       match decode_strip (slice nor_data OFFSET_ONE (OFFSET_ONE + 16)) with
       | Raise e => Raise e
       | Ok offset_one_value =>
           match decode_strip (slice nor_data OFFSET_TWO (OFFSET_TWO + 16)) with
           | Raise e => Raise e
           | Ok offset_two_value =>
               if negb (String.eqb offset_one_value "")
                  && negb (String.eqb offset_two_value "")
               then Ok ("Console Version: " ++ offset_one_value ++ nl
                        ++ "Variant: " ++ offset_two_value)
               else Ok "Console version not detected"
           end
       end).

(** The ASCII bytes of ["DIGITAL"]. *)
Definition DIGITAL : list byte := [x44; x49; x47; x49; x54; x41; x4c].

Definition convert_to_digital_edition (nor_data : list byte) : result (list byte) :=
  guarded "Failed to convert to digital edition"
    (if negb (validate_nor_file nor_data)
     then Raise (UartError "Invalid NOR file" None)
     else
       Ok (slice_assign nor_data VARIANT_OFFSET (VARIANT_OFFSET + len DIGITAL) DIGITAL)).

(** [':'.join(mac[i:i+2] for i in range(0, len(mac), 2))] of
    [mac = bs.hex().upper()] *)
Definition format_mac_upper (bs : list byte) : string :=
  join ":" (pairs (upper (hex bs))).

(** The dictionary returned by [get_mac_addresses]. *)
Record MacAddresses : Type := mkMacAddresses { wifi : string; lan : string }.

Definition get_mac_addresses (nor_data : list byte) : result MacAddresses :=
  guarded "Failed to extract MAC addresses"
    (if negb (validate_nor_file nor_data)
     then Raise (UartError "Invalid NOR file" None)
     else
       Ok (mkMacAddresses
             (format_mac_upper (slice nor_data WIFI_MAC_OFFSET (WIFI_MAC_OFFSET + 12)))
             (format_mac_upper (slice nor_data LAN_MAC_OFFSET (LAN_MAC_OFFSET + 12))))).

(** The dictionary returned by [get_serial_numbers]. *)
Record SerialNumbers : Type := mkSerialNumbers { console : string; motherboard : string }.

Definition get_serial_numbers (nor_data : list byte) : result SerialNumbers :=
  guarded "Failed to extract serial numbers"
    (if negb (validate_nor_file nor_data)
     then Raise (UartError "Invalid NOR file" None)
     else
       match decode_strip (slice nor_data SERIAL_OFFSET (SERIAL_OFFSET + 10)) with
       | Raise e => Raise e
       | Ok console_serial =>
           match decode_strip (slice nor_data MOBO_SERIAL_OFFSET (MOBO_SERIAL_OFFSET + 10)) with
           | Raise e => Raise e
           | Ok mobo_serial => Ok (mkSerialNumbers console_serial mobo_serial)
           end
       end).

(** How a conversion of a hex string ends: with a value, with
    [UartError("Invalid hex string")], or with the [UartError] that wraps the
    [ValueError] of [bytes.fromhex] or the [UnicodeDecodeError] of
    [decode]. *)
Inductive HexResult (A : Type) : Type :=
| HexOk (a : A)
| InvalidHexString
| ConversionFailed.
Arguments HexOk {A} a.
Arguments InvalidHexString {A}.
Arguments ConversionFailed {A}.

(** [''.join(f"{ord(c):02X}" for c in text)] *)
Fixpoint string_to_hex_string (text : string) : string :=
  match text with
  | EmptyString => EmptyString
  | String c rest => fmt_02X (ord c) ++ string_to_hex_string rest
  end.

Definition hex_string_to_bytes (hex_string : string) : HexResult (list byte) :=
  if String.eqb hex_string "" || negb (str_len hex_string mod 2 =? 0)
  then InvalidHexString
  else
    match fromhex hex_string with
    | Some bs => HexOk bs
    | None => ConversionFailed
    end.

Definition hex_string_to_string (hex_string : string) : HexResult string :=
  if String.eqb hex_string "" || negb (str_len hex_string mod 2 =? 0)
  then InvalidHexString
  else
    match fromhex hex_string with
    | Some bs =>
        match decode_ascii bs with
        | Some s => HexOk s
        | None => ConversionFailed
        end
    | None => ConversionFailed
    end.

(** [find_pattern], the positions it yields in the order it yields them. *)
Definition find_pattern (source pattern : list byte) : list Z :=
  filter (fun i => bytes_eqb (slice source i (i + len pattern)) pattern)
         (range (len source - len pattern + 1)).

End UartHandler.

(* ===================================================================== *)
(** ** Vocabulary of the statements *)
(* ===================================================================== *)

(** Every character of [s] is in the set [p]. *)
Fixpoint all_chars (p : ascii -> bool) (s : string) : bool :=
  match s with
  | EmptyString => true
  | String c s' => p c && all_chars p s'
  end.

(** The first character of [s] exists and is in [p]. *)
Definition starts_in (p : ascii -> bool) (s : string) : bool :=
  match s with
  | EmptyString => false
  | String c _ => p c
  end.

(** The last character of [s] exists and is in [p]. *)
Fixpoint ends_in (p : ascii -> bool) (s : string) : bool :=
  match s with
  | EmptyString => false
  | String c EmptyString => p c
  | String _ s' => ends_in p s'
  end.

(** [s.isascii()] *)
Definition is_ascii (s : string) : bool := all_chars (fun c => ord c <? 128) s.

(** [s] holds no NUL character. *)
Definition nul_free (s : string) : bool := negb (contains zero s).

(** The edition named by the two flag bytes. *)
Definition edition_of (flag_one flag_two : byte) : string :=
  if Byte.eqb flag_one x31 && Byte.eqb flag_two x31 then "Disc Edition"
  else if Byte.eqb flag_one x30 && Byte.eqb flag_two x30 then "Digital Edition"
  else "Unknown".

(** The byte of the image at [offset]. *)
Definition byte_at (data : list byte) (offset : Z) : byte :=
  nth (Z.to_nat offset) data x00.

(** An image of [n] NUL bytes followed by [tail]. *)
Definition image (n : Z) (tail : list byte) : NorHandler.t :=
  NorHandler.mk (Some (repeat x00 (Z.to_nat n) ++ tail)%list).

(** The bytes of an image whose two edition flags are both the character 1,
    and that ends with the second flag. *)
Definition disc_data : list byte :=
  (repeat x00 (Z.to_nat NorHandler.OFFSET_ONE) ++ x31 :: repeat x00 31 ++ [x31])%list.

(** A hexadecimal digit of either case. *)
Definition is_hex_digit (c : ascii) : bool :=
  let n := ord c in
  ((48 <=? n) && (n <=? 57)) || ((65 <=? n) && (n <=? 70))
  || ((97 <=? n) && (n <=? 102)).

(** A cache key that passes the validation of error codes. *)
Definition valid_key (k : Dict.key) : bool :=
  match k with
  | Some s => UartHandler.validate_error_code s
  | None => false
  end.

(** The (code, description) pairs of the nodes of a payload, in document
    order: the texts of the first [ErrorCode] and [Description] children of
    every node that has both. *)
Definition entries_of (nodes : list Xml.Element) : list (Dict.key * Dict.value) :=
  flat_map
    (fun node =>
       match Xml.find node "ErrorCode", Xml.find node "Description" with
       | Some code, Some desc => [(Xml.text code, Xml.text desc)]
       | _, _ => []
       end)
    nodes.

Arguments entries_of : simpl never.

Definition payload_entries (root : Xml.Element) : list (Dict.key * Dict.value) :=
  entries_of (Xml.findall root "errorCode").

(** Those of them whose code passes validation. *)
Definition valid_entries (root : Xml.Element) : list (Dict.key * Dict.value) :=
  filter (fun entry => valid_key (fst entry)) (payload_entries root).

(** A cache filled with entries one after the other. *)
Definition fill (d : Dict.t) (entries : list (Dict.key * Dict.value)) : Dict.t :=
  fold_left (fun acc entry => Dict.set acc (fst entry) (snd entry)) entries d.

(** The element of one record of the database document. *)
Definition record (code description : string) : Xml.Element :=
  Xml.Elem "errorCode" None
    [Xml.Elem "ErrorCode" (Some code) []; Xml.Elem "Description" (Some description) []].

(** A remote service that serves one document at every address. *)
Definition serves (records : list Xml.Element) : string -> HttpOutcome :=
  fun _ => Response 200 (Xml.Wellformed (Xml.Elem "errorCodes" None records)).

(** A remote service that cannot be reached. *)
Definition unreachable : string -> HttpOutcome := fun _ => TransportFailure.

(** A link to a device that is going to send the given lines. *)
Definition link (lines : list string) : option Serial :=
  Some (mkSerial "COM3" 115200 false (map RxLine lines)).

(** A handler that is not connected, with the given cache, in a world with
    no database file, a disk that accepts writes and the given remote. *)
Definition offline_handler (cache : Dict.t) (service : string -> HttpOutcome)
  : UartHandler.t :=
  UartHandler.mk None cache "resources/error_codes.xml"
    (mkWorld None true service []).

(** A handler whose cache holds one stale code, facing a remote catalogue
    of two well-formed codes and a malformed one. *)
Definition stale_handler : UartHandler.t :=
  offline_handler [(Some "11111111", Some "stale")]
    (serves [record "DEADBEEF" "x"; record "badcode" "y"; record "CAFEF00D" "z"]).

(** A handler with an empty cache, facing a remote that serves one code
    written in lower case. *)
Definition lower_handler : UartHandler.t :=
  offline_handler [] (serves [record "deadbeef" "x"]).

(** A connected handler whose cache knows two codes, and whose device is
    going to report these two codes around a malformed one. *)
Definition listening_handler : UartHandler.t :=
  UartHandler.mk (link ["ERROR:DEADBEEF,badcode,CAFEF00D" ++ nl])
    [(Some "DEADBEEF", Some "X"); (Some "CAFEF00D", Some "Y")]
    "resources/error_codes.xml"
    (mkWorld None true unreachable []).

(** A world whose database file exists and holds one record. *)
Definition existing_world : World :=
  mkWorld
    (Some (Xml.Wellformed (Xml.Elem "errorCodes" None [record "AABBCCDD" "desc1"])))
    true unreachable [].

(** A text block of [handle_error_response]. *)
Definition is_block (m : string) : Prop :=
  exists rest, m = "Error code: " ++ rest.

(** The byte that [set_version] writes for an edition. *)
Definition flag_byte (is_disc_edition : bool) : byte :=
  if is_disc_edition then x31 else x30.

(** The name [get_version] gives to an edition. *)
Definition edition_name (is_disc_edition : bool) : string :=
  if is_disc_edition then "Disc Edition" else "Digital Edition".

(** A character of a MAC address as the getters print it. *)
Definition is_mac_char (c : ascii) : bool :=
  let n := ord c in
  ((48 <=? n) && (n <=? 57)) || ((97 <=? n) && (n <=? 102)) || (n =? 58).

(** An image of NUL bytes that ends with the serial-number field. *)
Definition serial_data : list byte :=
  repeat x00 (Z.to_nat (NorHandler.SERIAL_OFFSET + 16)).

(** An image of NUL bytes that ends with the first edition flag. *)
Definition one_flag_data : list byte :=
  repeat x00 (Z.to_nat (NorHandler.OFFSET_ONE + 1)).

(** An image that passes [validate_nor_file]: both edition flags are the
    character 1 and the image is long enough for every field. *)
Definition valid_data : list byte :=
  (disc_data ++ repeat x00 (Z.to_nat (UartHandler.WIFI_MAC_OFFSET + 16
                                       - (UartHandler.OFFSET_TWO + 1))))%list.

(** A disk with one file. *)
Definition one_file_disk (path : string) (file : NorHandler.File) : NorHandler.Disk :=
  NorHandler.mkDisk (fun p => if String.eqb p path then Some file else None)
                    (fun _ => false).

(** The port of the link, when the handler is connected. *)
Definition link_port (self : UartHandler.t) : option string :=
  option_map port (UartHandler.connection self).

(** A method that never connects, disconnects or changes the port. *)
Definition keeps_link {A : Type} (m : M UartHandler.t A) : Prop :=
  forall s, link_port (snd (m s)) = link_port s.

(** The handler after one exchange on its link: the frame of [command] was
    written, one line was read and the device has [rest] left to send. *)
Definition after_exchange (self : UartHandler.t) (conn : Serial) (command : string)
    (rest : list RxEvent) : UartHandler.t :=
  UartHandler.set_connection
    (Some (mkSerial (port conn) (baudrate conn) (write_fails conn) rest))
    (UartHandler.set_env
       (UartHandler.log SerialReadline
          (UartHandler.log
             (SerialWrite (UartHandler.calculate_checksum command ++ nl))
             (UartHandler.env self)))
       self).

(** Bytes that are all ASCII and not NUL. *)
Definition text_bytes (bs : list byte) : bool :=
  forallb (fun b => (0 <? Byte.to_N b)%N && (Byte.to_N b <? 128)%N) bs.

(** A valid image whose two serial fields are filled with the letter A. *)
Definition lettered_data : list byte :=
  (disc_data
   ++ repeat x00 (Z.to_nat (UartHandler.MOBO_SERIAL_OFFSET - (UartHandler.OFFSET_TWO + 1)))
   ++ repeat x41 32
   ++ repeat x00 (Z.to_nat (UartHandler.WIFI_MAC_OFFSET + 16
                            - (UartHandler.SERIAL_OFFSET + 16))))%list.

(** A method leaves the object as it found it, whatever it returns. *)
Definition preserves {S A : Type} (m : M S A) : Prop :=
  forall s, snd (m s) = s.

(* ===================================================================== *)
(** ** Sequences and slices *)
(* ===================================================================== *)

Section Slices.

Context {A : Type}.
Implicit Types (l v : list A) (lo hi : Z).

Lemma len_nonneg l : 0 <= len l.
Proof. unfold len. lia. Qed.

Lemma len_app l v : len (l ++ v) = len l + len v.
Proof. unfold len. rewrite length_app. lia. Qed.

Lemma norm_index_in_range l i : 0 <= i <= len l -> norm_index (len l) i = i.
Proof.
  intros Hi. unfold norm_index.
  destruct (Z.ltb_spec i 0); lia.
Qed.

Lemma slice_in_range l lo hi :
  0 <= lo -> lo <= hi -> hi <= len l ->
  slice l lo hi = firstn (Z.to_nat (hi - lo)) (skipn (Z.to_nat lo) l).
Proof.
  intros H0 H1 H2. unfold slice.
  rewrite !norm_index_in_range by lia. reflexivity.
Qed.

Lemma slice_assign_in_range l lo hi v :
  0 <= lo -> lo <= hi -> hi <= len l ->
  slice_assign l lo hi v
  = (firstn (Z.to_nat lo) l ++ v ++ skipn (Z.to_nat hi) l)%list.
Proof.
  intros H0 H1 H2. unfold slice_assign.
  rewrite !norm_index_in_range by lia.
  rewrite Z.max_r by lia. reflexivity.
Qed.

Lemma len_slice_assign l lo hi v :
  0 <= lo -> lo <= hi -> hi <= len l -> len v = hi - lo ->
  len (slice_assign l lo hi v) = len l.
Proof.
  intros H0 H1 H2 Hv. rewrite slice_assign_in_range by assumption.
  unfold len in *.
  rewrite !length_app, length_firstn, length_skipn. lia.
Qed.

Lemma slice_of_slice_assign l lo hi v :
  0 <= lo -> lo <= hi -> hi <= len l -> len v = hi - lo ->
  slice (slice_assign l lo hi v) lo hi = v.
Proof.
  intros H0 H1 H2 Hv.
  rewrite slice_in_range; try lia.
  2: rewrite len_slice_assign by assumption; lia.
  rewrite slice_assign_in_range by assumption.
  assert (Hf : List.length (firstn (Z.to_nat lo) l) = Z.to_nat lo).
  { rewrite length_firstn. unfold len in H2. lia. }
  rewrite skipn_app, Hf, Nat.sub_diag. simpl skipn at 2.
  rewrite (skipn_all2 (n := Z.to_nat lo)) by lia. simpl.
  assert (Hn : Z.to_nat (hi - lo) = List.length v) by (unfold len in Hv; lia).
  rewrite Hn, firstn_app, Nat.sub_diag, firstn_all. simpl.
  apply app_nil_r.
Qed.

Lemma skipn_nth_error l (n : nat) (x : A) :
  nth_error l n = Some x -> exists rest, skipn n l = x :: rest.
Proof.
  revert l. induction n as [|n IH]; intros [|y l] H; simpl in *; try discriminate.
  - injection H as ->. eauto.
  - apply IH. assumption.
Qed.

Lemma slice_one l lo :
  0 <= lo -> lo + 1 <= len l ->
  exists x, nth_error l (Z.to_nat lo) = Some x /\ slice l lo (lo + 1) = [x].
Proof.
  intros H0 H1.
  destruct (nth_error l (Z.to_nat lo)) as [x|] eqn:E.
  - exists x. split; [reflexivity|].
    rewrite slice_in_range by lia.
    destruct (skipn_nth_error _ _ _ E) as [rest ->].
    replace (lo + 1 - lo) with 1 by lia. reflexivity.
  - apply nth_error_None in E. unfold len in H1. lia.
Qed.

Lemma slice_past_end l lo hi : len l <= lo -> 0 <= hi -> slice l lo hi = [].
Proof.
  intros H0 H1. unfold slice, norm_index.
  pose proof (len_nonneg l).
  destruct (Z.ltb_spec lo 0); [lia|].
  destruct (Z.ltb_spec hi 0); [lia|].
  replace (Z.to_nat (Z.min hi (len l) - Z.min lo (len l))) with O by lia.
  reflexivity.
Qed.

End Slices.

(* ===================================================================== *)
(** ** Texts: stripping, encoding and decoding *)
(* ===================================================================== *)

Section Strip.

Variable p : ascii -> bool.

Lemma lstrip_all s : all_chars p s = true -> lstrip p s = "".
Proof.
  induction s as [|c s IH]; simpl; [reflexivity|].
  destruct (p c); simpl; [exact IH | discriminate].
Qed.

Lemma rstrip_all s : all_chars p s = true -> rstrip p s = "".
Proof.
  induction s as [|c s IH]; simpl; [reflexivity|].
  destruct (p c); simpl; [|discriminate].
  intros H. rewrite (IH H). reflexivity.
Qed.

Lemma lstrip_app s t :
  lstrip p (s ++ t) = if all_chars p s then lstrip p t else lstrip p s ++ t.
Proof.
  induction s as [|c s IH]; simpl; [reflexivity|].
  destruct (p c); simpl; [exact IH | reflexivity].
Qed.

Lemma rstrip_app_all s t :
  all_chars p t = true -> rstrip p (s ++ t) = rstrip p s.
Proof.
  intros Ht. induction s as [|c s IH]; simpl.
  - apply rstrip_all. assumption.
  - rewrite IH. reflexivity.
Qed.

(** Padding on the right with characters of the set does not change what
    [strip] returns. *)
Lemma strip_app_all s t :
  all_chars p t = true -> strip p (s ++ t) = strip p s.
Proof.
  intros Ht. unfold strip. rewrite lstrip_app.
  destruct (all_chars p s) eqn:Hs.
  - rewrite (lstrip_all t Ht), (lstrip_all s Hs). reflexivity.
  - apply rstrip_app_all. assumption.
Qed.

Lemma lstrip_spec s :
  exists pre, s = pre ++ lstrip p s
              /\ all_chars p pre = true
              /\ starts_in p (lstrip p s) = false.
Proof.
  induction s as [|c s (pre & E & Hpre & Hs)]; simpl.
  - exists "". auto.
  - destruct (p c) eqn:Hc.
    + exists (String c pre). simpl. rewrite Hc, Hpre, <- E. auto.
    + exists "". simpl. auto.
Qed.

Lemma rstrip_spec s :
  exists post, s = rstrip p s ++ post
               /\ all_chars p post = true
               /\ ends_in p (rstrip p s) = false.
Proof.
  induction s as [|c s (post & E & Hpost & Hs)]; simpl.
  - exists "". auto.
  - destruct (rstrip p s) as [|d r] eqn:Hr.
    + destruct (p c) eqn:Hc.
      * exists (String c post). simpl in *. subst s. rewrite Hc, Hpost. auto.
      * exists post. simpl in *. subst s. rewrite Hc. auto.
    + exists post. simpl in *. rewrite <- E. auto.
Qed.

Lemma rstrip_starts s :
  starts_in p s = false -> starts_in p (rstrip p s) = false.
Proof.
  destruct s as [|c s]; simpl; [reflexivity|].
  intros Hc. destruct (rstrip p s); [rewrite Hc|]; simpl; auto.
Qed.

(** What [strip] returns: the text between a longest prefix and a longest
    suffix of characters of the set. *)
Lemma strip_spec s :
  exists pre post,
    s = pre ++ strip p s ++ post
    /\ all_chars p pre = true /\ all_chars p post = true
    /\ starts_in p (strip p s) = false /\ ends_in p (strip p s) = false.
Proof.
  destruct (lstrip_spec s) as (pre & E1 & Hpre & Hstart).
  destruct (rstrip_spec (lstrip p s)) as (post & E2 & Hpost & Hend).
  exists pre, post. unfold strip.
  rewrite <- E2. repeat split; auto using rstrip_starts.
Qed.

Lemma lstrip_none s : starts_in p s = false -> lstrip p s = s.
Proof.
  destruct s as [|c s]; simpl; [reflexivity|].
  intros ->. reflexivity.
Qed.

End Strip.

Lemma rstrip_nul_free s : nul_free s = true -> rstrip is_nul s = s.
Proof.
  unfold nul_free, is_nul.
  induction s as [|c s IH]; cbn [contains rstrip]; [reflexivity|].
  rewrite (Ascii.eqb_sym zero c).
  destruct (Ascii.eqb c zero) eqn:Hc; cbn [orb negb]; [discriminate|].
  intros H. rewrite (IH H). destruct s; reflexivity.
Qed.

Lemma strip_nul_free s : nul_free s = true -> strip is_nul s = s.
Proof.
  intros H. unfold strip. rewrite lstrip_none.
  - apply rstrip_nul_free. assumption.
  - destruct s as [|c s]; [reflexivity|].
    unfold nul_free, is_nul in *. cbn [contains starts_in] in *.
    rewrite (Ascii.eqb_sym zero c) in H.
    destruct (Ascii.eqb c zero); [discriminate | reflexivity].
Qed.

Lemma to_N_byte_of_ascii c : Byte.to_N (byte_of_ascii c) = N_of_ascii c.
Proof.
  apply Byte.to_of_N. symmetry. apply byte_of_ascii_via_N.
Qed.

Lemma encode_ascii_total s :
  is_ascii s = true -> exists bs, encode_ascii s = Some bs.
Proof.
  unfold is_ascii. induction s as [|c s IH]; simpl; [eauto|].
  destruct (ord c <? 128); simpl; [|discriminate].
  intros H. destruct (IH H) as [bs ->]. simpl. eauto.
Qed.

Lemma decode_encode_ascii s bs :
  encode_ascii s = Some bs ->
  decode_ascii_ignore bs = s /\ len bs = str_len s.
Proof.
  revert bs. induction s as [|c s IH]; simpl; intros bs H.
  - injection H as <-. split; reflexivity.
  - destruct (Z.ltb_spec (ord c) 128) as [Hc|]; [|discriminate].
    destruct (encode_ascii s) as [bs'|]; [|discriminate].
    injection H as <-. destruct (IH bs' eq_refl) as [IH1 IH2].
    simpl. rewrite to_N_byte_of_ascii.
    unfold ord in Hc.
    destruct (N.ltb_spec (N_of_ascii c) 128) as [_|Hge]; [|lia].
    rewrite ascii_of_byte_of_ascii, IH1. split; [reflexivity|].
    unfold len, str_len in *. simpl. lia.
Qed.

Lemma decode_ascii_ignore_app a b :
  decode_ascii_ignore (a ++ b) = decode_ascii_ignore a ++ decode_ascii_ignore b.
Proof.
  induction a as [|x a IH]; simpl; [reflexivity|].
  destruct (Byte.to_N x <? 128)%N; simpl; rewrite IH; reflexivity.
Qed.

Lemma decode_padding n :
  all_chars is_nul (decode_ascii_ignore (repeat x00 n)) = true.
Proof.
  induction n as [|n IH]; simpl; [reflexivity | exact IH].
Qed.

Lemma len_ljust bs width fill :
  len bs <= width -> len (ljust bs width fill) = width.
Proof.
  intros H. unfold ljust. rewrite len_app.
  unfold len in *. rewrite repeat_length. lia.
Qed.

(* ===================================================================== *)
(** ** Methods that leave the object unchanged *)
(* ===================================================================== *)

Section Preserves.

Context {S : Type}.

Lemma preserves_ret {A : Type} (a : A) : preserves (S := S) (ret a).
Proof. intros s. reflexivity. Qed.

Lemma preserves_raise {A : Type} (e : Exc) : preserves (S := S) (A := A) (raise e).
Proof. intros s. reflexivity. Qed.

Lemma preserves_get : preserves (S := S) get.
Proof. intros s. reflexivity. Qed.

Lemma preserves_bind {A B : Type} (m : M S A) (k : A -> M S B) :
  preserves m -> (forall a, preserves (k a)) -> preserves (bind m k).
Proof.
  intros Hm Hk s. unfold bind. specialize (Hm s).
  destruct (m s) as [[a|e] s']; simpl in Hm; subst s'; [apply Hk | reflexivity].
Qed.

Lemma preserves_try_except {A : Type} (body : M S A) (handler : Exc -> M S A) :
  preserves body -> (forall e, preserves (handler e)) ->
  preserves (try_except body handler).
Proof.
  intros Hb Hh s. unfold try_except. specialize (Hb s).
  destruct (body s) as [[a|e] s']; simpl in Hb; subst s'; [reflexivity | apply Hh].
Qed.

End Preserves.

Create HintDb frame.
#[local] Hint Resolve preserves_ret preserves_raise preserves_get : frame.

Ltac frame_step :=
  first [ apply preserves_try_except; [|intros ?]
        | apply preserves_bind; [|intros ?]
        | solve [auto with frame] ].

Lemma read_string_preserves offset length :
  preserves (NorHandler._read_string offset length).
Proof.
  unfold NorHandler._read_string.
  frame_step; [frame_step; [frame_step|] |].
  - destruct (NorHandler.loaded a); [|frame_step].
    destruct (_ || _); frame_step.
  - destruct e; frame_step.
Qed.

Lemma nor_rewrap_preserves {A : Type} message (body : M NorHandler.t A) :
  preserves body -> preserves (NorHandler.rewrap message body).
Proof.
  intros H. unfold NorHandler.rewrap. frame_step; [assumption|].
  destruct (is_NorError e); frame_step.
Qed.

Lemma read_mac_preserves message offset :
  preserves (NorHandler.read_mac message offset).
Proof.
  unfold NorHandler.read_mac.
  frame_step; [frame_step; [frame_step|] | frame_step].
  destruct (NorHandler.loaded a); frame_step.
Qed.

(* ===================================================================== *)
(** ** Field reads and writes of the image *)
(* ===================================================================== *)

Section Fields.

Variables (self : NorHandler.t) (data : list byte).
Hypothesis Hloaded : NorHandler.loaded self = Some data.

Lemma read_string_in_bounds offset length :
  0 <= offset -> offset + length <= len data ->
  NorHandler._read_string offset length self
  = (Ok (strip is_nul (decode_ascii_ignore (slice data offset (offset + length)))),
     self).
Proof.
  intros H0 H1.
  unfold NorHandler._read_string, try_except, bind, get. rewrite Hloaded.
  rewrite Z.gtb_ltb.
  destruct (Z.ltb_spec offset 0); [lia|].
  destruct (Z.ltb_spec (len data) (offset + length)); [lia|].
  reflexivity.
Qed.

Lemma read_string_out_of_bounds offset length :
  offset < 0 \/ len data < offset + length ->
  NorHandler._read_string offset length self
  = (Raise (NorError "Unexpected error reading string"
              (Some (NorError ("Invalid offset " ++ fmt_int offset
                               ++ " or length " ++ fmt_int length) None))),
     self).
Proof.
  intros H.
  unfold NorHandler._read_string, try_except, bind, get. rewrite Hloaded.
  rewrite Z.gtb_ltb.
  destruct (Z.ltb_spec offset 0); [reflexivity|].
  destruct (Z.ltb_spec (len data) (offset + length)); [reflexivity | lia].
Qed.

Lemma write_string_out_of_bounds offset value length :
  offset < 0 \/ len data < offset + length ->
  NorHandler._write_string offset value length self
  = (Raise (NorError "Unexpected error writing string"
              (Some (NorError ("Invalid offset " ++ fmt_int offset
                               ++ " or length " ++ fmt_int length) None))),
     self).
Proof.
  intros H.
  unfold NorHandler._write_string, try_except, bind, get. rewrite Hloaded.
  rewrite Z.gtb_ltb.
  destruct (Z.ltb_spec offset 0); [reflexivity|].
  destruct (Z.ltb_spec (len data) (offset + length)); [reflexivity | lia].
Qed.

Lemma write_string_in_bounds offset value length value_bytes :
  0 <= offset -> offset + length <= len data ->
  encode_ascii value = Some value_bytes -> len value_bytes <= length ->
  NorHandler._write_string offset value length self
  = (Ok true,
     NorHandler.mk
       (Some (slice_assign data offset (offset + length)
                (ljust value_bytes length x00)))).
Proof.
  intros H0 H1 Henc Hlen.
  unfold NorHandler._write_string, try_except, bind, get, put, ret.
  rewrite Hloaded, Henc, !Z.gtb_ltb.
  destruct (Z.ltb_spec offset 0); [lia|].
  destruct (Z.ltb_spec (len data) (offset + length)); [lia|].
  destruct (Z.ltb_spec length (len value_bytes)); [lia|].
  reflexivity.
Qed.

End Fields.

Lemma loaded_nonempty self data :
  NorHandler.loaded self = Some data -> 0 < len data.
Proof.
  unfold NorHandler.loaded.
  destruct (NorHandler.nor_data self) as [[|b bs]|]; try discriminate.
  intros H. injection H as <-. unfold len. simpl. lia.
Qed.

Lemma loaded_mk data : 0 < len data -> NorHandler.loaded (NorHandler.mk (Some data)) = Some data.
Proof.
  destruct data; [unfold len; simpl; lia | reflexivity].
Qed.

(** The text read from a one-byte field is ["1"] exactly for the byte 0x31,
    and ["0"] exactly for the byte 0x30. *)
Lemma flag_text_one (b : byte) :
  String.eqb (strip is_nul (decode_ascii_ignore [b])) "1" = Byte.eqb b x31.
Proof. destruct b; reflexivity. Qed.

Lemma flag_text_zero (b : byte) :
  String.eqb (strip is_nul (decode_ascii_ignore [b])) "0" = Byte.eqb b x30.
Proof. destruct b; reflexivity. Qed.

(* ===================================================================== *)
(** ** The image accessor: edition, bounds, stripping, round trip, frame *)
(* ===================================================================== *)

(** C2, as the claim states it, fails: on a loaded image that is too short to
    hold the flags, [get_version] raises instead of returning "Unknown". *)
Lemma get_version_raises_on_short_image :
  NorHandler.loaded (image 0 [x31]) = Some [x31]
  /\ NorHandler.get_version (image 0 [x31])
     = (Raise (NorError "Failed to read version"
                 (Some (NorError "Unexpected error reading string"
                          (Some (NorError "Invalid offset 1863696 or length 1" None))))),
        image 0 [x31])
  /\ fst (NorHandler.get_version (image 0 [x31])) <> Ok "Unknown".
Proof.
  assert (E : NorHandler.get_version (image 0 [x31])
              = (Raise (NorError "Failed to read version"
                   (Some (NorError "Unexpected error reading string"
                      (Some (NorError "Invalid offset 1863696 or length 1" None))))),
                 image 0 [x31])) by (vm_compute; reflexivity).
  split; [reflexivity|]. split; [exact E|].
  rewrite E. discriminate.
Qed.

(** C2, amended: on a loaded image that holds both flag bytes, [get_version]
    returns "Disc Edition" when both are the character 1, "Digital Edition"
    when both are the character 0, and "Unknown" for every other pair; on a
    loaded image too short to hold them it raises [NorError] "Failed to read
    version".  The image is left unchanged either way. *)
Theorem get_version_by_flags (self : NorHandler.t) (data : list byte) :
  NorHandler.loaded self = Some data ->
  (NorHandler.OFFSET_TWO + 1 <= len data ->
   NorHandler.get_version self
   = (Ok (edition_of (byte_at data NorHandler.OFFSET_ONE)
                     (byte_at data NorHandler.OFFSET_TWO)), self))
  /\ (len data < NorHandler.OFFSET_TWO + 1 ->
      exists cause,
        NorHandler.get_version self
        = (Raise (NorError "Failed to read version" (Some cause)), self)).
Proof.
  intros Hl. split; intros Hlen.
  - assert (H1 : 0 <= NorHandler.OFFSET_ONE
                 /\ NorHandler.OFFSET_ONE + 1 <= len data)
      by (unfold NorHandler.OFFSET_ONE, NorHandler.OFFSET_TWO in *; lia).
    assert (H2 : 0 <= NorHandler.OFFSET_TWO)
      by (unfold NorHandler.OFFSET_TWO; lia).
    destruct (slice_one data _ (proj1 H1) (proj2 H1)) as (a & Ea & Sa).
    destruct (slice_one data _ H2 Hlen) as (b & Eb & Sb).
    unfold NorHandler.get_version, NorHandler.rewrap, try_except, bind.
    rewrite (read_string_in_bounds self data Hl) by tauto.
    rewrite (read_string_in_bounds self data Hl) by tauto.
    rewrite Sa, Sb, !flag_text_one, !flag_text_zero.
    unfold byte_at. rewrite (nth_error_nth _ _ _ Ea), (nth_error_nth _ _ _ Eb).
    unfold edition_of, ret.
    destruct (Byte.eqb a x31 && Byte.eqb b x31); [reflexivity|].
    destruct (Byte.eqb a x30 && Byte.eqb b x30); reflexivity.
  - unfold NorHandler.get_version, NorHandler.rewrap, try_except, bind.
    destruct (Z.le_gt_cases (NorHandler.OFFSET_ONE + 1) (len data)) as [Hin|Hout].
    + rewrite (read_string_in_bounds self data Hl)
        by (unfold NorHandler.OFFSET_ONE in *; lia).
      rewrite (read_string_out_of_bounds self data Hl) by (right; lia).
      eexists. reflexivity.
    + rewrite (read_string_out_of_bounds self data Hl) by (right; lia).
      eexists. reflexivity.
Qed.

Lemma get_version_by_flags_witness :
  NorHandler.loaded (NorHandler.mk (Some disc_data)) = Some disc_data
  /\ NorHandler.get_version (NorHandler.mk (Some disc_data))
     = (Ok "Disc Edition", NorHandler.mk (Some disc_data)).
Proof.
  assert (Hl : NorHandler.loaded (NorHandler.mk (Some disc_data)) = Some disc_data)
    by (apply loaded_mk; vm_compute; reflexivity).
  split; [exact Hl|].
  refine (eq_trans (proj1 (get_version_by_flags _ _ Hl) _) _).
  - vm_compute. discriminate.
  - apply (f_equal (fun edition => (Ok edition, NorHandler.mk (Some disc_data)))).
    vm_compute. reflexivity.
Defined.

(** The readers and writers of text fields reject an access that ends
    past the image, and leave the image as it was. *)
Lemma text_field_access_past_end_rejected (self : NorHandler.t) (data : list byte)
    (offset length : Z) (value : string) :
  NorHandler.loaded self = Some data ->
  len data < offset + length ->
  (exists cause,
     NorHandler._read_string offset length self
     = (Raise (NorError "Unexpected error reading string" (Some cause)), self))
  /\ (exists cause,
        NorHandler._write_string offset value length self
        = (Raise (NorError "Unexpected error writing string" (Some cause)), self)).
Proof.
  intros Hl Hout. split; eexists.
  - apply (read_string_out_of_bounds self data Hl). right. exact Hout.
  - apply (write_string_out_of_bounds self data Hl). right. exact Hout.
Qed.

(** The MAC getters read through a slice and check no bound: on a loaded
    image that ends at or before the MAC offset they return the empty
    text. *)
Lemma read_mac_past_end (self : NorHandler.t) (data : list byte)
    (message : string) (offset : Z) :
  NorHandler.loaded self = Some data ->
  len data <= offset ->
  NorHandler.read_mac message offset self = (Ok "", self).
Proof.
  intros Hl Hout.
  unfold NorHandler.read_mac, try_except, bind, get. rewrite Hl.
  rewrite slice_past_end; [reflexivity | assumption|].
  pose proof (len_nonneg data). unfold NorHandler.MAC_LENGTH. lia.
Qed.

(** C3: the code at the failing inputs.  On a loaded one-byte image both MAC
    getters return the empty text instead of raising, and on an image that
    ends two bytes after the wifi-MAC offset [get_wifi_mac] returns the two
    bytes it found, where the claim asks for an out-of-bounds error. *)
Theorem mac_getters_do_not_check_bounds :
  NorHandler.loaded (image 0 [x41]) = Some [x41]
  /\ NorHandler.get_wifi_mac (image 0 [x41]) = (Ok "", image 0 [x41])
  /\ NorHandler.get_lan_mac (image 0 [x41]) = (Ok "", image 0 [x41])
  /\ fst (NorHandler.get_wifi_mac (image NorHandler.WIFI_MAC_OFFSET [xaa; xbb]))
     = Ok "aa:bb".
Proof.
  split; [reflexivity|]. split; [vm_compute; reflexivity|].
  split; vm_compute; reflexivity.
Qed.

(** C5, as the claim states it, fails: a NUL at the start of the decoded
    value is removed as well, so the result differs from the value with only
    its trailing NULs removed. *)
Lemma read_string_strips_leading_nul :
  NorHandler.loaded (image 0 [x00; x41; x00]) = Some [x00; x41; x00]
  /\ fst (NorHandler._read_string 0 3 (image 0 [x00; x41; x00])) = Ok "A"
  /\ rstrip is_nul (decode_ascii_ignore (slice [x00; x41; x00] 0 3))
     = String zero "A"
  /\ fst (NorHandler._read_string 0 3 (image 0 [x00; x41; x00]))
     <> Ok (rstrip is_nul (decode_ascii_ignore (slice [x00; x41; x00] 0 3))).
Proof.
  repeat split; try (vm_compute; reflexivity).
  vm_compute. discriminate.
Qed.

(** C5, amended: an in-bounds read of a text field on a loaded image returns
    the ASCII decoding of the byte range (bytes above 0x7f ignored) with all
    the NULs at its start and all the NULs at its end removed; the NULs in
    between are kept.  The image is left unchanged. *)
Theorem read_string_strips_both_ends (self : NorHandler.t) (data : list byte)
    (offset length : Z) :
  NorHandler.loaded self = Some data ->
  0 <= offset -> offset + length <= len data ->
  exists r pre post,
    NorHandler._read_string offset length self = (Ok r, self)
    /\ decode_ascii_ignore (slice data offset (offset + length)) = pre ++ r ++ post
    /\ all_chars is_nul pre = true /\ all_chars is_nul post = true
    /\ starts_in is_nul r = false /\ ends_in is_nul r = false.
Proof.
  intros Hl H0 H1.
  destruct (strip_spec is_nul
              (decode_ascii_ignore (slice data offset (offset + length))))
    as (pre & post & E & Hpre & Hpost & Hs & He).
  exists (strip is_nul (decode_ascii_ignore (slice data offset (offset + length)))),
         pre, post.
  split; [apply (read_string_in_bounds self data Hl); assumption|].
  auto.
Qed.

Lemma read_string_strips_both_ends_witness :
  NorHandler.loaded (image 0 [x00; x41; x00; x42; x00; xff]) = Some [x00; x41; x00; x42; x00; xff]
  /\ 0 <= 0 /\ 0 + 6 <= len [x00; x41; x00; x42; x00; xff]
  /\ exists r pre post,
       NorHandler._read_string 0 6 (image 0 [x00; x41; x00; x42; x00; xff])
       = (Ok r, image 0 [x00; x41; x00; x42; x00; xff])
       /\ decode_ascii_ignore (slice [x00; x41; x00; x42; x00; xff] 0 (0 + 6))
          = pre ++ r ++ post
       /\ all_chars is_nul pre = true /\ all_chars is_nul post = true
       /\ starts_in is_nul r = false /\ ends_in is_nul r = false.
Proof.
  split; [reflexivity|]. split; [lia|]. split; [vm_compute; discriminate|].
  apply (read_string_strips_both_ends (image 0 [x00; x41; x00; x42; x00; xff])).
  - reflexivity.
  - lia.
  - vm_compute. discriminate.
Defined.

(** C6: on a loaded image, writing an ASCII value no longer than an in-bounds
    text field and reading the field back returns the value with the NULs at
    its two ends removed, which is the value itself when it holds no NUL (so
    in particular for a NUL-free value of exactly the field's length); the
    write succeeds and keeps the length of the image. *)
Theorem write_then_read_roundtrip (self : NorHandler.t) (data : list byte)
    (offset length : Z) (value : string) :
  NorHandler.loaded self = Some data ->
  0 <= offset -> offset + length <= len data ->
  is_ascii value = true -> str_len value <= length ->
  exists self' data',
    NorHandler._write_string offset value length self = (Ok true, self')
    /\ NorHandler.loaded self' = Some data' /\ len data' = len data
    /\ NorHandler._read_string offset length self' = (Ok (strip is_nul value), self')
    /\ (nul_free value = true ->
        NorHandler._read_string offset length self' = (Ok value, self')).
Proof.
  intros Hl H0 H1 Hascii Hlen.
  destruct (encode_ascii_total value Hascii) as [value_bytes Henc].
  destruct (decode_encode_ascii value value_bytes Henc) as [Hdec Hvb].
  pose proof (loaded_nonempty self data Hl) as Hpos.
  assert (Hlen0 : 0 <= length) by (unfold str_len in Hlen; lia).
  assert (Hpad : len (ljust value_bytes length x00) = offset + length - offset)
    by (rewrite len_ljust; lia).
  set (data' := slice_assign data offset (offset + length)
                  (ljust value_bytes length x00)).
  assert (Hlen' : len data' = len data)
    by (apply len_slice_assign; solve [lia | exact Hpad]).
  assert (Hl' : NorHandler.loaded (NorHandler.mk (Some data')) = Some data')
    by (apply loaded_mk; lia).
  assert (Hread : NorHandler._read_string offset length (NorHandler.mk (Some data'))
                  = (Ok (strip is_nul value), NorHandler.mk (Some data'))).
  { rewrite (read_string_in_bounds _ data' Hl') by lia.
    unfold data'. rewrite slice_of_slice_assign by solve [lia | exact Hpad].
    unfold ljust. rewrite decode_ascii_ignore_app, Hdec.
    rewrite strip_app_all by apply decode_padding. reflexivity. }
  exists (NorHandler.mk (Some data')), data'.
  split; [apply (write_string_in_bounds self data Hl); assumption || lia|].
  split; [exact Hl'|]. split; [exact Hlen'|]. split; [exact Hread|].
  intros Hfree. rewrite Hread, strip_nul_free by assumption. reflexivity.
Qed.

Lemma write_then_read_roundtrip_witness :
  NorHandler.loaded (image 2 [x41; x42; x43; x44; x45]) = Some [x00; x00; x41; x42; x43; x44; x45]
  /\ 0 <= 1 /\ 1 + 4 <= len [x00; x00; x41; x42; x43; x44; x45]
  /\ is_ascii "WXYZ" = true /\ str_len "WXYZ" <= 4
  /\ exists self' data',
       NorHandler._write_string 1 "WXYZ" 4 (image 2 [x41; x42; x43; x44; x45])
       = (Ok true, self')
       /\ NorHandler.loaded self' = Some data'
       /\ len data' = len [x00; x00; x41; x42; x43; x44; x45]
       /\ NorHandler._read_string 1 4 self' = (Ok (strip is_nul "WXYZ"), self')
       /\ (nul_free "WXYZ" = true ->
           NorHandler._read_string 1 4 self' = (Ok "WXYZ", self')).
Proof.
  split; [reflexivity|]. split; [lia|]. split; [vm_compute; discriminate|].
  split; [reflexivity|]. split; [vm_compute; discriminate|].
  apply (write_then_read_roundtrip (image 2 [x41; x42; x43; x44; x45])).
  - reflexivity.
  - lia.
  - vm_compute. discriminate.
  - reflexivity.
  - vm_compute. discriminate.
Defined.

(** C10: the five read accessors leave the handler, and with it the image
    buffer and its length, exactly as they found it, whether they return
    or raise. *)
Theorem read_accessors_leave_image_unchanged (self : NorHandler.t) :
  snd (NorHandler.get_serial_number self) = self
  /\ snd (NorHandler.get_motherboard_serial self) = self
  /\ snd (NorHandler.get_version self) = self
  /\ snd (NorHandler.get_wifi_mac self) = self
  /\ snd (NorHandler.get_lan_mac self) = self.
Proof.
  repeat split.
  - apply nor_rewrap_preserves, read_string_preserves.
  - apply nor_rewrap_preserves, read_string_preserves.
  - apply nor_rewrap_preserves.
    apply preserves_bind; [apply read_string_preserves | intros one].
    apply preserves_bind; [apply read_string_preserves | intros two].
    destruct (_ && _); [frame_step|].
    destruct (_ && _); frame_step.
  - apply read_mac_preserves.
  - apply read_mac_preserves.
Qed.

(* ===================================================================== *)
(** ** The cache as a dictionary *)
(* ===================================================================== *)

Lemma key_eqb_eq (a b : Dict.key) : Dict.key_eqb a b = true <-> a = b.
Proof.
  destruct a as [x|], b as [y|]; simpl; split; intros H;
    try discriminate; try reflexivity.
  - apply String.eqb_eq in H. congruence.
  - injection H as ->. apply String.eqb_refl.
Qed.

Lemma keys_set d k v k' :
  In k' (Dict.keys (Dict.set d k v)) <-> In k' (Dict.keys d) \/ k' = k.
Proof.
  unfold Dict.keys. induction d as [|[k0 v0] d IH]; simpl.
  - intuition congruence.
  - destruct (Dict.key_eqb k k0) eqn:E; simpl.
    + apply key_eqb_eq in E. subst k0. intuition congruence.
    + rewrite IH. intuition congruence.
Qed.

Lemma in_set d k v k' v' :
  In (k', v') (Dict.set d k v) -> In (k', v') d \/ (k', v') = (k, v).
Proof.
  induction d as [|[k0 v0] d IH]; simpl.
  - intuition congruence.
  - destruct (Dict.key_eqb k k0); simpl; intuition congruence.
Qed.

Lemma set_fresh d k v :
  ~ In k (Dict.keys d) -> Dict.set d k v = (d ++ [(k, v)])%list.
Proof.
  unfold Dict.keys. induction d as [|[k0 v0] d IH]; simpl; intros H.
  - reflexivity.
  - destruct (Dict.key_eqb k k0) eqn:E.
    + apply key_eqb_eq in E. subst. tauto.
    + rewrite IH by tauto. reflexivity.
Qed.

Lemma keys_fill entries d k :
  In k (Dict.keys (fill d entries)) <-> In k (Dict.keys d) \/ In k (map fst entries).
Proof.
  unfold fill. revert d. induction entries as [|[k0 v0] entries IH]; intros d; simpl.
  - tauto.
  - rewrite IH, keys_set. intuition congruence.
Qed.

Lemma in_fill entries d k v :
  In (k, v) (fill d entries) -> In (k, v) d \/ In (k, v) entries.
Proof.
  unfold fill. revert d. induction entries as [|[k0 v0] entries IH]; intros d; simpl.
  - tauto.
  - intros H. destruct (IH _ H) as [H'|H']; [|tauto].
    destruct (in_set _ _ _ _ _ H'); [tauto|]. right. left. congruence.
Qed.

Lemma fill_nodup entries d :
  NoDup (Dict.keys d ++ map fst entries) -> fill d entries = (d ++ entries)%list.
Proof.
  unfold fill. revert d. induction entries as [|[k0 v0] entries IH]; intros d; simpl.
  - intros _. symmetry. apply app_nil_r.
  - intros H.
    assert (Hfresh : ~ In k0 (Dict.keys d)).
    { intros Hin. apply NoDup_remove_2 in H. apply H.
      apply in_or_app. left. exact Hin. }
    rewrite set_fresh by exact Hfresh.
    rewrite IH.
    + rewrite <- app_assoc. reflexivity.
    + unfold Dict.keys in *. rewrite map_app. simpl.
      rewrite <- app_assoc. simpl.
      apply NoDup_Add with (a := k0) (l := (map fst d ++ map fst entries)%list).
      * apply Add_app.
      * split.
        -- apply NoDup_remove_1 in H. exact H.
        -- apply NoDup_remove_2 in H. exact H.
Qed.

(* ===================================================================== *)
(** ** The cache operations of the UART handler *)
(* ===================================================================== *)

(** [save_error_codes] never touches the cache; it rewrites the file with
    the document of the cache when the disk accepts the write. *)
Lemma save_error_codes_run (self : UartHandler.t) :
  UartHandler.save_error_codes self
  = if disk_ok (UartHandler.env self)
    then
      let root := UartHandler.document (UartHandler.error_codes_db self) in
      (Ok tt,
       UartHandler.set_env
         (mkWorld (Some (Xml.Wellformed root))
                  (disk_ok (UartHandler.env self)) (remote (UartHandler.env self))
                  (FileWrite (UartHandler.db_path self) root
                     :: trace (UartHandler.env self)))
         self)
    else (Raise (UartError ("Failed to write error codes database: " ++ UartHandler.db_path self)
                   (Some IOError)), self).
Proof.
  unfold UartHandler.save_error_codes, try_except, bind, get, put.
  destruct (disk_ok (UartHandler.env self)); reflexivity.
Qed.

(** The repopulation loop: when it runs to its end, the cache has been
    filled with the valid entries of the nodes and nothing else changed; in
    any case every key it holds afterwards was there before or is the
    unchanged code of a payload entry that passes validation. *)
Lemma download_nodes_ok nodes (self self' : UartHandler.t) :
  UartHandler.download_nodes nodes self = (Ok tt, self') ->
  self' = UartHandler.set_error_codes_db
            (fill (UartHandler.error_codes_db self)
               (filter (fun entry => valid_key (fst entry)) (entries_of nodes)))
            self.
Proof.
  revert self. induction nodes as [|node nodes IH]; intros self; simpl.
  - intros H. injection H as <-. destruct self; reflexivity.
  - unfold entries_of in *. simpl.
    destruct (Xml.find node "ErrorCode") as [code|];
      [destruct (Xml.find node "Description") as [desc|]|]; simpl; try apply IH.
    unfold bind, UartHandler.validate_error_code_opt.
    destruct (Xml.text code) as [c|] eqn:Ec; simpl; [|discriminate].
    destruct (UartHandler.validate_error_code c); simpl; [|apply IH].
    intros H. apply IH in H. rewrite H. reflexivity.
Qed.

Lemma download_nodes_keys nodes (self : UartHandler.t) k :
  In k (Dict.keys (UartHandler.error_codes_db (snd (UartHandler.download_nodes nodes self)))) ->
  In k (Dict.keys (UartHandler.error_codes_db self))
  \/ (valid_key k = true /\ In k (map fst (entries_of nodes))).
Proof.
  revert self. induction nodes as [|node nodes IH]; intros self; simpl.
  - tauto.
  - assert (Hrest : forall s,
               In k (Dict.keys (UartHandler.error_codes_db
                                  (snd (UartHandler.download_nodes nodes s)))) ->
               In k (Dict.keys (UartHandler.error_codes_db s))
               \/ (valid_key k = true
                   /\ In k (map fst (entries_of (node :: nodes))))).
    { intros s H. destruct (IH s H) as [?|[? ?]]; [tauto|].
      right. split; [assumption|].
      unfold entries_of in *. simpl. rewrite map_app. apply in_or_app. tauto. }
    destruct (Xml.find node "ErrorCode") as [code|] eqn:Ecode;
      [destruct (Xml.find node "Description") as [desc|] eqn:Edesc|];
      try apply Hrest.
    unfold bind, UartHandler.validate_error_code_opt.
    destruct (Xml.text code) as [c|] eqn:Ec; simpl; [|tauto].
    destruct (UartHandler.validate_error_code c) eqn:Ev; simpl; [|apply Hrest].
    intros H. destruct (Hrest _ H) as [H'|H']; [|tauto].
    simpl in H'. apply keys_set in H'. destruct H' as [? | ->]; [tauto|].
    right. split; [exact Ev|].
    unfold entries_of. simpl. rewrite Ecode, Edesc, Ec. simpl. tauto.
Qed.

Lemma requests_get_run url (self : UartHandler.t) :
  UartHandler.requests_get url self
  = match remote (UartHandler.env self) url with
    | TransportFailure =>
        (Raise RequestException,
         UartHandler.set_env (UartHandler.log (HttpGet url) (UartHandler.env self)) self)
    | Response status_code body =>
        (Ok (status_code, body),
         UartHandler.set_env (UartHandler.log (HttpGet url) (UartHandler.env self)) self)
    end.
Proof.
  unfold UartHandler.requests_get, bind, get, put.
  destruct (remote (UartHandler.env self) url); reflexivity.
Qed.

(** A successful download: the remote answered 200 with a well-formed
    [errorCodes] document, the cache is the empty cache filled with the valid
    entries of that document, and the file holds the document of the cache. *)
Lemma download_error_database_ok (self self' : UartHandler.t) :
  UartHandler.download_error_database self = (Ok true, self') ->
  exists root,
    remote (UartHandler.env self) "http://uartcodes.com/xml.php"
    = Response 200 (Xml.Wellformed root)
    /\ UartHandler.error_codes_db self' = fill [] (valid_entries root)
    /\ db_file (UartHandler.env self')
       = Some (Xml.Wellformed (UartHandler.document (UartHandler.error_codes_db self'))).
Proof.
  unfold UartHandler.download_error_database, try_except.
  unfold bind at 1. rewrite requests_get_run.
  destruct (remote (UartHandler.env self) "http://uartcodes.com/xml.php")
    as [|status_code body] eqn:Hremote; [discriminate|].
  destruct (Z.eqb_spec status_code 200) as [->|]; [|discriminate].
  destruct body as [|root]; [discriminate|].
  unfold bind at 1. unfold Xml.parse at 1, ret at 1.
  destruct (String.eqb (Xml.tag root) "errorCodes"); [|discriminate].
  unfold bind at 1, get at 1. unfold bind at 1, put at 1. unfold bind at 1.
  match goal with
  | |- context [UartHandler.download_nodes ?nodes ?s] =>
      destruct (UartHandler.download_nodes nodes s) as [[[]|e] s2] eqn:Hnodes
  end.
  2: destruct e; discriminate.
  apply download_nodes_ok in Hnodes.
  unfold bind at 1. rewrite save_error_codes_run.
  destruct (disk_ok (UartHandler.env s2)) eqn:Hdisk; [|discriminate].
  unfold ret. intros H. injection H as <-.
  exists root. split; [reflexivity|].
  subst s2. simpl. split; reflexivity.
Qed.

(** C8: after a successful [download_error_database] the cache holds the
    codes of the payload entries that pass validation and no other key,
    every pair it holds is such an entry (it is the list of these entries
    itself when their codes are distinct; a repeated code keeps its last
    description), the file holds the document of the cache, and a code of the
    old cache that is not among them is gone. *)
Theorem download_error_database_full_replace (self self' : UartHandler.t) :
  UartHandler.download_error_database self = (Ok true, self') ->
  exists root,
    remote (UartHandler.env self) "http://uartcodes.com/xml.php"
    = Response 200 (Xml.Wellformed root)
    /\ (forall k, In k (Dict.keys (UartHandler.error_codes_db self'))
                  <-> In k (map fst (valid_entries root)))
    /\ (forall k v, In (k, v) (UartHandler.error_codes_db self')
                    -> In (k, v) (valid_entries root))
    /\ (NoDup (map fst (valid_entries root))
        -> UartHandler.error_codes_db self' = valid_entries root)
    /\ db_file (UartHandler.env self')
       = Some (Xml.Wellformed (UartHandler.document (UartHandler.error_codes_db self')))
    /\ (forall k, In k (Dict.keys (UartHandler.error_codes_db self))
                  -> ~ In k (map fst (valid_entries root))
                  -> ~ In k (Dict.keys (UartHandler.error_codes_db self'))).
Proof.
  intros H. destruct (download_error_database_ok _ _ H) as (root & Hremote & Hdb & Hfile).
  exists root. split; [exact Hremote|].
  assert (Hkeys : forall k, In k (Dict.keys (UartHandler.error_codes_db self'))
                            <-> In k (map fst (valid_entries root))).
  { intros k. rewrite Hdb, keys_fill. simpl. tauto. }
  split; [exact Hkeys|]. split.
  { intros k v Hin. rewrite Hdb in Hin.
    destruct (in_fill _ _ _ _ Hin) as [[]|]; assumption. }
  split.
  { intros Hnodup. rewrite Hdb. apply fill_nodup. exact Hnodup. }
  split; [exact Hfile|].
  intros k _ Hnot Hin. apply Hnot, Hkeys, Hin.
Qed.

Lemma download_error_database_full_replace_witness :
  UartHandler.download_error_database stale_handler
  = (Ok true, snd (UartHandler.download_error_database stale_handler))
  /\ UartHandler.error_codes_db (snd (UartHandler.download_error_database stale_handler))
     = [(Some "DEADBEEF", Some "x"); (Some "CAFEF00D", Some "z")]
  /\ exists root,
       remote (UartHandler.env stale_handler) "http://uartcodes.com/xml.php"
       = Response 200 (Xml.Wellformed root)
       /\ (forall k,
             In k (Dict.keys (UartHandler.error_codes_db
                                (snd (UartHandler.download_error_database stale_handler))))
             <-> In k (map fst (valid_entries root)))
       /\ (forall k v,
             In (k, v) (UartHandler.error_codes_db
                          (snd (UartHandler.download_error_database stale_handler)))
             -> In (k, v) (valid_entries root))
       /\ (NoDup (map fst (valid_entries root))
           -> UartHandler.error_codes_db
                (snd (UartHandler.download_error_database stale_handler))
              = valid_entries root)
       /\ db_file (UartHandler.env (snd (UartHandler.download_error_database stale_handler)))
          = Some (Xml.Wellformed
                    (UartHandler.document
                       (UartHandler.error_codes_db
                          (snd (UartHandler.download_error_database stale_handler)))))
       /\ (forall k,
             In k (Dict.keys (UartHandler.error_codes_db stale_handler))
             -> ~ In k (map fst (valid_entries root))
             -> ~ In k (Dict.keys (UartHandler.error_codes_db
                                     (snd (UartHandler.download_error_database stale_handler))))).
Proof.
  split; [vm_compute; reflexivity|]. split; [vm_compute; reflexivity|].
  apply (download_error_database_full_replace stale_handler).
  vm_compute. reflexivity.
Defined.

(* ===================================================================== *)
(** ** Validation of error codes and the keys of the cache *)
(* ===================================================================== *)

Lemma upper_hex_digit c :
  is_hex_digit c = true -> UartHandler.is_hex_upper (upper_char c) = true.
Proof.
  destruct c as [[] [] [] [] [] [] [] []]; vm_compute; intros H;
    first [reflexivity | discriminate H].
Qed.

Lemma match_hex_upper n s :
  String.length s = n -> all_chars is_hex_digit s = true ->
  UartHandler.match_hex n (upper s) = true.
Proof.
  revert n. induction s as [|c s IH]; intros n Hn Hs; subst n; simpl in *.
  - reflexivity.
  - apply andb_true_iff in Hs. destruct Hs as [Hc Hs].
    rewrite (upper_hex_digit c Hc), (IH _ eq_refl Hs). reflexivity.
Qed.

Lemma lookup_nodes_keys code nodes (self : UartHandler.t) k :
  In k (Dict.keys (UartHandler.error_codes_db
                     (snd (UartHandler.lookup_nodes code nodes self)))) ->
  In k (Dict.keys (UartHandler.error_codes_db self)) \/ k = Some code.
Proof.
  revert self. induction nodes as [|node nodes IH]; intros self; simpl.
  - tauto.
  - destruct (Xml.find node "ErrorCode") as [c|];
      [destruct (Xml.find node "Description") as [d|]|]; try apply IH.
    destruct (Dict.key_eqb (Xml.text c) (Some code)); [|apply IH].
    unfold bind, get, put. rewrite save_error_codes_run. simpl.
    destruct (disk_ok (UartHandler.env self)); simpl; rewrite keys_set; tauto.
Qed.

(** The write-back of [get_error_description] stores the queried code as it
    was given, and only a code that passed validation. *)
Lemma get_error_description_keys code (self : UartHandler.t) k :
  In k (Dict.keys (UartHandler.error_codes_db
                     (snd (UartHandler.get_error_description code self)))) ->
  In k (Dict.keys (UartHandler.error_codes_db self))
  \/ (k = Some code /\ UartHandler.validate_error_code code = true).
Proof.
  unfold UartHandler.get_error_description.
  destruct (UartHandler.validate_error_code code) eqn:Hvalid; simpl; [|tauto].
  unfold bind at 1, get at 1.
  destruct (Dict.get (UartHandler.error_codes_db self) (Some code)); simpl; [tauto|].
  unfold bind at 1, try_except. unfold bind at 1. rewrite requests_get_run.
  destruct (remote (UartHandler.env self) _) as [|status_code body]; simpl; [tauto|].
  destruct (status_code =? 200); simpl; [|tauto].
  destruct body as [|root]; simpl; [tauto|].
  unfold bind at 1. simpl.
  destruct (String.eqb (Xml.tag root) "errorCodes"); simpl; [|tauto].
  match goal with
  | |- context [UartHandler.lookup_nodes code ?nodes ?s] =>
      pose proof (lookup_nodes_keys code nodes s k) as Hk;
      destruct (UartHandler.lookup_nodes code nodes s) as [[[d|]|e] s2]
  end; simpl in *.
  - intros H. destruct (Hk H); tauto.
  - intros H. destruct (Hk H); tauto.
  - destruct e; simpl; intros H; destruct (Hk H); tauto.
Qed.

(** The repopulation of [download_error_database] stores the codes of the
    payload as they were given, and only codes that passed validation. *)
Lemma download_error_database_keys (self : UartHandler.t) k :
  In k (Dict.keys (UartHandler.error_codes_db
                     (snd (UartHandler.download_error_database self)))) ->
  In k (Dict.keys (UartHandler.error_codes_db self))
  \/ (valid_key k = true
      /\ exists root,
           remote (UartHandler.env self) "http://uartcodes.com/xml.php"
           = Response 200 (Xml.Wellformed root)
           /\ In k (map fst (payload_entries root))).
Proof.
  unfold UartHandler.download_error_database, try_except.
  unfold bind at 1. rewrite requests_get_run.
  destruct (remote (UartHandler.env self) "http://uartcodes.com/xml.php")
    as [|status_code body] eqn:Hremote; simpl; [tauto|].
  destruct (Z.eqb_spec status_code 200) as [->|]; simpl; [|tauto].
  destruct body as [|root]; simpl; [tauto|].
  unfold bind at 1. simpl.
  destruct (String.eqb (Xml.tag root) "errorCodes"); simpl; [|tauto].
  unfold bind at 1, get at 1. unfold bind at 1, put at 1. unfold bind at 1.
  match goal with
  | |- context [UartHandler.download_nodes ?nodes ?s] =>
      pose proof (download_nodes_keys nodes s k) as Hk;
      destruct (UartHandler.download_nodes nodes s) as [[[]|e] s2]
  end; simpl in Hk.
  - unfold bind at 1. rewrite save_error_codes_run.
    destruct (disk_ok (UartHandler.env s2)); simpl; intros H;
      (destruct (Hk H) as [[]|[Hv Hin]]; right; split; [exact Hv|];
       exists root; split; [reflexivity | exact Hin]).
  - destruct e; simpl; intros H;
      (destruct (Hk H) as [[]|[Hv Hin]]; right; split; [exact Hv|];
       exists root; split; [reflexivity | exact Hin]).
Qed.

(** C7, as the claim states it, fails: a code served in lower case passes
    validation and is written to the cache as it is, by the repopulation of
    [download_error_database] and by the write-back of
    [get_error_description] alike, so the key is not in upper case. *)
Lemma lowercase_key_stored_as_given :
  UartHandler.validate_error_code "deadbeef" = true
  /\ fst (UartHandler.download_error_database lower_handler) = Ok true
  /\ Dict.keys (UartHandler.error_codes_db
                  (snd (UartHandler.download_error_database lower_handler)))
     = [Some "deadbeef"]
  /\ fst (UartHandler.get_error_description "deadbeef" lower_handler) = Ok (Some "x")
  /\ Dict.keys (UartHandler.error_codes_db
                  (snd (UartHandler.get_error_description "deadbeef" lower_handler)))
     = [Some "deadbeef"]
  /\ "deadbeef" <> upper "deadbeef".
Proof.
  split; [vm_compute; reflexivity|]. split; [vm_compute; reflexivity|].
  split; [vm_compute; reflexivity|]. split; [vm_compute; reflexivity|].
  split; [vm_compute; reflexivity|].
  vm_compute. discriminate.
Qed.

(** C7, amended: validation is case-insensitive, every text of eight
    hexadecimal digits in any mix of case passes it; the write-back of
    [get_error_description] and the repopulation of
    [download_error_database] store a code as it was given, without case
    normalisation, and only after it passed validation, so every key these
    operations add to the cache passes validation. *)
Theorem cache_keys_stored_as_given (s code : string) (self : UartHandler.t)
    (k : Dict.key) :
  (String.length s = 8%nat -> all_chars is_hex_digit s = true ->
   UartHandler.validate_error_code s = true)
  /\ (In k (Dict.keys (UartHandler.error_codes_db
                         (snd (UartHandler.get_error_description code self)))) ->
      In k (Dict.keys (UartHandler.error_codes_db self))
      \/ (k = Some code /\ UartHandler.validate_error_code code = true))
  /\ (In k (Dict.keys (UartHandler.error_codes_db
                         (snd (UartHandler.download_error_database self)))) ->
      In k (Dict.keys (UartHandler.error_codes_db self))
      \/ (valid_key k = true
          /\ exists root,
               remote (UartHandler.env self) "http://uartcodes.com/xml.php"
               = Response 200 (Xml.Wellformed root)
               /\ In k (map fst (payload_entries root)))).
Proof.
  split; [|split].
  - intros Hlen Hhex. apply match_hex_upper; assumption.
  - apply get_error_description_keys.
  - apply download_error_database_keys.
Qed.

Lemma cache_keys_stored_as_given_witness :
  (String.length "DeadBeef" = 8%nat /\ all_chars is_hex_digit "DeadBeef" = true
   /\ UartHandler.validate_error_code "DeadBeef" = true)
  /\ (In (Some "deadbeef")
         (Dict.keys (UartHandler.error_codes_db
                       (snd (UartHandler.get_error_description "deadbeef" lower_handler))))
      /\ (In (Some "deadbeef") (Dict.keys (UartHandler.error_codes_db lower_handler))
          \/ (Some "deadbeef" = Some "deadbeef"
              /\ UartHandler.validate_error_code "deadbeef" = true)))
  /\ (In (Some "deadbeef")
         (Dict.keys (UartHandler.error_codes_db
                       (snd (UartHandler.download_error_database lower_handler))))
      /\ (In (Some "deadbeef") (Dict.keys (UartHandler.error_codes_db lower_handler))
          \/ (valid_key (Some "deadbeef") = true
              /\ exists root,
                   remote (UartHandler.env lower_handler) "http://uartcodes.com/xml.php"
                   = Response 200 (Xml.Wellformed root)
                   /\ In (Some "deadbeef") (map fst (payload_entries root))))).
Proof.
  destruct (cache_keys_stored_as_given "DeadBeef" "deadbeef" lower_handler
              (Some "deadbeef")) as (Hvalid & Hlookup & Hdownload).
  assert (H1 : String.length "DeadBeef" = 8%nat) by reflexivity.
  assert (H2 : all_chars is_hex_digit "DeadBeef" = true) by (vm_compute; reflexivity).
  assert (H3 : In (Some "deadbeef")
                 (Dict.keys (UartHandler.error_codes_db
                    (snd (UartHandler.get_error_description "deadbeef" lower_handler)))))
    by (vm_compute; left; reflexivity).
  assert (H4 : In (Some "deadbeef")
                 (Dict.keys (UartHandler.error_codes_db
                    (snd (UartHandler.download_error_database lower_handler)))))
    by (vm_compute; left; reflexivity).
  split; [split; [exact H1 | split; [exact H2 | exact (Hvalid H1 H2)]]|].
  split; [split; [exact H3 | exact (Hlookup H3)]|].
  split; [exact H4 | exact (Hdownload H4)].
Defined.

(* ===================================================================== *)
(** ** The serial link and the error codes of the device *)
(* ===================================================================== *)

(** C9: on a link that is not connected [send_command] raises "Not connected
    to UART device" for every text, the empty text and a text with a line
    break included, and leaves the handler and the world, the trace of I/O
    with it, as they were. *)
Theorem send_command_not_connected (self : UartHandler.t) (text : string) :
  UartHandler.connection self = None ->
  UartHandler.send_command text self
  = (Raise (UartError "Not connected to UART device" None), self).
Proof.
  intros H. unfold UartHandler.send_command, bind, get. rewrite H. reflexivity.
Qed.

Lemma send_command_not_connected_witness :
  UartHandler.connection (offline_handler [] unreachable) = None
  /\ UartHandler.validate_command ("a" ++ nl ++ "b") = false
  /\ UartHandler.send_command ("a" ++ nl ++ "b") (offline_handler [] unreachable)
     = (Raise (UartError "Not connected to UART device" None),
        offline_handler [] unreachable).
Proof.
  split; [reflexivity|]. split; [reflexivity|].
  apply (send_command_not_connected (offline_handler [] unreachable)).
  reflexivity.
Defined.

Lemma joined_blocks_shape (msgs : list string) :
  Forall is_block msgs -> startswith (join (nl ++ nl) msgs) "ERROR:" = false.
Proof.
  intros H. destruct H as [|m ms [rest ->] _]; [reflexivity|].
  unfold join. destruct ms; reflexivity.
Qed.

Lemma handle_codes_blocks codes :
  forall acc (self self' : UartHandler.t) msgs,
    UartHandler.handle_codes codes acc self = (Ok msgs, self') ->
    Forall is_block acc -> Forall is_block msgs.
Proof.
  induction codes as [|code codes IH]; intros acc self self' msgs; simpl.
  - intros H Hacc. injection H as <- _. exact Hacc.
  - destruct (UartHandler.validate_error_code (strip is_space code)); [|apply IH].
    unfold bind at 1.
    destruct (UartHandler.get_error_description (strip is_space code) self)
      as [[desc|e] s1]; [|discriminate].
    intros H Hacc. apply (IH _ _ _ _ H).
    apply Forall_app. split; [exact Hacc|].
    constructor; [|constructor]. eexists. reflexivity.
Qed.

(** What [handle_error_response] returns never starts with "ERROR:". *)
Lemma handle_error_response_shape response (self self' : UartHandler.t) r :
  UartHandler.handle_error_response response self = (Ok r, self') ->
  startswith r "ERROR:" = false.
Proof.
  unfold UartHandler.handle_error_response, try_except.
  destruct (startswith response "ERROR:") eqn:Hprefix.
  - unfold bind.
    destruct (UartHandler.handle_codes _ [] self) as [[msgs|e] s1] eqn:Hcodes;
      [|discriminate].
    intros H. injection H as <- _.
    apply joined_blocks_shape.
    apply (handle_codes_blocks _ _ _ _ _ Hcodes). constructor.
  - intros H. injection H as <- _. exact Hprefix.
Qed.

Lemma send_command_shape command (self self' : UartHandler.t) r :
  UartHandler.send_command command self = (Ok r, self') ->
  startswith r "ERROR:" = false.
Proof.
  unfold UartHandler.send_command. unfold bind at 1, get at 1.
  destruct (UartHandler.connection self) as [conn|]; [|discriminate].
  destruct (UartHandler.validate_command command); simpl; [|discriminate].
  unfold try_except. unfold bind at 1.
  destruct (UartHandler.serial_write conn _ self) as [[[]|e] s1];
    [|destruct e; discriminate].
  unfold bind at 1.
  destruct (UartHandler.serial_readline conn s1) as [[line|e] s2];
    [|destruct e; discriminate].
  destruct (UartHandler.handle_error_response (strip is_space line) s2)
    as [[resp|e] s3] eqn:Hresp; [|destruct e; discriminate].
  intros H. injection H as <- _.
  apply (handle_error_response_shape _ _ _ _ Hresp).
Qed.

(** [get_error_codes] reads the response that [send_command] has already
    passed through [handle_error_response], so the branch that parses the
    codes is never taken: whatever the device sends, it raises or returns
    the empty list. *)
Lemma get_error_codes_never_lists (self : UartHandler.t) :
  fst (UartHandler.get_error_codes self) = Ok []
  \/ exists e, fst (UartHandler.get_error_codes self) = Raise e.
Proof.
  unfold UartHandler.get_error_codes, UartHandler.rewrap, try_except, bind, get.
  destruct (UartHandler.connection self) as [conn|]; [|right; eexists; reflexivity].
  destruct (UartHandler.send_command "get_error_codes" self)
    as [[resp|e] s1] eqn:Hsend.
  - rewrite (send_command_shape _ _ _ _ Hsend), andb_false_r. left. reflexivity.
  - right. destruct (is_UartError e); eexists; reflexivity.
Qed.

(** C1: the code at the failing input.  The link is connected, the command
    sent is "get_error_codes" with its checksum, and the device answers
    "ERROR:DEADBEEF,badcode,CAFEF00D"; the codes of that line that pass
    validation are DEADBEEF and CAFEF00D, yet [get_error_codes] returns the
    empty list. *)
Theorem get_error_codes_returns_no_codes :
  UartHandler.connection listening_handler
  = link ["ERROR:DEADBEEF,badcode,CAFEF00D" ++ nl]
  /\ fst (UartHandler.get_error_codes listening_handler) = Ok []
  /\ trace (UartHandler.env (snd (UartHandler.get_error_codes listening_handler)))
     = [SerialReadline; SerialWrite ("get_error_codes:36" ++ nl)]
  /\ UartHandler.parse_codes
       (split ","%char (drop 6 "ERROR:DEADBEEF,badcode,CAFEF00D"))
     = ["DEADBEEF"; "CAFEF00D"].
Proof.
  split; [reflexivity|]. split; [vm_compute; reflexivity|].
  split; vm_compute; reflexivity.
Qed.

(* ===================================================================== *)
(** ** Construction of the UART handler *)
(* ===================================================================== *)

(** When the database file exists the constructor returns a handler with an
    empty cache and performs no I/O: nothing is downloaded, and nothing is
    read from the file either. *)
Lemma init_with_existing_file module_dir (w : World) (src : Xml.Source) :
  db_file w = Some src ->
  UartHandler.__init__ module_dir w
  = (Ok true,
     UartHandler.mk None [] (module_dir ++ "/../resources/error_codes.xml") w).
Proof.
  intros H.
  unfold UartHandler.__init__, UartHandler.initialize_error_database,
    try_except, bind, get.
  simpl. rewrite H. reflexivity.
Qed.

(** C4: the code at the failing input.  The database file exists and holds
    the record (AABBCCDD, desc1); the constructor downloads nothing and leaves
    the world as it was, but the cache of the handler it returns is empty.
    [load_error_codes], which would put the record into the cache, is not
    called by the constructor. *)
Theorem init_leaves_cache_empty :
  UartHandler.__init__ "src" existing_world
  = (Ok true,
     UartHandler.mk None [] "src/../resources/error_codes.xml" existing_world)
  /\ UartHandler.error_codes_db
       (snd (UartHandler.load_error_codes
               (snd (UartHandler.__init__ "src" existing_world))))
     = [(Some "AABBCCDD", Some "desc1")].
Proof.
  split; vm_compute; reflexivity.
Qed.

(* ===================================================================== *)
(** ** Writes to the image: what they change and what they keep *)
(* ===================================================================== *)

Section SliceFrames.

Context {A : Type}.
Implicit Types (l v : list A) (lo hi a b : Z).

Lemma nth_error_slice_assign_outside l lo hi v (i : nat) :
  0 <= lo -> lo <= hi -> hi <= len l -> len v = hi - lo ->
  Z.of_nat i < lo \/ hi <= Z.of_nat i ->
  nth_error (slice_assign l lo hi v) i = nth_error l i.
Proof.
  intros H0 H1 H2 Hv Hi.
  rewrite slice_assign_in_range by assumption.
  assert (Hf : List.length (firstn (Z.to_nat lo) l) = Z.to_nat lo).
  { rewrite length_firstn. unfold len in H2. lia. }
  unfold len in *.
  destruct Hi as [Hi|Hi].
  - rewrite nth_error_app1 by lia.
    rewrite nth_error_firstn.
    destruct (Nat.ltb_spec i (Z.to_nat lo)); [reflexivity | lia].
  - rewrite nth_error_app2 by lia.
    rewrite nth_error_app2 by lia.
    rewrite nth_error_skipn. f_equal. lia.
Qed.

(** A slice that does not meet the range of a slice assignment of the same
    length reads what it read before. *)
Lemma slice_slice_assign_disjoint l lo hi v a b :
  0 <= lo -> lo <= hi -> hi <= len l -> len v = hi - lo ->
  0 <= a -> 0 <= b -> b <= lo \/ hi <= a ->
  slice (slice_assign l lo hi v) a b = slice l a b.
Proof.
  intros H0 H1 H2 Hv Ha Hb Hdis.
  unfold slice. rewrite len_slice_assign by assumption.
  unfold norm_index.
  destruct (Z.ltb_spec a 0); [lia|]. destruct (Z.ltb_spec b 0); [lia|].
  apply nth_error_ext. intros n.
  rewrite !nth_error_firstn, !nth_error_skipn.
  destruct (Nat.ltb_spec n (Z.to_nat (Z.min b (len l) - Z.min a (len l))));
    [|reflexivity].
  apply nth_error_slice_assign_outside; try assumption. lia.
Qed.

End SliceFrames.

Lemma encode_ascii_is_ascii s bs : encode_ascii s = Some bs -> is_ascii s = true.
Proof.
  unfold is_ascii. revert bs. induction s as [|c s IH]; simpl; intros bs H.
  - reflexivity.
  - destruct (ord c <? 128); [|discriminate]. simpl.
    destruct (encode_ascii s) as [bs'|]; [|discriminate].
    apply (IH bs'). reflexivity.
Qed.

(** What a successful [_write_string] has done. *)
Lemma write_string_ok_inv offset value length (self self' : NorHandler.t) (r : bool) :
  NorHandler._write_string offset value length self = (Ok r, self') ->
  exists data value_bytes,
    NorHandler.loaded self = Some data
    /\ 0 <= offset /\ offset + length <= len data
    /\ encode_ascii value = Some value_bytes /\ len value_bytes <= length
    /\ r = true
    /\ self' = NorHandler.mk
                 (Some (slice_assign data offset (offset + length)
                          (ljust value_bytes length x00))).
Proof.
  unfold NorHandler._write_string, try_except, bind, get, put, ret.
  destruct (NorHandler.loaded self) as [data|]; [|discriminate].
  rewrite !Z.gtb_ltb.
  destruct (Z.ltb_spec offset 0); [discriminate|].
  destruct (Z.ltb_spec (len data) (offset + length)); [discriminate|].
  simpl. destruct (encode_ascii value) as [value_bytes|]; [|discriminate].
  rewrite Z.gtb_ltb.
  destruct (Z.ltb_spec length (len value_bytes)); [discriminate|].
  intros Heq. injection Heq as <- <-.
  exists data, value_bytes. repeat split; auto.
Qed.

Lemma write_string_raise_inv offset value length (self self' : NorHandler.t) e :
  NorHandler._write_string offset value length self = (Raise e, self') ->
  self' = self.
Proof.
  unfold NorHandler._write_string, try_except, bind, get, put, ret, raise.
  destruct (NorHandler.loaded self) as [data|]; simpl; [|congruence].
  destruct (_ || _); simpl; [congruence|].
  destruct (encode_ascii value) as [value_bytes|]; simpl; [|congruence].
  destruct (_ >? _); simpl; [congruence | discriminate].
Qed.

Lemma write_string_raises_NorError offset value length (self self' : NorHandler.t) e :
  NorHandler._write_string offset value length self = (Raise e, self') ->
  is_NorError e = true /\ self' = self.
Proof.
  unfold NorHandler._write_string, try_except, bind, get, put, ret, raise.
  destruct (NorHandler.loaded self) as [data|]; simpl.
  2: intros H; injection H as <- <-; auto.
  destruct (_ || _); simpl.
  1: intros H; injection H as <- <-; auto.
  destruct (encode_ascii value) as [value_bytes|]; simpl.
  2: intros H; injection H as <- <-; auto.
  destruct (_ >? _); simpl; [|discriminate].
  intros H; injection H as <- <-; auto.
Qed.

(** X1: a successful [_write_string] keeps the length of the image and every
    byte outside the field it writes. *)
Theorem write_string_touches_only_the_field
    (self self' : NorHandler.t) (offset length : Z) (value : string) :
  NorHandler._write_string offset value length self = (Ok true, self') ->
  exists data data',
    NorHandler.loaded self = Some data
    /\ NorHandler.loaded self' = Some data'
    /\ len data' = len data
    /\ forall i : nat,
         Z.of_nat i < offset \/ offset + length <= Z.of_nat i ->
         nth_error data' i = nth_error data i.
Proof.
  intros H.
  destruct (write_string_ok_inv _ _ _ _ _ _ H)
    as (data & vb & Hl & H0 & H1 & Henc & Hlen & _ & ->).
  pose proof (loaded_nonempty _ _ Hl) as Hpos.
  pose proof (len_nonneg vb) as Hvb.
  assert (Hpad : len (ljust vb length x00) = offset + length - offset)
    by (rewrite len_ljust; lia).
  assert (Hlen' : len (slice_assign data offset (offset + length)
                         (ljust vb length x00)) = len data)
    by (apply len_slice_assign; solve [lia | exact Hpad]).
  eexists data, _. split; [exact Hl|].
  split; [apply loaded_mk; lia|]. split; [exact Hlen'|].
  intros i Hi. apply nth_error_slice_assign_outside; solve [lia | exact Hpad].
Qed.

Lemma write_string_touches_only_the_field_witness :
  NorHandler._write_string 1 "Z" 2 (image 0 [x41; x42; x43; x44])
  = (Ok true, image 0 [x41; x5a; x00; x44])
  /\ exists data data',
       NorHandler.loaded (image 0 [x41; x42; x43; x44]) = Some data
       /\ NorHandler.loaded (image 0 [x41; x5a; x00; x44]) = Some data'
       /\ len data' = len data
       /\ forall i : nat,
            Z.of_nat i < 1 \/ 1 + 2 <= Z.of_nat i ->
            nth_error data' i = nth_error data i.
Proof.
  split; [reflexivity|].
  apply (write_string_touches_only_the_field _ _ 1 2 "Z"). reflexivity.
Defined.

(** X2: a [_write_string] that raises has written nothing: the handler is as
    it was, whatever the reason of the failure (no image, a field outside the
    image, a non-ASCII value, a value longer than the field). *)
Theorem write_string_failure_keeps_image
    (self self' : NorHandler.t) (offset length : Z) (value : string) (e : Exc) :
  NorHandler._write_string offset value length self = (Raise e, self') ->
  self' = self.
Proof. apply write_string_raise_inv. Qed.

Lemma write_string_failure_keeps_image_witness :
  NorHandler._write_string 1 "TOOLONG" 2 (image 0 [x41; x42; x43; x44])
  = (Raise (NorError "Unexpected error writing string"
              (Some (NorError "String too long: 7 > 2" None))),
     image 0 [x41; x42; x43; x44])
  /\ image 0 [x41; x42; x43; x44] = image 0 [x41; x42; x43; x44].
Proof.
  split; [reflexivity|].
  apply (write_string_failure_keeps_image _ _ 1 2 "TOOLONG"
           (NorError "Unexpected error writing string"
              (Some (NorError "String too long: 7 > 2" None)))).
  reflexivity.
Defined.

Ltac nor_offsets :=
  unfold NorHandler.SERIAL_OFFSET, NorHandler.SERIAL_LENGTH,
    NorHandler.MOBO_SERIAL_OFFSET, NorHandler.OFFSET_ONE, NorHandler.OFFSET_TWO,
    NorHandler.WIFI_MAC_OFFSET, NorHandler.LAN_MAC_OFFSET, NorHandler.MAC_LENGTH,
    NorHandler.VARIANT_OFFSET in *.

(** Reading a text field right after a write to it. *)
Lemma read_after_write (data : list byte) offset length value value_bytes :
  0 < len data -> 0 <= offset -> offset + length <= len data ->
  encode_ascii value = Some value_bytes -> len value_bytes <= length ->
  NorHandler._read_string offset length
    (NorHandler.mk (Some (slice_assign data offset (offset + length)
                            (ljust value_bytes length x00))))
  = (Ok (strip is_nul value),
     NorHandler.mk (Some (slice_assign data offset (offset + length)
                            (ljust value_bytes length x00)))).
Proof.
  intros Hpos H0 H1 Henc Hlen.
  destruct (decode_encode_ascii value value_bytes Henc) as [Hdec Hvb].
  pose proof (len_nonneg value_bytes) as Hnn.
  assert (Hpad : len (ljust value_bytes length x00) = offset + length - offset)
    by (rewrite len_ljust; lia).
  assert (Hlen' : len (slice_assign data offset (offset + length)
                         (ljust value_bytes length x00)) = len data)
    by (apply len_slice_assign; solve [lia | exact Hpad]).
  assert (Hl' : NorHandler.loaded
                  (NorHandler.mk (Some (slice_assign data offset (offset + length)
                                          (ljust value_bytes length x00))))
                = Some (slice_assign data offset (offset + length)
                          (ljust value_bytes length x00)))
    by (apply loaded_mk; lia).
  rewrite (read_string_in_bounds _ _ Hl') by lia.
  rewrite slice_of_slice_assign by solve [lia | exact Hpad].
  unfold ljust. rewrite decode_ascii_ignore_app, Hdec.
  rewrite strip_app_all by apply decode_padding. reflexivity.
Qed.

(** Two loaded images of the same length that agree on a field give the
    same result when the field is read. *)
Lemma read_string_same (s1 s2 : NorHandler.t) (d1 d2 : list byte) offset length :
  NorHandler.loaded s1 = Some d1 -> NorHandler.loaded s2 = Some d2 ->
  len d1 = len d2 ->
  slice d1 offset (offset + length) = slice d2 offset (offset + length) ->
  fst (NorHandler._read_string offset length s1)
  = fst (NorHandler._read_string offset length s2).
Proof.
  intros H1 H2 Hlen Hslice.
  destruct (Z.lt_ge_cases offset 0) as [Hneg|Hnn].
  { rewrite (read_string_out_of_bounds s1 d1 H1) by (left; lia).
    rewrite (read_string_out_of_bounds s2 d2 H2) by (left; lia). reflexivity. }
  destruct (Z.lt_ge_cases (len d1) (offset + length)) as [Hout|Hin].
  - rewrite (read_string_out_of_bounds s1 d1 H1) by (right; lia).
    rewrite (read_string_out_of_bounds s2 d2 H2) by (right; lia). reflexivity.
  - rewrite (read_string_in_bounds s1 d1 H1) by lia.
    rewrite (read_string_in_bounds s2 d2 H2) by lia.
    simpl. rewrite Hslice. reflexivity.
Qed.

Lemma nor_rewrap_same {A : Type} message (m : M NorHandler.t A) (s1 s2 : NorHandler.t) :
  fst (m s1) = fst (m s2) ->
  fst (NorHandler.rewrap message m s1) = fst (NorHandler.rewrap message m s2).
Proof.
  unfold NorHandler.rewrap, try_except.
  destruct (m s1) as [[a1|e1] t1], (m s2) as [[a2|e2] t2]; simpl;
    intros H; try discriminate H; try (injection H as ->).
  - reflexivity.
  - destruct (is_NorError e2); reflexivity.
Qed.

Lemma read_mac_same (s1 s2 : NorHandler.t) (d1 d2 : list byte) message offset :
  NorHandler.loaded s1 = Some d1 -> NorHandler.loaded s2 = Some d2 ->
  slice d1 offset (offset + NorHandler.MAC_LENGTH)
  = slice d2 offset (offset + NorHandler.MAC_LENGTH) ->
  fst (NorHandler.read_mac message offset s1)
  = fst (NorHandler.read_mac message offset s2).
Proof.
  intros H1 H2 Hslice.
  unfold NorHandler.read_mac, try_except, bind, get. rewrite H1, H2.
  simpl. rewrite Hslice. reflexivity.
Qed.

(** [get_version] on a loaded image that holds both flags. *)
Lemma get_version_run (self : NorHandler.t) (data : list byte) :
  NorHandler.loaded self = Some data ->
  NorHandler.OFFSET_TWO + 1 <= len data ->
  NorHandler.get_version self
  = (Ok (edition_of (byte_at data NorHandler.OFFSET_ONE)
                    (byte_at data NorHandler.OFFSET_TWO)), self).
Proof.
  intros Hl Hlen.
  assert (H1 : 0 <= NorHandler.OFFSET_ONE /\ NorHandler.OFFSET_ONE + 1 <= len data)
    by (nor_offsets; lia).
  assert (H2 : 0 <= NorHandler.OFFSET_TWO) by (nor_offsets; lia).
  destruct (slice_one data _ (proj1 H1) (proj2 H1)) as (a & Ea & Sa).
  destruct (slice_one data _ H2 Hlen) as (b & Eb & Sb).
  unfold NorHandler.get_version, NorHandler.rewrap, try_except, bind.
  rewrite (read_string_in_bounds self data Hl) by tauto.
  rewrite (read_string_in_bounds self data Hl) by tauto.
  rewrite Sa, Sb, !flag_text_one, !flag_text_zero.
  unfold byte_at. rewrite (nth_error_nth _ _ _ Ea), (nth_error_nth _ _ _ Eb).
  unfold edition_of, ret.
  destruct (Byte.eqb a x31 && Byte.eqb b x31); [reflexivity|].
  destruct (Byte.eqb a x30 && Byte.eqb b x30); reflexivity.
Qed.

Lemma set_serial_number_run (self : NorHandler.t) (data : list byte)
    new_serial value_bytes :
  NorHandler.loaded self = Some data ->
  NorHandler.SERIAL_OFFSET + 16 <= len data ->
  str_len new_serial = 16 ->
  encode_ascii new_serial = Some value_bytes ->
  NorHandler.set_serial_number new_serial self
  = (Ok true,
     NorHandler.mk
       (Some (slice_assign data NorHandler.SERIAL_OFFSET
                (NorHandler.SERIAL_OFFSET + NorHandler.SERIAL_LENGTH)
                (ljust value_bytes NorHandler.SERIAL_LENGTH x00)))).
Proof.
  intros Hl Hlen H16 Henc.
  destruct (decode_encode_ascii _ _ Henc) as [_ Hvb].
  unfold NorHandler.set_serial_number, NorHandler.rewrap, try_except.
  replace (str_len new_serial =? NorHandler.SERIAL_LENGTH) with true
    by (symmetry; apply Z.eqb_eq; exact H16).
  cbn [negb].
  rewrite (write_string_in_bounds self data Hl _ _ _ value_bytes);
    solve [reflexivity | assumption | nor_offsets; lia].
Qed.

(** X3: [set_serial_number] succeeds exactly when the serial has 16
    characters, all of them ASCII, and a loaded image holds the whole serial
    field; every other call raises and leaves the image as it was. *)
Theorem set_serial_number_accepts_exactly (self : NorHandler.t) (new_serial : string) :
  (fst (NorHandler.set_serial_number new_serial self) = Ok true
   <-> str_len new_serial = 16 /\ is_ascii new_serial = true
       /\ exists data, NorHandler.loaded self = Some data
                       /\ NorHandler.SERIAL_OFFSET + 16 <= len data)
  /\ (fst (NorHandler.set_serial_number new_serial self) <> Ok true ->
      exists e, NorHandler.set_serial_number new_serial self
                = (Raise (NorError "Failed to set serial number" (Some e)), self)).
Proof.
  split; [split|].
  - unfold NorHandler.set_serial_number, NorHandler.rewrap, try_except.
    destruct (Z.eqb_spec (str_len new_serial) NorHandler.SERIAL_LENGTH) as [H16|];
      cbn [negb]; [|discriminate].
    destruct (NorHandler._write_string _ _ _ self) as [[r|e] s'] eqn:Hw;
      [|destruct (is_NorError e); discriminate].
    destruct (write_string_ok_inv _ _ _ _ _ _ Hw)
      as (data & vb & Hl & H0 & H1 & Henc & Hlen & _ & _).
    intros _. split; [exact H16|].
    split; [exact (encode_ascii_is_ascii _ _ Henc)|].
    exists data. split; [exact Hl | exact H1].
  - intros (H16 & Hascii & data & Hl & Hlen).
    destruct (encode_ascii_total _ Hascii) as [vb Henc].
    rewrite (set_serial_number_run self data _ vb); auto.
  - unfold NorHandler.set_serial_number, NorHandler.rewrap, try_except.
    destruct (Z.eqb_spec (str_len new_serial) NorHandler.SERIAL_LENGTH) as [H16|];
      cbn [negb].
    + destruct (NorHandler._write_string _ _ _ self) as [[r|e] s'] eqn:Hw.
      * destruct (write_string_ok_inv _ _ _ _ _ _ Hw)
          as (d & vb & _ & _ & _ & _ & _ & Hr & _).
        subst r. intros H. exfalso. apply H. reflexivity.
      * intros _. destruct (write_string_raises_NorError _ _ _ _ _ _ Hw) as [HN ->].
        rewrite HN. eexists. reflexivity.
    + intros _. eexists. reflexivity.
Qed.

(** Lengths of the sample images, without evaluating them. *)
Lemma len_repeat {A : Type} (x : A) (n : nat) : len (repeat x n) = Z.of_nat n.
Proof. unfold len. rewrite repeat_length. reflexivity. Qed.

Lemma len_serial_data : len serial_data = NorHandler.SERIAL_OFFSET + 16.
Proof.
  unfold serial_data. rewrite len_repeat. apply Z2Nat.id. nor_offsets. lia.
Qed.

Lemma len_one_flag_data : len one_flag_data = NorHandler.OFFSET_ONE + 1.
Proof.
  unfold one_flag_data. rewrite len_repeat. apply Z2Nat.id. nor_offsets. lia.
Qed.

Lemma len_disc_data : len disc_data = NorHandler.OFFSET_TWO + 1.
Proof.
  unfold disc_data. rewrite len_app, len_repeat, Z2Nat.id by (nor_offsets; lia).
  change (len (x31 :: repeat x00 31 ++ [x31])) with 33. nor_offsets. lia.
Qed.

Lemma len_valid_data : len valid_data = NorHandler.WIFI_MAC_OFFSET + 16.
Proof.
  unfold valid_data. rewrite len_app, len_disc_data, len_repeat.
  rewrite Z2Nat.id by (unfold UartHandler.WIFI_MAC_OFFSET, UartHandler.OFFSET_TWO; lia).
  unfold UartHandler.WIFI_MAC_OFFSET, UartHandler.OFFSET_TWO. nor_offsets. lia.
Qed.

Lemma loaded_of_len (data : list byte) n :
  len data = n -> 0 < n -> NorHandler.loaded (NorHandler.mk (Some data)) = Some data.
Proof. intros H Hn. apply loaded_mk. lia. Qed.

(** X4: after a successful [set_serial_number], [get_serial_number] returns
    the serial that was set, up to the NULs at its two ends; a serial without
    NUL is read back as it was written. *)
Theorem set_then_get_serial_number (self : NorHandler.t) (data : list byte)
    (new_serial : string) :
  NorHandler.loaded self = Some data ->
  NorHandler.SERIAL_OFFSET + 16 <= len data ->
  str_len new_serial = 16 -> is_ascii new_serial = true ->
  exists self',
    NorHandler.set_serial_number new_serial self = (Ok true, self')
    /\ NorHandler.get_serial_number self' = (Ok (strip is_nul new_serial), self')
    /\ (nul_free new_serial = true ->
        NorHandler.get_serial_number self' = (Ok new_serial, self')).
Proof.
  intros Hl Hlen H16 Hascii.
  destruct (encode_ascii_total _ Hascii) as [vb Henc].
  destruct (decode_encode_ascii _ _ Henc) as [_ Hvb].
  pose proof (loaded_nonempty _ _ Hl) as Hpos.
  eexists. split; [apply (set_serial_number_run self data _ vb); assumption|].
  assert (Hget : forall s,
             NorHandler._read_string NorHandler.SERIAL_OFFSET NorHandler.SERIAL_LENGTH s
             = (Ok (strip is_nul new_serial), s) ->
             NorHandler.get_serial_number s = (Ok (strip is_nul new_serial), s)).
  { intros s Hs. unfold NorHandler.get_serial_number, NorHandler.rewrap, try_except.
    rewrite Hs. reflexivity. }
  assert (Hread : NorHandler.get_serial_number
                    (NorHandler.mk
                       (Some (slice_assign data NorHandler.SERIAL_OFFSET
                                (NorHandler.SERIAL_OFFSET + NorHandler.SERIAL_LENGTH)
                                (ljust vb NorHandler.SERIAL_LENGTH x00))))
                  = (Ok (strip is_nul new_serial),
                     NorHandler.mk
                       (Some (slice_assign data NorHandler.SERIAL_OFFSET
                                (NorHandler.SERIAL_OFFSET + NorHandler.SERIAL_LENGTH)
                                (ljust vb NorHandler.SERIAL_LENGTH x00))))).
  { apply Hget. apply read_after_write; try assumption; nor_offsets; lia. }
  split; [exact Hread|].
  intros Hfree. rewrite Hread, strip_nul_free by assumption. reflexivity.
Qed.

Lemma set_then_get_serial_number_witness :
  NorHandler.loaded (NorHandler.mk (Some serial_data)) = Some serial_data
  /\ NorHandler.SERIAL_OFFSET + 16 <= len serial_data
  /\ str_len "F10A2B3C4D5E6F70" = 16 /\ is_ascii "F10A2B3C4D5E6F70" = true
  /\ exists self',
       NorHandler.set_serial_number "F10A2B3C4D5E6F70" (NorHandler.mk (Some serial_data))
       = (Ok true, self')
       /\ NorHandler.get_serial_number self'
          = (Ok (strip is_nul "F10A2B3C4D5E6F70"), self')
       /\ (nul_free "F10A2B3C4D5E6F70" = true ->
           NorHandler.get_serial_number self' = (Ok "F10A2B3C4D5E6F70", self')).
Proof.
  assert (Hl : NorHandler.loaded (NorHandler.mk (Some serial_data)) = Some serial_data)
    by (apply (loaded_of_len _ _ len_serial_data); reflexivity).
  assert (Hlen : NorHandler.SERIAL_OFFSET + 16 <= len serial_data)
    by (rewrite len_serial_data; apply Z.le_refl).
  split; [exact Hl|]. split; [exact Hlen|].
  split; [reflexivity|]. split; [reflexivity|].
  exact (set_then_get_serial_number
           _ serial_data "F10A2B3C4D5E6F70" Hl Hlen eq_refl eq_refl).
Defined.

(** X5: a successful [set_serial_number] changes no other field: the
    motherboard serial, the edition and the two MAC addresses read afterwards
    are what they were before. *)
Theorem set_serial_number_keeps_other_fields (self : NorHandler.t) (data : list byte)
    (new_serial : string) :
  NorHandler.loaded self = Some data ->
  NorHandler.SERIAL_OFFSET + 16 <= len data ->
  str_len new_serial = 16 -> is_ascii new_serial = true ->
  fst (NorHandler.get_motherboard_serial
         (snd (NorHandler.set_serial_number new_serial self)))
  = fst (NorHandler.get_motherboard_serial self)
  /\ fst (NorHandler.get_version (snd (NorHandler.set_serial_number new_serial self)))
     = fst (NorHandler.get_version self)
  /\ fst (NorHandler.get_wifi_mac (snd (NorHandler.set_serial_number new_serial self)))
     = fst (NorHandler.get_wifi_mac self)
  /\ fst (NorHandler.get_lan_mac (snd (NorHandler.set_serial_number new_serial self)))
     = fst (NorHandler.get_lan_mac self).
Proof.
  intros Hl Hlen H16 Hascii.
  destruct (encode_ascii_total _ Hascii) as [vb Henc].
  destruct (decode_encode_ascii _ _ Henc) as [_ Hvb].
  pose proof (loaded_nonempty _ _ Hl) as Hpos.
  rewrite (set_serial_number_run self data _ vb) by assumption. cbn [snd].
  set (data' := slice_assign data NorHandler.SERIAL_OFFSET
                  (NorHandler.SERIAL_OFFSET + NorHandler.SERIAL_LENGTH)
                  (ljust vb NorHandler.SERIAL_LENGTH x00)).
  assert (Hpad : len (ljust vb NorHandler.SERIAL_LENGTH x00)
                 = NorHandler.SERIAL_OFFSET + NorHandler.SERIAL_LENGTH
                   - NorHandler.SERIAL_OFFSET)
    by (rewrite len_ljust; nor_offsets; lia).
  assert (Hlen' : len data' = len data)
    by (apply len_slice_assign; solve [exact Hpad | nor_offsets; lia]).
  assert (Hl' : NorHandler.loaded (NorHandler.mk (Some data')) = Some data')
    by (apply loaded_mk; lia).
  assert (Hslice : forall a b, 0 <= a -> 0 <= b ->
             b <= NorHandler.SERIAL_OFFSET
             \/ NorHandler.SERIAL_OFFSET + NorHandler.SERIAL_LENGTH <= a ->
             slice data' a b = slice data a b).
  { intros a b Ha Hb Hdis. apply slice_slice_assign_disjoint;
      solve [assumption | exact Hpad | nor_offsets; lia]. }
  split; [|split; [|split]].
  - apply nor_rewrap_same.
    apply (read_string_same _ _ data' data); try assumption.
    apply Hslice; nor_offsets; lia.
  - rewrite (get_version_run _ data' Hl') by (nor_offsets; lia).
    rewrite (get_version_run _ data Hl) by (nor_offsets; lia).
    cbn [fst]. unfold byte_at.
    assert (Hnth : forall o, 0 <= o -> o + 1 <= NorHandler.SERIAL_OFFSET ->
               nth (Z.to_nat o) data' x00 = nth (Z.to_nat o) data x00).
    { intros o Ho Ho'.
      assert (E : nth_error data' (Z.to_nat o) = nth_error data (Z.to_nat o)).
      { apply nth_error_slice_assign_outside;
          solve [exact Hpad | nor_offsets; lia]. }
      destruct (nth_error data (Z.to_nat o)) as [x|] eqn:Ex.
      - rewrite (nth_error_nth _ _ _ E), (nth_error_nth _ _ _ Ex). reflexivity.
      - apply nth_error_None in E, Ex. rewrite !nth_overflow by assumption.
        reflexivity. }
    rewrite !Hnth by (nor_offsets; lia). reflexivity.
  - apply (read_mac_same _ _ data' data); try assumption.
    apply Hslice; nor_offsets; lia.
  - apply (read_mac_same _ _ data' data); try assumption.
    apply Hslice; nor_offsets; lia.
Qed.

Lemma set_serial_number_keeps_other_fields_witness :
  NorHandler.loaded (NorHandler.mk (Some serial_data)) = Some serial_data
  /\ NorHandler.SERIAL_OFFSET + 16 <= len serial_data
  /\ str_len "F10A2B3C4D5E6F70" = 16 /\ is_ascii "F10A2B3C4D5E6F70" = true
  /\ fst (NorHandler.get_motherboard_serial
            (snd (NorHandler.set_serial_number "F10A2B3C4D5E6F70"
                    (NorHandler.mk (Some serial_data)))))
     = fst (NorHandler.get_motherboard_serial (NorHandler.mk (Some serial_data))).
Proof.
  assert (Hl : NorHandler.loaded (NorHandler.mk (Some serial_data)) = Some serial_data)
    by (apply (loaded_of_len _ _ len_serial_data); reflexivity).
  assert (Hlen : NorHandler.SERIAL_OFFSET + 16 <= len serial_data)
    by (rewrite len_serial_data; apply Z.le_refl).
  split; [exact Hl|]. split; [exact Hlen|].
  split; [reflexivity|]. split; [reflexivity|].
  exact (proj1 (set_serial_number_keeps_other_fields
                  _ serial_data "F10A2B3C4D5E6F70" Hl Hlen eq_refl eq_refl)).
Defined.

Lemma nth_error_slice_assign_one (l : list byte) lo (x : byte) :
  0 <= lo -> lo + 1 <= len l ->
  nth_error (slice_assign l lo (lo + 1) [x]) (Z.to_nat lo) = Some x.
Proof.
  intros H0 H1. rewrite slice_assign_in_range by lia.
  assert (Hf : List.length (firstn (Z.to_nat lo) l) = Z.to_nat lo).
  { rewrite length_firstn. unfold len in H1. lia. }
  rewrite nth_error_app2 by lia. rewrite Hf, Nat.sub_diag. reflexivity.
Qed.

Lemma byte_at_nth_error (l : list byte) o (x : byte) :
  nth_error l (Z.to_nat o) = Some x -> byte_at l o = x.
Proof. intros H. unfold byte_at. apply nth_error_nth. exact H. Qed.

(** One flag written by [set_version]. *)
Lemma write_flag (self : NorHandler.t) (data : list byte) offset (is_disc : bool) :
  NorHandler.loaded self = Some data ->
  0 <= offset -> offset + 1 <= len data ->
  NorHandler._write_string offset (if is_disc then "1" else "0") 1 self
  = (Ok true,
     NorHandler.mk (Some (slice_assign data offset (offset + 1) [flag_byte is_disc]))).
Proof.
  intros Hl H0 H1.
  rewrite (write_string_in_bounds self data Hl _ _ _ [flag_byte is_disc]);
    try assumption.
  - reflexivity.
  - destruct is_disc; reflexivity.
  - unfold len. simpl. lia.
Qed.

(** X6: on a loaded image that holds both edition flags, [set_version]
    succeeds and [get_version] then names the edition that was set. *)
Theorem set_version_then_get_version (self : NorHandler.t) (data : list byte)
    (is_disc_edition : bool) :
  NorHandler.loaded self = Some data ->
  NorHandler.OFFSET_TWO + 1 <= len data ->
  exists self',
    NorHandler.set_version is_disc_edition self = (Ok true, self')
    /\ NorHandler.get_version self' = (Ok (edition_name is_disc_edition), self').
Proof.
  intros Hl Hlen.
  pose proof (loaded_nonempty _ _ Hl) as Hpos.
  set (f := flag_byte is_disc_edition).
  set (data1 := slice_assign data NorHandler.OFFSET_ONE (NorHandler.OFFSET_ONE + 1) [f]).
  set (data2 := slice_assign data1 NorHandler.OFFSET_TWO (NorHandler.OFFSET_TWO + 1) [f]).
  assert (Hone : len [f] = NorHandler.OFFSET_ONE + 1 - NorHandler.OFFSET_ONE)
    by (unfold len; simpl List.length; lia).
  assert (Htwo : len [f] = NorHandler.OFFSET_TWO + 1 - NorHandler.OFFSET_TWO)
    by (unfold len; simpl List.length; lia).
  assert (Hlen1 : len data1 = len data)
    by (apply len_slice_assign; solve [exact Hone | nor_offsets; lia]).
  assert (Hlen2 : len data2 = len data)
    by (unfold data2; rewrite len_slice_assign;
        solve [exact Htwo | exact Hlen1 | nor_offsets; lia]).
  assert (Hl1 : NorHandler.loaded (NorHandler.mk (Some data1)) = Some data1)
    by (apply loaded_mk; lia).
  assert (Hl2 : NorHandler.loaded (NorHandler.mk (Some data2)) = Some data2)
    by (apply loaded_mk; lia).
  exists (NorHandler.mk (Some data2)). split.
  - unfold NorHandler.set_version, NorHandler.rewrap, try_except, bind.
    rewrite (write_flag self data _ _ Hl) by (nor_offsets; lia).
    fold f. fold data1.
    rewrite (write_flag _ data1 _ _ Hl1) by (nor_offsets; lia).
    reflexivity.
  - rewrite (get_version_run _ data2 Hl2) by lia.
    assert (E2 : byte_at data2 NorHandler.OFFSET_TWO = f).
    { apply byte_at_nth_error. apply nth_error_slice_assign_one; nor_offsets; lia. }
    assert (E1 : byte_at data2 NorHandler.OFFSET_ONE = f).
    { apply byte_at_nth_error. unfold data2.
      rewrite nth_error_slice_assign_outside;
        try solve [exact Htwo | nor_offsets; lia].
      apply nth_error_slice_assign_one; nor_offsets; lia. }
    rewrite E1, E2. unfold f. destruct is_disc_edition; reflexivity.
Qed.

Lemma set_version_then_get_version_witness :
  NorHandler.loaded (NorHandler.mk (Some disc_data)) = Some disc_data
  /\ NorHandler.OFFSET_TWO + 1 <= len disc_data
  /\ exists self',
       NorHandler.set_version false (NorHandler.mk (Some disc_data)) = (Ok true, self')
       /\ NorHandler.get_version self' = (Ok (edition_name false), self').
Proof.
  assert (Hl : NorHandler.loaded (NorHandler.mk (Some disc_data)) = Some disc_data)
    by (apply (loaded_of_len _ _ len_disc_data); reflexivity).
  assert (Hlen : NorHandler.OFFSET_TWO + 1 <= len disc_data)
    by (rewrite len_disc_data; apply Z.le_refl).
  split; [exact Hl|]. split; [exact Hlen|].
  exact (set_version_then_get_version _ disc_data false Hl Hlen).
Defined.

(** X7: [set_version] is not atomic.  On a loaded image that holds the first
    edition flag but ends before the second, it raises "Failed to set
    version" after it has overwritten the first flag: the image keeps its
    length but now carries the new first flag. *)
Theorem set_version_failure_leaves_first_flag_written
    (self : NorHandler.t) (data : list byte) (is_disc_edition : bool) :
  NorHandler.loaded self = Some data ->
  NorHandler.OFFSET_ONE + 1 <= len data ->
  len data < NorHandler.OFFSET_TWO + 1 ->
  exists cause data',
    NorHandler.set_version is_disc_edition self
    = (Raise (NorError "Failed to set version" (Some cause)),
       NorHandler.mk (Some data'))
    /\ len data' = len data
    /\ byte_at data' NorHandler.OFFSET_ONE = flag_byte is_disc_edition.
Proof.
  intros Hl Hin Hout.
  pose proof (loaded_nonempty _ _ Hl) as Hpos.
  set (f := flag_byte is_disc_edition).
  set (data1 := slice_assign data NorHandler.OFFSET_ONE (NorHandler.OFFSET_ONE + 1) [f]).
  assert (Hone : len [f] = NorHandler.OFFSET_ONE + 1 - NorHandler.OFFSET_ONE)
    by (unfold len; simpl List.length; lia).
  assert (Hlen1 : len data1 = len data)
    by (apply len_slice_assign; solve [exact Hone | nor_offsets; lia]).
  assert (Hl1 : NorHandler.loaded (NorHandler.mk (Some data1)) = Some data1)
    by (apply loaded_mk; lia).
  eexists _, data1. split; [|split].
  - unfold NorHandler.set_version, NorHandler.rewrap, try_except, bind.
    rewrite (write_flag self data _ _ Hl) by (nor_offsets; lia).
    fold f. fold data1.
    rewrite (write_string_out_of_bounds _ data1 Hl1) by (right; lia).
    reflexivity.
  - exact Hlen1.
  - apply byte_at_nth_error. apply nth_error_slice_assign_one; nor_offsets; lia.
Qed.

Lemma set_version_failure_leaves_first_flag_written_witness :
  NorHandler.loaded (NorHandler.mk (Some one_flag_data)) = Some one_flag_data
  /\ NorHandler.OFFSET_ONE + 1 <= len one_flag_data
  /\ len one_flag_data < NorHandler.OFFSET_TWO + 1
  /\ exists cause data',
       NorHandler.set_version true (NorHandler.mk (Some one_flag_data))
       = (Raise (NorError "Failed to set version" (Some cause)),
          NorHandler.mk (Some data'))
       /\ len data' = len one_flag_data
       /\ byte_at data' NorHandler.OFFSET_ONE = flag_byte true.
Proof.
  assert (Hl : NorHandler.loaded (NorHandler.mk (Some one_flag_data))
               = Some one_flag_data)
    by (apply (loaded_of_len _ _ len_one_flag_data); reflexivity).
  assert (Hin : NorHandler.OFFSET_ONE + 1 <= len one_flag_data)
    by (rewrite len_one_flag_data; apply Z.le_refl).
  assert (Hout : len one_flag_data < NorHandler.OFFSET_TWO + 1)
    by (rewrite len_one_flag_data; reflexivity).
  split; [exact Hl|]. split; [exact Hin|]. split; [exact Hout|].
  exact (set_version_failure_leaves_first_flag_written _ one_flag_data true Hl Hin Hout).
Defined.

(** X8: without a loaded image (none was loaded, or the buffer is empty)
    every accessor raises [NorError] and leaves the handler as it was; none
    of them returns a default value. *)
Theorem accessors_need_a_loaded_image (self : NorHandler.t) :
  NorHandler.loaded self = None ->
  (forall message offset length,
     NorHandler.rewrap message (NorHandler._read_string offset length) self
     = (Raise (NorError message
                 (Some (NorError "Unexpected error reading string"
                          (Some (NorError "No NOR data loaded" None))))), self))
  /\ NorHandler.get_version self
     = (Raise (NorError "Failed to read version"
                 (Some (NorError "Unexpected error reading string"
                          (Some (NorError "No NOR data loaded" None))))), self)
  /\ NorHandler.get_wifi_mac self
     = (Raise (NorError "Failed to read WiFi MAC"
                 (Some (NorError "No NOR data loaded" None))), self)
  /\ NorHandler.get_lan_mac self
     = (Raise (NorError "Failed to read LAN MAC"
                 (Some (NorError "No NOR data loaded" None))), self)
  /\ (forall is_disc_edition,
        NorHandler.set_version is_disc_edition self
        = (Raise (NorError "Failed to set version"
                    (Some (NorError "Unexpected error writing string"
                             (Some (NorError "No NOR data loaded" None))))), self))
  /\ (forall new_serial,
        exists cause,
          NorHandler.set_serial_number new_serial self
          = (Raise (NorError "Failed to set serial number" (Some cause)), self)).
Proof.
  intros Hl.
  assert (Hread : forall offset length,
             NorHandler._read_string offset length self
             = (Raise (NorError "Unexpected error reading string"
                         (Some (NorError "No NOR data loaded" None))), self)).
  { intros. unfold NorHandler._read_string, try_except, bind, get.
    rewrite Hl. reflexivity. }
  assert (Hwrite : forall offset value length,
             NorHandler._write_string offset value length self
             = (Raise (NorError "Unexpected error writing string"
                         (Some (NorError "No NOR data loaded" None))), self)).
  { intros. unfold NorHandler._write_string, try_except, bind, get.
    rewrite Hl. reflexivity. }
  split.
  { intros. unfold NorHandler.rewrap, try_except. rewrite Hread. reflexivity. }
  split.
  { unfold NorHandler.get_version, NorHandler.rewrap, try_except, bind.
    rewrite Hread. reflexivity. }
  split.
  { unfold NorHandler.get_wifi_mac, NorHandler.read_mac, try_except, bind, get.
    rewrite Hl. reflexivity. }
  split.
  { unfold NorHandler.get_lan_mac, NorHandler.read_mac, try_except, bind, get.
    rewrite Hl. reflexivity. }
  split.
  { intros. unfold NorHandler.set_version, NorHandler.rewrap, try_except, bind.
    rewrite Hwrite. reflexivity. }
  intros new_serial.
  unfold NorHandler.set_serial_number, NorHandler.rewrap, try_except.
  destruct (negb _); [eexists; reflexivity|].
  rewrite Hwrite. eexists. reflexivity.
Qed.

Lemma accessors_need_a_loaded_image_witness :
  NorHandler.loaded (NorHandler.mk (Some [])) = None
  /\ NorHandler.get_serial_number (NorHandler.mk (Some []))
     = (Raise (NorError "Failed to read serial number"
                 (Some (NorError "Unexpected error reading string"
                          (Some (NorError "No NOR data loaded" None))))),
        NorHandler.mk (Some [])).
Proof.
  split; [reflexivity|].
  exact (proj1 (accessors_need_a_loaded_image (NorHandler.mk (Some [])) eq_refl)
           "Failed to read serial number" NorHandler.SERIAL_OFFSET
           NorHandler.SERIAL_LENGTH).
Defined.

Lemma string_length_app (s t : string) :
  String.length (s ++ t) = (String.length s + String.length t)%nat.
Proof. induction s as [|c s IH]; simpl; [reflexivity | rewrite IH; reflexivity]. Qed.

Lemma all_chars_append (p : ascii -> bool) (s t : string) :
  all_chars p (s ++ t) = all_chars p s && all_chars p t.
Proof.
  induction s as [|c s IH]; simpl; [reflexivity|].
  rewrite IH. apply andb_assoc.
Qed.

Lemma fmt_02x_mac_chars (b : byte) :
  all_chars is_mac_char (fmt_02x (Z.of_N (Byte.to_N b))) = true.
Proof. destruct b; reflexivity. Qed.

Lemma format_mac_cons (b b' : byte) (bs : list byte) :
  NorHandler.format_mac (b :: b' :: bs)
  = fmt_02x (Z.of_N (Byte.to_N b)) ++ ":" ++ NorHandler.format_mac (b' :: bs).
Proof. reflexivity. Qed.

Lemma format_mac_chars (bs : list byte) :
  all_chars is_mac_char (NorHandler.format_mac bs) = true.
Proof.
  induction bs as [|b bs IH]; [reflexivity|].
  destruct bs as [|b' bs]; [apply fmt_02x_mac_chars|].
  rewrite format_mac_cons, !all_chars_append, fmt_02x_mac_chars, IH. reflexivity.
Qed.

Lemma format_mac_length (b : byte) (bs : list byte) :
  String.length (NorHandler.format_mac (b :: bs)) = (2 + 3 * List.length bs)%nat.
Proof.
  revert b. induction bs as [|b' bs IH]; intros b; [reflexivity|].
  rewrite format_mac_cons, !string_length_app, IH.
  cbn [List.length]. unfold fmt_02x. simpl String.length. lia.
Qed.

Lemma len_slice_in_range {A : Type} (l : list A) lo hi :
  0 <= lo -> lo <= hi -> hi <= len l -> len (slice l lo hi) = hi - lo.
Proof.
  intros H0 H1 H2. rewrite slice_in_range by assumption.
  unfold len in *. rewrite length_firstn, length_skipn. lia.
Qed.

Lemma read_mac_run (self : NorHandler.t) (data : list byte) message offset :
  NorHandler.loaded self = Some data ->
  NorHandler.read_mac message offset self
  = (Ok (NorHandler.format_mac (slice data offset (offset + NorHandler.MAC_LENGTH))),
     self).
Proof.
  intros Hl. unfold NorHandler.read_mac, try_except, bind, get. rewrite Hl.
  reflexivity.
Qed.

Lemma mac_text_shape (data : list byte) offset :
  0 <= offset -> offset + 6 <= len data ->
  String.length (NorHandler.format_mac (slice data offset (offset + NorHandler.MAC_LENGTH)))
  = 17%nat
  /\ all_chars is_mac_char
       (NorHandler.format_mac (slice data offset (offset + NorHandler.MAC_LENGTH)))
     = true.
Proof.
  intros H0 H1. split; [|apply format_mac_chars].
  pose proof (len_slice_in_range data offset (offset + NorHandler.MAC_LENGTH)) as Hs.
  unfold NorHandler.MAC_LENGTH in *.
  specialize (Hs H0 ltac:(lia) H1).
  destruct (slice data offset (offset + 6)) as [|b bs].
  - unfold len in Hs. simpl in Hs. lia.
  - rewrite format_mac_length. unfold len in Hs. simpl List.length in Hs. lia.
Qed.

(** X9: on a loaded image that holds the wifi-MAC field (and so the lan-MAC
    field, which lies before it) the two MAC getters return a text of 17
    characters made of lower-case hexadecimal digits and colons, and leave
    the image as it was. *)
Theorem mac_getters_format (self : NorHandler.t) (data : list byte) :
  NorHandler.loaded self = Some data ->
  NorHandler.WIFI_MAC_OFFSET + 6 <= len data ->
  exists wifi_mac lan_mac,
    NorHandler.get_wifi_mac self = (Ok wifi_mac, self)
    /\ NorHandler.get_lan_mac self = (Ok lan_mac, self)
    /\ String.length wifi_mac = 17%nat /\ String.length lan_mac = 17%nat
    /\ all_chars is_mac_char wifi_mac = true
    /\ all_chars is_mac_char lan_mac = true.
Proof.
  intros Hl Hlen.
  destruct (mac_text_shape data NorHandler.WIFI_MAC_OFFSET) as [W1 W2];
    try (nor_offsets; lia).
  destruct (mac_text_shape data NorHandler.LAN_MAC_OFFSET) as [L1 L2];
    try (nor_offsets; lia).
  eexists _, _.
  split; [apply (read_mac_run self data _ _ Hl)|].
  split; [apply (read_mac_run self data _ _ Hl)|].
  auto.
Qed.

Lemma mac_getters_format_witness :
  NorHandler.loaded (NorHandler.mk (Some valid_data)) = Some valid_data
  /\ NorHandler.WIFI_MAC_OFFSET + 6 <= len valid_data
  /\ exists wifi_mac lan_mac,
       NorHandler.get_wifi_mac (NorHandler.mk (Some valid_data))
       = (Ok wifi_mac, NorHandler.mk (Some valid_data))
       /\ NorHandler.get_lan_mac (NorHandler.mk (Some valid_data))
          = (Ok lan_mac, NorHandler.mk (Some valid_data))
       /\ String.length wifi_mac = 17%nat /\ String.length lan_mac = 17%nat
       /\ all_chars is_mac_char wifi_mac = true
       /\ all_chars is_mac_char lan_mac = true.
Proof.
  assert (Hl : NorHandler.loaded (NorHandler.mk (Some valid_data)) = Some valid_data)
    by (apply (loaded_of_len _ _ len_valid_data); reflexivity).
  assert (Hlen : NorHandler.WIFI_MAC_OFFSET + 6 <= len valid_data)
    by (rewrite len_valid_data; discriminate).
  split; [exact Hl|]. split; [exact Hlen|].
  exact (mac_getters_format _ valid_data Hl Hlen).
Defined.

(* ===================================================================== *)
(** ** Loading and saving the image file *)
(* ===================================================================== *)

(** X10: saving a loaded image to a path that can be written succeeds, keeps
    the handler and every other file, and puts the bytes of the image at the
    path; loading that path afterwards, whatever the handler holds by then,
    succeeds and restores these bytes. *)
Theorem save_then_load_restores_image (s : NorHandler.Session) (data : list byte)
    (file_path : string) :
  NorHandler.loaded (NorHandler.handler s) = Some data ->
  NorHandler.write_protected (NorHandler.disk s) file_path = false ->
  exists s1,
    NorHandler.save_nor_file file_path s = (Ok true, s1)
    /\ NorHandler.handler s1 = NorHandler.handler s
    /\ NorHandler.files (NorHandler.disk s1) file_path = Some (NorHandler.Content data)
    /\ (forall p, p <> file_path ->
          NorHandler.files (NorHandler.disk s1) p
          = NorHandler.files (NorHandler.disk s) p)
    /\ forall h,
         NorHandler.load_nor_file file_path (NorHandler.mkSession h (NorHandler.disk s1))
         = (Ok true,
            NorHandler.mkSession (NorHandler.mk (Some data)) (NorHandler.disk s1)).
Proof.
  intros Hl Hw.
  pose proof (loaded_nonempty _ _ Hl) as Hpos.
  exists (NorHandler.mkSession (NorHandler.handler s)
            (NorHandler.write_file file_path data (NorHandler.disk s))).
  assert (Hfile : NorHandler.files
                    (NorHandler.write_file file_path data (NorHandler.disk s)) file_path
                  = Some (NorHandler.Content data)).
  { unfold NorHandler.write_file. simpl. rewrite String.eqb_refl. reflexivity. }
  split.
  { unfold NorHandler.save_nor_file, try_except, bind, get, put, ret.
    rewrite Hl, Hw. reflexivity. }
  split; [reflexivity|]. split; [exact Hfile|]. split.
  { intros p Hp. unfold NorHandler.write_file. simpl.
    apply String.eqb_neq in Hp. rewrite Hp. reflexivity. }
  intros h.
  unfold NorHandler.load_nor_file, try_except, bind, get, put, ret.
  cbn [NorHandler.disk NorHandler.handler]. rewrite Hfile.
  rewrite (loaded_mk data Hpos). reflexivity.
Qed.

Lemma save_then_load_restores_image_witness :
  NorHandler.loaded
    (NorHandler.handler
       (NorHandler.mkSession (image 0 [x41; x42])
          (one_file_disk "old.nor" (NorHandler.Content [x43]))))
  = Some [x41; x42]
  /\ NorHandler.write_protected
       (NorHandler.disk
          (NorHandler.mkSession (image 0 [x41; x42])
             (one_file_disk "old.nor" (NorHandler.Content [x43]))))
       "new.nor" = false
  /\ exists s1,
       NorHandler.save_nor_file "new.nor"
         (NorHandler.mkSession (image 0 [x41; x42])
            (one_file_disk "old.nor" (NorHandler.Content [x43])))
       = (Ok true, s1)
       /\ NorHandler.handler s1 = image 0 [x41; x42]
       /\ NorHandler.files (NorHandler.disk s1) "new.nor"
          = Some (NorHandler.Content [x41; x42])
       /\ (forall p, p <> "new.nor" ->
             NorHandler.files (NorHandler.disk s1) p
             = NorHandler.files (one_file_disk "old.nor" (NorHandler.Content [x43])) p)
       /\ forall h,
            NorHandler.load_nor_file "new.nor"
              (NorHandler.mkSession h (NorHandler.disk s1))
            = (Ok true,
               NorHandler.mkSession (NorHandler.mk (Some [x41; x42]))
                 (NorHandler.disk s1)).
Proof.
  split; [reflexivity|]. split; [reflexivity|].
  exact (save_then_load_restores_image
           (NorHandler.mkSession (image 0 [x41; x42])
              (one_file_disk "old.nor" (NorHandler.Content [x43])))
           [x41; x42] "new.nor" eq_refl eq_refl).
Defined.

(** X11: loading an empty file raises, but only after the buffer has been
    replaced: the image that was loaded before is gone and the handler is
    left without a loaded image. *)
Theorem load_empty_file_discards_image (s : NorHandler.Session) (file_path : string) :
  NorHandler.files (NorHandler.disk s) file_path = Some (NorHandler.Content []) ->
  NorHandler.load_nor_file file_path s
  = (Raise (NorError "Unexpected error loading NOR file"
              (Some (NorError "Loaded NOR file is empty" None))),
     NorHandler.mkSession (NorHandler.mk (Some [])) (NorHandler.disk s))
  /\ NorHandler.loaded (NorHandler.handler (snd (NorHandler.load_nor_file file_path s)))
     = None.
Proof.
  intros Hf.
  assert (E : NorHandler.load_nor_file file_path s
              = (Raise (NorError "Unexpected error loading NOR file"
                          (Some (NorError "Loaded NOR file is empty" None))),
                 NorHandler.mkSession (NorHandler.mk (Some [])) (NorHandler.disk s))).
  { unfold NorHandler.load_nor_file, try_except, bind, get, put.
    rewrite Hf. reflexivity. }
  split; [exact E|]. rewrite E. reflexivity.
Qed.

Lemma load_empty_file_discards_image_witness :
  NorHandler.files
    (NorHandler.disk
       (NorHandler.mkSession (image 0 [x41; x42])
          (one_file_disk "empty.nor" (NorHandler.Content []))))
    "empty.nor"
  = Some (NorHandler.Content [])
  /\ NorHandler.loaded (image 0 [x41; x42]) = Some [x41; x42]
  /\ NorHandler.loaded
       (NorHandler.handler
          (snd (NorHandler.load_nor_file "empty.nor"
                  (NorHandler.mkSession (image 0 [x41; x42])
                     (one_file_disk "empty.nor" (NorHandler.Content []))))))
     = None.
Proof.
  split; [reflexivity|]. split; [reflexivity|].
  exact (proj2 (load_empty_file_discards_image
                  (NorHandler.mkSession (image 0 [x41; x42])
                     (one_file_disk "empty.nor" (NorHandler.Content [])))
                  "empty.nor" eq_refl)).
Defined.



(* ===================================================================== *)
(** ** Checksum framing, hex strings and pattern search *)
(* ===================================================================== *)

Lemma contains_append (c : ascii) (s t : string) :
  contains c (s ++ t) = contains c s || contains c t.
Proof.
  induction s as [|d s IH]; simpl; [reflexivity|].
  rewrite IH. apply orb_assoc.
Qed.

Lemma hex_digit_upper_nat (k : nat) :
  (k < 16)%nat -> UartHandler.is_hex_upper (hex_digit_upper (Z.of_nat k)) = true.
Proof.
  intros Hk. do 16 (destruct k as [|k]; [reflexivity|]). lia.
Qed.

Lemma hex_digit_upper_ok n :
  0 <= n < 16 -> UartHandler.is_hex_upper (hex_digit_upper n) = true.
Proof.
  intros H. replace n with (Z.of_nat (Z.to_nat n)) by lia.
  apply hex_digit_upper_nat. lia.
Qed.

Lemma hex_upper_not_lf (c : ascii) :
  UartHandler.is_hex_upper c = true -> Ascii.eqb LF c = false.
Proof.
  destruct c as [[] [] [] [] [] [] [] []]; vm_compute; intros H;
    first [reflexivity | discriminate H].
Qed.

(** X13: the frame of a command is the command, a colon and two upper-case
    hexadecimal digits; when the command passed [validate_command] the frame
    holds no line feed, so the line feed appended on the wire is the only
    one. *)
Theorem checksum_frame_shape (command : string) :
  UartHandler.validate_command command = true ->
  exists h1 h2,
    UartHandler.calculate_checksum command
    = command ++ ":" ++ String h1 (String h2 EmptyString)
    /\ UartHandler.is_hex_upper h1 = true /\ UartHandler.is_hex_upper h2 = true
    /\ contains LF (UartHandler.calculate_checksum command) = false.
Proof.
  intros Hvalid.
  unfold UartHandler.validate_command in Hvalid.
  apply andb_true_iff in Hvalid. destruct Hvalid as [_ Hlf].
  apply negb_true_iff in Hlf.
  set (checksum := Z.land (UartHandler.sum_ord command) 0xFF).
  assert (Hrange : 0 <= checksum < 256).
  { unfold checksum. change 0xFF with (Z.ones 8).
    rewrite Z.land_ones by lia. apply Z.mod_pos_bound. reflexivity. }
  assert (H1 : UartHandler.is_hex_upper (hex_digit_upper (checksum / 16)) = true).
  { apply hex_digit_upper_ok. split.
    - apply Z.div_pos; lia.
    - apply Z.div_lt_upper_bound; lia. }
  assert (H2 : UartHandler.is_hex_upper (hex_digit_upper (checksum mod 16)) = true).
  { apply hex_digit_upper_ok. apply Z.mod_pos_bound. reflexivity. }
  exists (hex_digit_upper (checksum / 16)), (hex_digit_upper (checksum mod 16)).
  split; [reflexivity|]. split; [exact H1|]. split; [exact H2|].
  unfold UartHandler.calculate_checksum. fold checksum. unfold fmt_02X.
  rewrite !contains_append, Hlf. cbn [contains orb].
  rewrite (hex_upper_not_lf _ H1), (hex_upper_not_lf _ H2). reflexivity.
Qed.

Lemma checksum_frame_shape_witness :
  UartHandler.validate_command "get_error_codes" = true
  /\ exists h1 h2,
       UartHandler.calculate_checksum "get_error_codes"
       = "get_error_codes" ++ ":" ++ String h1 (String h2 EmptyString)
       /\ UartHandler.is_hex_upper h1 = true /\ UartHandler.is_hex_upper h2 = true
       /\ contains LF (UartHandler.calculate_checksum "get_error_codes") = false.
Proof.
  split; [reflexivity|].
  exact (checksum_frame_shape "get_error_codes" eq_refl).
Defined.

Lemma fromhex_fmt_02X (c : ascii) (rest : string) :
  fromhex (fmt_02X (ord c) ++ rest)
  = option_map (cons (byte_of_ascii c)) (fromhex rest).
Proof.
  destruct c as [[] [] [] [] [] [] [] []]; reflexivity.
Qed.

Lemma fromhex_string_to_hex_string (text : string) :
  fromhex (UartHandler.string_to_hex_string text)
  = Some (map byte_of_ascii (list_ascii_of_string text)).
Proof.
  induction text as [|c text IH]; [reflexivity|].
  cbn [UartHandler.string_to_hex_string list_ascii_of_string map].
  rewrite fromhex_fmt_02X, IH. reflexivity.
Qed.

Lemma str_len_string_to_hex_string (text : string) :
  str_len (UartHandler.string_to_hex_string text) = 2 * str_len text.
Proof.
  unfold str_len. induction text as [|c text IH]; [reflexivity|].
  cbn [UartHandler.string_to_hex_string].
  rewrite string_length_app. unfold fmt_02X at 1.
  cbn [String.length]. lia.
Qed.

Lemma decode_ascii_bytes_of (text : string) :
  decode_ascii (map byte_of_ascii (list_ascii_of_string text))
  = if is_ascii text then Some text else None.
Proof.
  unfold is_ascii. induction text as [|c text IH]; [reflexivity|].
  cbn [list_ascii_of_string map decode_ascii all_chars].
  rewrite to_N_byte_of_ascii, ascii_of_byte_of_ascii, IH.
  unfold ord.
  destruct (N.ltb_spec (N_of_ascii c) 128), (Z.ltb_spec (Z.of_N (N_of_ascii c)) 128);
    try lia; cbn [andb]; [|reflexivity].
  destruct (all_chars _ text); reflexivity.
Qed.



Lemma bytes_eqb_eq (a b : list byte) : bytes_eqb a b = true <-> a = b.
Proof.
  unfold bytes_eqb. destruct (list_eq_dec Byte.byte_eq_dec a b); split;
    congruence.
Qed.

Lemma in_range (n i : Z) : In i (range n) <-> 0 <= i < n.
Proof.
  unfold range. rewrite in_map_iff. split.
  - intros (k & <- & Hk). apply in_seq in Hk. lia.
  - intros Hi. exists (Z.to_nat i). split; [lia|]. apply in_seq. lia.
Qed.

(** X15: [find_pattern] yields exactly the positions at which the pattern
    occurs in the source: [i] is yielded if and only if the source is some
    [i] bytes, then the pattern, then the rest. *)
Theorem find_pattern_yields_the_occurrences (source pattern : list byte) (i : Z) :
  In i (UartHandler.find_pattern source pattern)
  <-> exists pre post, source = (pre ++ pattern ++ post)%list /\ len pre = i.
Proof.
  unfold UartHandler.find_pattern.
  rewrite filter_In, in_range, bytes_eqb_eq.
  pose proof (len_nonneg pattern) as Hp.
  split.
  - intros [Hi Hslice].
    rewrite slice_in_range in Hslice by lia.
    replace (i + len pattern - i) with (len pattern) in Hslice by lia.
    exists (firstn (Z.to_nat i) source),
           (skipn (Z.to_nat (len pattern)) (skipn (Z.to_nat i) source)).
    split.
    + rewrite <- Hslice at 1. rewrite firstn_skipn, firstn_skipn. reflexivity.
    + unfold len in *. rewrite length_firstn. lia.
  - intros (pre & post & -> & <-).
    pose proof (len_nonneg pre) as Hpre. pose proof (len_nonneg post) as Hpost.
    rewrite !len_app. split; [lia|].
    rewrite slice_in_range by (rewrite ?len_app; lia).
    replace (len pre + len pattern - len pre) with (len pattern) by lia.
    unfold len. rewrite !Nat2Z.id.
    rewrite skipn_app, Nat.sub_diag, skipn_all. simpl.
    rewrite firstn_app, Nat.sub_diag, firstn_all. simpl.
    apply app_nil_r.
Qed.

(* ===================================================================== *)
(** ** The NOR helpers of the UART handler *)
(* ===================================================================== *)

Ltac uart_offsets :=
  unfold UartHandler.SERIAL_OFFSET, UartHandler.MOBO_SERIAL_OFFSET,
    UartHandler.OFFSET_ONE, UartHandler.OFFSET_TWO, UartHandler.WIFI_MAC_OFFSET,
    UartHandler.LAN_MAC_OFFSET, UartHandler.VARIANT_OFFSET in *.

(** A valid image is at least as long as the farthest field plus 16. *)
Lemma validate_nor_file_len (nor_data : list byte) :
  UartHandler.validate_nor_file nor_data = true ->
  UartHandler.WIFI_MAC_OFFSET + 16 <= len nor_data.
Proof.
  unfold UartHandler.validate_nor_file.
  destruct (Z.ltb_spec (len nor_data)
              (Z.max UartHandler.OFFSET_ONE
                 (Z.max UartHandler.OFFSET_TWO
                    (Z.max UartHandler.WIFI_MAC_OFFSET
                       (Z.max UartHandler.LAN_MAC_OFFSET
                          (Z.max UartHandler.SERIAL_OFFSET
                             (Z.max UartHandler.VARIANT_OFFSET
                                UartHandler.MOBO_SERIAL_OFFSET))))) + 16))
    as [|Hge]; [discriminate|].
  intros _. uart_offsets. lia.
Qed.

(** Validity looks at the length and at the two 16-byte fields of the
    edition flags only. *)
Lemma validate_nor_file_same (d1 d2 : list byte) :
  len d1 = len d2 ->
  slice d1 UartHandler.OFFSET_ONE (UartHandler.OFFSET_ONE + 16)
  = slice d2 UartHandler.OFFSET_ONE (UartHandler.OFFSET_ONE + 16) ->
  slice d1 UartHandler.OFFSET_TWO (UartHandler.OFFSET_TWO + 16)
  = slice d2 UartHandler.OFFSET_TWO (UartHandler.OFFSET_TWO + 16) ->
  UartHandler.validate_nor_file d1 = UartHandler.validate_nor_file d2.
Proof.
  intros Hlen H1 H2. unfold UartHandler.validate_nor_file.
  rewrite Hlen, H1, H2. reflexivity.
Qed.

(** The sample image [valid_data] passes the validation. *)
Lemma valid_data_is_valid : UartHandler.validate_nor_file valid_data = true.
Proof. vm_compute. reflexivity. Qed.

(** X16: an image that passes [validate_nor_file] is long enough for every
    accessor of the NOR handler: once loaded, the serial numbers, the
    edition and the two MAC addresses are all read without error, and the
    MAC texts are complete. *)
Theorem valid_image_serves_every_accessor (nor_data : list byte) :
  UartHandler.validate_nor_file nor_data = true ->
  exists serial mobo wifi_mac lan_mac,
    NorHandler.get_serial_number (NorHandler.mk (Some nor_data))
    = (Ok serial, NorHandler.mk (Some nor_data))
    /\ NorHandler.get_motherboard_serial (NorHandler.mk (Some nor_data))
       = (Ok mobo, NorHandler.mk (Some nor_data))
    /\ NorHandler.get_version (NorHandler.mk (Some nor_data))
       = (Ok (edition_of (byte_at nor_data NorHandler.OFFSET_ONE)
                         (byte_at nor_data NorHandler.OFFSET_TWO)),
          NorHandler.mk (Some nor_data))
    /\ NorHandler.get_wifi_mac (NorHandler.mk (Some nor_data))
       = (Ok wifi_mac, NorHandler.mk (Some nor_data))
    /\ NorHandler.get_lan_mac (NorHandler.mk (Some nor_data))
       = (Ok lan_mac, NorHandler.mk (Some nor_data))
    /\ String.length wifi_mac = 17%nat /\ String.length lan_mac = 17%nat.
Proof.
  intros Hvalid. apply validate_nor_file_len in Hvalid.
  unfold UartHandler.WIFI_MAC_OFFSET in Hvalid.
  assert (Hl : NorHandler.loaded (NorHandler.mk (Some nor_data)) = Some nor_data)
    by (apply loaded_mk; lia).
  destruct (mac_text_shape nor_data NorHandler.WIFI_MAC_OFFSET) as [W1 _];
    try (nor_offsets; lia).
  destruct (mac_text_shape nor_data NorHandler.LAN_MAC_OFFSET) as [L1 _];
    try (nor_offsets; lia).
  eexists _, _, _, _.
  split.
  { unfold NorHandler.get_serial_number, NorHandler.rewrap, try_except.
    rewrite (read_string_in_bounds _ _ Hl) by (nor_offsets; lia). reflexivity. }
  split.
  { unfold NorHandler.get_motherboard_serial, NorHandler.rewrap, try_except.
    rewrite (read_string_in_bounds _ _ Hl) by (nor_offsets; lia). reflexivity. }
  split; [apply (get_version_run _ _ Hl); nor_offsets; lia|].
  split; [apply (read_mac_run _ _ _ _ Hl)|].
  split; [apply (read_mac_run _ _ _ _ Hl)|].
  split; assumption.
Qed.

Lemma valid_image_serves_every_accessor_witness :
  UartHandler.validate_nor_file valid_data = true
  /\ exists serial mobo wifi_mac lan_mac,
       NorHandler.get_serial_number (NorHandler.mk (Some valid_data))
       = (Ok serial, NorHandler.mk (Some valid_data))
       /\ NorHandler.get_motherboard_serial (NorHandler.mk (Some valid_data))
          = (Ok mobo, NorHandler.mk (Some valid_data))
       /\ NorHandler.get_version (NorHandler.mk (Some valid_data))
          = (Ok (edition_of (byte_at valid_data NorHandler.OFFSET_ONE)
                            (byte_at valid_data NorHandler.OFFSET_TWO)),
             NorHandler.mk (Some valid_data))
       /\ NorHandler.get_wifi_mac (NorHandler.mk (Some valid_data))
          = (Ok wifi_mac, NorHandler.mk (Some valid_data))
       /\ NorHandler.get_lan_mac (NorHandler.mk (Some valid_data))
          = (Ok lan_mac, NorHandler.mk (Some valid_data))
       /\ String.length wifi_mac = 17%nat /\ String.length lan_mac = 17%nat.
Proof.
  pose proof valid_data_is_valid as Hvalid.
  split; [exact Hvalid|].
  exact (valid_image_serves_every_accessor valid_data Hvalid).
Defined.

(** X17: on a valid image [convert_to_digital_edition] returns an image of
    the same length that is still valid, that holds "DIGITAL" at the variant
    offset and equals the input everywhere else; in particular the two
    edition flags are untouched, so the NOR handler names the same edition
    for the converted image as for the input. *)
Theorem convert_to_digital_edition_effect (nor_data : list byte) :
  UartHandler.validate_nor_file nor_data = true ->
  exists converted,
    UartHandler.convert_to_digital_edition nor_data = Ok converted
    /\ len converted = len nor_data
    /\ UartHandler.validate_nor_file converted = true
    /\ slice converted UartHandler.VARIANT_OFFSET (UartHandler.VARIANT_OFFSET + 7)
       = UartHandler.DIGITAL
    /\ (forall i : nat,
          Z.of_nat i < UartHandler.VARIANT_OFFSET
          \/ UartHandler.VARIANT_OFFSET + 7 <= Z.of_nat i ->
          nth_error converted i = nth_error nor_data i)
    /\ fst (NorHandler.get_version (NorHandler.mk (Some converted)))
       = fst (NorHandler.get_version (NorHandler.mk (Some nor_data))).
Proof.
  intros Hvalid. pose proof (validate_nor_file_len _ Hvalid) as Hlen.
  unfold UartHandler.WIFI_MAC_OFFSET in Hlen.
  set (converted := slice_assign nor_data UartHandler.VARIANT_OFFSET
                      (UartHandler.VARIANT_OFFSET + len UartHandler.DIGITAL)
                      UartHandler.DIGITAL).
  assert (H7 : len UartHandler.DIGITAL = 7) by reflexivity.
  assert (Hd : len UartHandler.DIGITAL
               = UartHandler.VARIANT_OFFSET + len UartHandler.DIGITAL
                 - UartHandler.VARIANT_OFFSET) by lia.
  assert (Hlen' : len converted = len nor_data)
    by (apply len_slice_assign; solve [exact Hd | uart_offsets; lia]).
  assert (Hnth : forall i : nat,
             Z.of_nat i < UartHandler.VARIANT_OFFSET
             \/ UartHandler.VARIANT_OFFSET + 7 <= Z.of_nat i ->
             nth_error converted i = nth_error nor_data i).
  { intros i Hi. apply nth_error_slice_assign_outside;
      solve [exact Hd | uart_offsets; lia]. }
  assert (Hslice : forall a b, 0 <= a -> 0 <= b -> b <= UartHandler.VARIANT_OFFSET ->
             slice converted a b = slice nor_data a b).
  { intros a b Ha Hb Hab. apply slice_slice_assign_disjoint;
      solve [exact Hd | uart_offsets; lia]. }
  exists converted.
  split.
  { unfold UartHandler.convert_to_digital_edition. rewrite Hvalid. reflexivity. }
  split; [exact Hlen'|]. split.
  { rewrite <- Hvalid. apply validate_nor_file_same;
      [exact Hlen' | apply Hslice; uart_offsets; lia | apply Hslice; uart_offsets; lia]. }
  split.
  { unfold converted. rewrite H7.
    apply slice_of_slice_assign; solve [reflexivity | uart_offsets; lia]. }
  split; [exact Hnth|].
  assert (Hl : NorHandler.loaded (NorHandler.mk (Some nor_data)) = Some nor_data)
    by (apply loaded_mk; lia).
  assert (Hl' : NorHandler.loaded (NorHandler.mk (Some converted)) = Some converted)
    by (apply loaded_mk; lia).
  rewrite (get_version_run _ _ Hl) by (nor_offsets; lia).
  rewrite (get_version_run _ _ Hl') by (nor_offsets; lia).
  cbn [fst]. unfold byte_at.
  assert (Hat : forall o, 0 <= o -> o < UartHandler.VARIANT_OFFSET ->
             nth (Z.to_nat o) converted x00 = nth (Z.to_nat o) nor_data x00).
  { intros o Ho Ho'.
    assert (E : nth_error converted (Z.to_nat o) = nth_error nor_data (Z.to_nat o))
      by (apply Hnth; lia).
    destruct (nth_error nor_data (Z.to_nat o)) as [x|] eqn:Ex.
    - rewrite (nth_error_nth _ _ _ E), (nth_error_nth _ _ _ Ex). reflexivity.
    - apply nth_error_None in E, Ex. rewrite !nth_overflow by assumption.
      reflexivity. }
  rewrite !Hat by (nor_offsets; uart_offsets; lia). reflexivity.
Qed.

Lemma convert_to_digital_edition_effect_witness :
  UartHandler.validate_nor_file valid_data = true
  /\ exists converted,
       UartHandler.convert_to_digital_edition valid_data = Ok converted
       /\ len converted = len valid_data
       /\ UartHandler.validate_nor_file converted = true
       /\ slice converted UartHandler.VARIANT_OFFSET (UartHandler.VARIANT_OFFSET + 7)
          = UartHandler.DIGITAL
       /\ (forall i : nat,
             Z.of_nat i < UartHandler.VARIANT_OFFSET
             \/ UartHandler.VARIANT_OFFSET + 7 <= Z.of_nat i ->
             nth_error converted i = nth_error valid_data i)
       /\ fst (NorHandler.get_version (NorHandler.mk (Some converted)))
          = fst (NorHandler.get_version (NorHandler.mk (Some valid_data))).
Proof.
  pose proof valid_data_is_valid as Hvalid.
  split; [exact Hvalid|].
  exact (convert_to_digital_edition_effect valid_data Hvalid).
Defined.

Lemma decode_ascii_some (bs : list byte) (s : string) :
  decode_ascii bs = Some s -> decode_ascii_ignore bs = s.
Proof.
  revert s. induction bs as [|b bs IH]; simpl; intros s H.
  - injection H as <-. reflexivity.
  - destruct (Byte.to_N b <? 128)%N; [|discriminate].
    destruct (decode_ascii bs) as [s'|]; [|discriminate].
    injection H as <-. rewrite (IH s' eq_refl). reflexivity.
Qed.

(** X18: [detect_console_version] never answers "Console version not
    detected": whenever it returns, the image is valid and the answer names
    a non-empty version and a non-empty variant; on an invalid image it
    raises. *)
Theorem detect_console_version_outcomes (nor_data : list byte) :
  (forall r,
     UartHandler.detect_console_version nor_data = Ok r ->
     UartHandler.validate_nor_file nor_data = true
     /\ exists version variant,
          version <> "" /\ variant <> ""
          /\ r = "Console Version: " ++ version ++ nl ++ "Variant: " ++ variant)
  /\ UartHandler.detect_console_version nor_data <> Ok "Console version not detected"
  /\ (UartHandler.validate_nor_file nor_data = false ->
      UartHandler.detect_console_version nor_data
      = Raise (UartError "Failed to detect console version"
                 (Some (UartError "Invalid NOR file" None)))).
Proof.
  assert (Hok : forall r,
             UartHandler.detect_console_version nor_data = Ok r ->
             UartHandler.validate_nor_file nor_data = true
             /\ exists version variant,
                  version <> "" /\ variant <> ""
                  /\ r = "Console Version: " ++ version ++ nl ++ "Variant: " ++ variant).
  { intros r. unfold UartHandler.detect_console_version, UartHandler.guarded,
      UartHandler.decode_strip.
    destruct (UartHandler.validate_nor_file nor_data) eqn:Hvalid;
      cbn [negb]; [|discriminate].
    unfold UartHandler.validate_nor_file in Hvalid.
    destruct (len nor_data <? _); [discriminate|].
    destruct (decode_ascii (slice nor_data UartHandler.OFFSET_ONE _)) as [s1|] eqn:E1;
      [|discriminate].
    destruct (decode_ascii (slice nor_data UartHandler.OFFSET_TWO _)) as [s2|] eqn:E2;
      [|discriminate].
    rewrite (decode_ascii_some _ _ E1), (decode_ascii_some _ _ E2) in Hvalid.
    rewrite Hvalid. intros H. injection H as <-.
    apply andb_true_iff in Hvalid. destruct Hvalid as [N1 N2].
    apply negb_true_iff in N1, N2. apply String.eqb_neq in N1, N2.
    split; [reflexivity|]. eexists _, _. split; [exact N1|]. split; [exact N2|].
    reflexivity. }
  split; [exact Hok|]. split.
  - intros H. destruct (Hok _ H) as (_ & v1 & v2 & _ & _ & E).
    simpl in E. discriminate E.
  - intros Hinvalid. unfold UartHandler.detect_console_version.
    rewrite Hinvalid. reflexivity.
Qed.

Lemma detect_console_version_outcomes_witness :
  UartHandler.detect_console_version valid_data
  = Ok ("Console Version: 1" ++ nl ++ "Variant: 1")
  /\ UartHandler.validate_nor_file valid_data = true
  /\ exists version variant,
       version <> "" /\ variant <> ""
       /\ "Console Version: 1" ++ nl ++ "Variant: 1"
          = "Console Version: " ++ version ++ nl ++ "Variant: " ++ variant.
Proof.
  assert (H : UartHandler.detect_console_version valid_data
              = Ok ("Console Version: 1" ++ nl ++ "Variant: 1"))
    by (vm_compute; reflexivity).
  split; [exact H|].
  exact (proj1 (detect_console_version_outcomes valid_data) _ H).
Defined.

Lemma upper_append (s t : string) : upper (s ++ t) = upper s ++ upper t.
Proof. induction s as [|c s IH]; simpl; [reflexivity | rewrite IH; reflexivity]. Qed.

Lemma string_length_upper (s : string) : String.length (upper s) = String.length s.
Proof. induction s as [|c s IH]; simpl; [reflexivity | rewrite IH; reflexivity]. Qed.

Lemma pairs_upper_hex (bs : list byte) :
  pairs (upper (hex bs))
  = map (fun b => upper (fmt_02x (Z.of_N (Byte.to_N b)))) bs.
Proof.
  induction bs as [|b bs IH]; [reflexivity|].
  cbn [hex map]. unfold fmt_02x at 1 3.
  cbn [append upper pairs]. rewrite IH. reflexivity.
Qed.

Lemma join_cons (sep x y : string) (l : list string) :
  join sep (x :: y :: l) = x ++ sep ++ join sep (y :: l).
Proof. reflexivity. Qed.

Lemma append_assoc (a b c : string) : (a ++ b) ++ c = a ++ b ++ c.
Proof. induction a as [|x a IH]; simpl; [reflexivity | rewrite IH; reflexivity]. Qed.

Lemma join_app (sep x y : string) (l1 l2 : list string) :
  join sep ((x :: l1) ++ y :: l2) = join sep (x :: l1) ++ sep ++ join sep (y :: l2).
Proof.
  revert x. induction l1 as [|z l1 IH]; intros x.
  - reflexivity.
  - cbn [app]. rewrite !join_cons.
    change (z :: (l1 ++ y :: l2))%list with ((z :: l1) ++ y :: l2)%list.
    rewrite IH, !append_assoc. reflexivity.
Qed.

Lemma upper_format_mac (bs : list byte) :
  upper (NorHandler.format_mac bs)
  = join ":" (map (fun b => upper (fmt_02x (Z.of_N (Byte.to_N b)))) bs).
Proof.
  induction bs as [|b bs IH]; [reflexivity|].
  destruct bs as [|b' bs]; [reflexivity|].
  rewrite format_mac_cons, !upper_append, IH. reflexivity.
Qed.

(** The upper-case MAC text of the UART helper is the upper case of the
    NOR handler's text for the same bytes. *)
Lemma format_mac_upper_is_upper (bs : list byte) :
  UartHandler.format_mac_upper bs = upper (NorHandler.format_mac bs).
Proof.
  unfold UartHandler.format_mac_upper.
  rewrite pairs_upper_hex, upper_format_mac. reflexivity.
Qed.

Lemma firstn_plus {A : Type} (a b : nat) (l : list A) :
  firstn (a + b) l = (firstn a l ++ firstn b (skipn a l))%list.
Proof.
  revert l. induction a as [|a IH]; intros l; [reflexivity|].
  destruct l as [|x l]; simpl.
  - rewrite firstn_nil. reflexivity.
  - rewrite IH. reflexivity.
Qed.

Lemma slice_split {A : Type} (l : list A) lo mid hi :
  0 <= lo -> lo <= mid -> mid <= hi -> hi <= len l ->
  slice l lo hi = (slice l lo mid ++ slice l mid hi)%list.
Proof.
  intros H0 H1 H2 H3. rewrite !slice_in_range by lia.
  replace (Z.to_nat (hi - lo)) with (Z.to_nat (mid - lo) + Z.to_nat (hi - mid))%nat
    by lia.
  rewrite firstn_plus, skipn_skipn. do 3 f_equal. lia.
Qed.

Lemma format_mac_app (b b' : byte) (l1 l2 : list byte) :
  NorHandler.format_mac ((b :: l1) ++ b' :: l2)
  = NorHandler.format_mac (b :: l1) ++ ":" ++ NorHandler.format_mac (b' :: l2).
Proof.
  unfold NorHandler.format_mac. rewrite map_app. apply join_app.
Qed.

(** The text the UART helper prints for the 12 bytes at a MAC offset. *)
Lemma twelve_byte_text (data : list byte) offset :
  0 <= offset -> offset + 12 <= len data ->
  exists tail,
    UartHandler.format_mac_upper (slice data offset (offset + 12))
    = upper (NorHandler.format_mac (slice data offset (offset + NorHandler.MAC_LENGTH)))
      ++ ":" ++ tail
    /\ String.length tail = 17%nat.
Proof.
  intros H0 H1. unfold NorHandler.MAC_LENGTH.
  rewrite format_mac_upper_is_upper.
  rewrite (slice_split data offset (offset + 6) (offset + 12)) by lia.
  pose proof (len_slice_in_range data offset (offset + 6) H0 ltac:(lia) ltac:(lia)) as L1.
  pose proof (len_slice_in_range data (offset + 6) (offset + 12)
                ltac:(lia) ltac:(lia) H1) as L2.
  destruct (slice data offset (offset + 6)) as [|b l1];
    [unfold len in L1; simpl in L1; lia|].
  destruct (slice data (offset + 6) (offset + 12)) as [|b' l2];
    [unfold len in L2; simpl in L2; lia|].
  rewrite format_mac_app, !upper_append.
  eexists. split; [reflexivity|].
  rewrite string_length_upper, format_mac_length.
  unfold len in L2. simpl List.length in L2. lia.
Qed.

(** X19: on a valid image [get_mac_addresses] succeeds, and each address it
    reports is the text of the NOR handler's getter for that address, in
    upper case, followed by a colon and six more byte groups: it reads 12
    bytes where the address has 6. *)
Theorem get_mac_addresses_reads_twelve_bytes (nor_data : list byte) :
  UartHandler.validate_nor_file nor_data = true ->
  exists macs wifi_mac lan_mac wifi_tail lan_tail,
    UartHandler.get_mac_addresses nor_data = Ok macs
    /\ fst (NorHandler.get_wifi_mac (NorHandler.mk (Some nor_data))) = Ok wifi_mac
    /\ fst (NorHandler.get_lan_mac (NorHandler.mk (Some nor_data))) = Ok lan_mac
    /\ UartHandler.wifi macs = upper wifi_mac ++ ":" ++ wifi_tail
    /\ UartHandler.lan macs = upper lan_mac ++ ":" ++ lan_tail
    /\ String.length wifi_tail = 17%nat /\ String.length lan_tail = 17%nat.
Proof.
  intros Hvalid. pose proof (validate_nor_file_len _ Hvalid) as Hlen.
  unfold UartHandler.WIFI_MAC_OFFSET in Hlen.
  assert (Hl : NorHandler.loaded (NorHandler.mk (Some nor_data)) = Some nor_data)
    by (apply loaded_mk; lia).
  destruct (twelve_byte_text nor_data UartHandler.WIFI_MAC_OFFSET)
    as (wt & Ew & Lw); try (uart_offsets; lia).
  destruct (twelve_byte_text nor_data UartHandler.LAN_MAC_OFFSET)
    as (lt & El & Ll); try (uart_offsets; lia).
  eexists _, _, _, wt, lt.
  split.
  { unfold UartHandler.get_mac_addresses. rewrite Hvalid. reflexivity. }
  split; [unfold NorHandler.get_wifi_mac; rewrite (read_mac_run _ _ _ _ Hl); reflexivity|].
  split; [unfold NorHandler.get_lan_mac; rewrite (read_mac_run _ _ _ _ Hl); reflexivity|].
  cbn [UartHandler.wifi UartHandler.lan].
  split; [exact Ew|]. split; [exact El|]. split; assumption.
Qed.

Lemma get_mac_addresses_reads_twelve_bytes_witness :
  UartHandler.validate_nor_file valid_data = true
  /\ exists macs wifi_mac lan_mac wifi_tail lan_tail,
       UartHandler.get_mac_addresses valid_data = Ok macs
       /\ fst (NorHandler.get_wifi_mac (NorHandler.mk (Some valid_data))) = Ok wifi_mac
       /\ fst (NorHandler.get_lan_mac (NorHandler.mk (Some valid_data))) = Ok lan_mac
       /\ UartHandler.wifi macs = upper wifi_mac ++ ":" ++ wifi_tail
       /\ UartHandler.lan macs = upper lan_mac ++ ":" ++ lan_tail
       /\ String.length wifi_tail = 17%nat /\ String.length lan_tail = 17%nat.
Proof.
  pose proof valid_data_is_valid as Hvalid.
  split; [exact Hvalid|].
  exact (get_mac_addresses_reads_twelve_bytes valid_data Hvalid).
Defined.

(* ===================================================================== *)
(** ** Exchanges on the serial link *)
(* ===================================================================== *)

Section Exchange.

Variables (self : UartHandler.t) (conn : Serial) (command line : string)
          (rest : list RxEvent).
Hypothesis Hconn : UartHandler.connection self = Some conn.
Hypothesis Hvalid : UartHandler.validate_command command = true.
Hypothesis Hwrite : write_fails conn = false.
Hypothesis Hline : incoming conn = RxLine line :: rest.

(** One exchange: the frame is written, the line is read and stripped, and
    the result is what [handle_error_response] makes of it. *)
Lemma send_command_run :
  UartHandler.send_command command self
  = match UartHandler.handle_error_response (strip is_space line)
            (after_exchange self conn command rest) with
    | (Ok r, s) => (Ok r, s)
    | (Raise e, s) =>
        (match e with
         | SerialException => Raise (UartError "Failed to send UART command" (Some e))
         | _ => Raise (UartError "Unexpected error sending UART command" (Some e))
         end, s)
    end.
Proof.
  unfold UartHandler.send_command, try_except, UartHandler.serial_write,
    UartHandler.serial_readline, bind, get, put, ret.
  unfold after_exchange, UartHandler.set_connection, UartHandler.set_env.
  rewrite Hconn, Hvalid, Hwrite, Hline. cbn [negb].
  cbn [UartHandler.connection UartHandler.error_codes_db UartHandler.db_path
       UartHandler.env].
  destruct (UartHandler.handle_error_response _ _) as [[r|e] s]; [reflexivity|].
  destruct e; reflexivity.
Qed.

End Exchange.

(** What a returning [handle_error_response] has done: it passed the
    response through without touching the handler, or the response began
    with "ERROR:" and the result is a list of blocks joined by blank lines. *)
Lemma handle_error_response_ok_inv response (s s' : UartHandler.t) r :
  UartHandler.handle_error_response response s = (Ok r, s') ->
  (startswith response "ERROR:" = false /\ r = response /\ s' = s)
  \/ (startswith response "ERROR:" = true
      /\ exists msgs, Forall is_block msgs /\ r = join (nl ++ nl) msgs).
Proof.
  unfold UartHandler.handle_error_response, try_except.
  destruct (startswith response "ERROR:") eqn:Hprefix.
  - unfold bind.
    destruct (UartHandler.handle_codes _ [] s) as [[msgs|e] s1] eqn:Hcodes;
      [|discriminate].
    intros H. injection H as <- _. right. split; [reflexivity|].
    exists msgs. split; [|reflexivity].
    apply (handle_codes_blocks _ _ _ _ _ Hcodes). constructor.
  - intros H. injection H as <- <-. left. auto.
Qed.

Lemma joined_blocks_not_ok (msgs : list string) :
  Forall is_block msgs -> join (nl ++ nl) msgs <> "OK".
Proof.
  intros H. destruct H as [|m ms [tail ->] _]; [discriminate|].
  unfold join. destruct ms; discriminate.
Qed.

(** X20: on a connected link, a valid command whose answer does not begin
    with "ERROR:" returns the answer stripped of the white space around it;
    the exchange is one write of the frame and one read, and it touches
    neither the cache nor the database file. *)
Theorem send_command_returns_plain_answer
    (self : UartHandler.t) (conn : Serial) (command line : string)
    (rest : list RxEvent) :
  UartHandler.connection self = Some conn ->
  UartHandler.validate_command command = true ->
  write_fails conn = false ->
  incoming conn = RxLine line :: rest ->
  startswith (strip is_space line) "ERROR:" = false ->
  UartHandler.send_command command self
  = (Ok (strip is_space line), after_exchange self conn command rest)
  /\ trace (UartHandler.env (after_exchange self conn command rest))
     = SerialReadline
         :: SerialWrite (UartHandler.calculate_checksum command ++ nl)
         :: trace (UartHandler.env self)
  /\ UartHandler.error_codes_db (after_exchange self conn command rest)
     = UartHandler.error_codes_db self
  /\ db_file (UartHandler.env (after_exchange self conn command rest))
     = db_file (UartHandler.env self).
Proof.
  intros Hconn Hvalid Hwrite Hline Hplain.
  split; [|repeat split].
  rewrite (send_command_run self conn command line rest) by assumption.
  unfold UartHandler.handle_error_response, try_except.
  rewrite Hplain. reflexivity.
Qed.

Lemma send_command_returns_plain_answer_witness :
  UartHandler.connection
    (UartHandler.mk (link ["  OK " ++ nl]) [] "db.xml" (mkWorld None true unreachable []))
  = Some (mkSerial "COM3" 115200 false [RxLine ("  OK " ++ nl)])
  /\ UartHandler.validate_command "clear_error_codes" = true
  /\ startswith (strip is_space ("  OK " ++ nl)) "ERROR:" = false
  /\ fst (UartHandler.send_command "clear_error_codes"
            (UartHandler.mk (link ["  OK " ++ nl]) [] "db.xml"
               (mkWorld None true unreachable [])))
     = Ok "OK".
Proof.
  split; [reflexivity|]. split; [reflexivity|]. split; [reflexivity|].
  exact (f_equal fst
           (proj1 (send_command_returns_plain_answer
                     (UartHandler.mk (link ["  OK " ++ nl]) [] "db.xml"
                        (mkWorld None true unreachable []))
                     (mkSerial "COM3" 115200 false [RxLine ("  OK " ++ nl)])
                     "clear_error_codes" ("  OK " ++ nl) []
                     eq_refl eq_refl eq_refl eq_refl eq_refl))).
Defined.

(** X21: on a connected link whose device answers the command,
    [clear_error_codes] returns [True] exactly when the stripped answer is
    "OK"; an answer that begins with "ERROR:" never counts as success. *)
Theorem clear_error_codes_true_iff_ok
    (self : UartHandler.t) (conn : Serial) (line : string) (rest : list RxEvent) :
  UartHandler.connection self = Some conn ->
  write_fails conn = false ->
  incoming conn = RxLine line :: rest ->
  (fst (UartHandler.clear_error_codes self) = Ok true
   <-> strip is_space line = "OK").
Proof.
  intros Hconn Hwrite Hline.
  unfold UartHandler.clear_error_codes, UartHandler.rewrap, try_except, bind, get.
  rewrite Hconn.
  rewrite (send_command_run self conn "clear_error_codes" line rest)
    by (assumption || reflexivity).
  destruct (UartHandler.handle_error_response (strip is_space line) _)
    as [[r|e] s] eqn:Hresp.
  - destruct (handle_error_response_ok_inv _ _ _ _ Hresp)
      as [(Hplain & -> & _)|(Herr & msgs & Hblocks & ->)]; cbn [fst ret].
    + split.
      * intros H. injection H as H. apply String.eqb_eq. exact H.
      * intros ->. reflexivity.
    + pose proof (joined_blocks_not_ok msgs Hblocks) as Hne.
      split.
      * intros H. injection H as H. apply String.eqb_eq in H. contradiction.
      * intros E. rewrite E in Herr. discriminate Herr.
  - split.
    + destruct e; cbn; discriminate.
    + intros E. revert Hresp.
      unfold UartHandler.handle_error_response, try_except.
      rewrite E. discriminate.
Qed.

Lemma clear_error_codes_true_iff_ok_witness :
  UartHandler.connection
    (UartHandler.mk (link ["OK" ++ nl]) [] "db.xml" (mkWorld None true unreachable []))
  = Some (mkSerial "COM3" 115200 false [RxLine ("OK" ++ nl)])
  /\ strip is_space ("OK" ++ nl) = "OK"
  /\ fst (UartHandler.clear_error_codes
            (UartHandler.mk (link ["OK" ++ nl]) [] "db.xml"
               (mkWorld None true unreachable [])))
     = Ok true.
Proof.
  split; [reflexivity|]. split; [reflexivity|].
  exact (proj2 (clear_error_codes_true_iff_ok
                  (UartHandler.mk (link ["OK" ++ nl]) [] "db.xml"
                     (mkWorld None true unreachable []))
                  (mkSerial "COM3" 115200 false [RxLine ("OK" ++ nl)])
                  ("OK" ++ nl) [] eq_refl eq_refl eq_refl)
           eq_refl).
Defined.

(** X22: [send_custom_command] behaves as [send_command]: for every command
    and every state it leaves the same state behind and returns the same
    answer whenever either of them returns; the two differ only in the
    message of the error they raise on a serial failure. *)
Theorem send_custom_command_agrees (self : UartHandler.t) (command : string) :
  snd (UartHandler.send_custom_command command self)
  = snd (UartHandler.send_command command self)
  /\ forall r,
       fst (UartHandler.send_custom_command command self) = Ok r
       <-> fst (UartHandler.send_command command self) = Ok r.
Proof.
  unfold UartHandler.send_custom_command, UartHandler.send_command,
    try_except, bind, get.
  destruct (UartHandler.connection self) as [conn|]; [|split; [reflexivity|tauto]].
  destruct (negb (UartHandler.validate_command command));
    [split; [reflexivity|tauto]|].
  destruct (UartHandler.serial_write conn _ self) as [[[]|e] s1].
  2: split; [destruct e; reflexivity | intros r; destruct e; split; discriminate].
  destruct (UartHandler.serial_readline conn s1) as [[l|e] s2].
  2: split; [destruct e; reflexivity | intros r; destruct e; split; discriminate].
  destruct (UartHandler.handle_error_response _ s2) as [[r0|e] s3].
  - split; [reflexivity|tauto].
  - split; [destruct e; reflexivity | intros r; destruct e; split; discriminate].
Qed.

(* ===================================================================== *)
(** ** The link is never dropped by an exchange *)
(* ===================================================================== *)

Section KeepsLink.

Lemma keeps_link_ret {A : Type} (a : A) : keeps_link (ret a).
Proof. intros s. reflexivity. Qed.

Lemma keeps_link_raise {A : Type} (e : Exc) : keeps_link (A := A) (raise e).
Proof. intros s. reflexivity. Qed.

Lemma keeps_link_get : keeps_link get.
Proof. intros s. reflexivity. Qed.

Lemma keeps_link_bind {A B : Type} (m : M UartHandler.t A) (k : A -> M UartHandler.t B) :
  keeps_link m -> (forall a, keeps_link (k a)) -> keeps_link (bind m k).
Proof.
  intros Hm Hk s. unfold bind. specialize (Hm s).
  destruct (m s) as [[a|e] s']; cbn [snd] in *; [|exact Hm].
  rewrite Hk. exact Hm.
Qed.

Lemma keeps_link_try_except {A : Type} (body : M UartHandler.t A)
    (handler : Exc -> M UartHandler.t A) :
  keeps_link body -> (forall e, keeps_link (handler e)) ->
  keeps_link (try_except body handler).
Proof.
  intros Hb Hh s. unfold try_except. specialize (Hb s).
  destruct (body s) as [[a|e] s']; cbn [snd] in *; [exact Hb|].
  rewrite Hh. exact Hb.
Qed.

End KeepsLink.

Ltac link_step :=
  first [ apply keeps_link_try_except; [|intros ?]
        | apply keeps_link_bind; [|intros ?]
        | apply keeps_link_ret
        | apply keeps_link_raise
        | apply keeps_link_get ].

Lemma save_error_codes_keeps_link : keeps_link UartHandler.save_error_codes.
Proof.
  intros s. rewrite save_error_codes_run.
  destruct (disk_ok (UartHandler.env s)); reflexivity.
Qed.

Lemma requests_get_keeps_link url : keeps_link (UartHandler.requests_get url).
Proof.
  intros s. rewrite requests_get_run.
  destruct (remote (UartHandler.env s) url); reflexivity.
Qed.

Lemma lookup_nodes_keeps_link code nodes :
  keeps_link (UartHandler.lookup_nodes code nodes).
Proof.
  induction nodes as [|node nodes IH]; cbn [UartHandler.lookup_nodes].
  - link_step.
  - destruct (Xml.find node "ErrorCode") as [c|];
      [destruct (Xml.find node "Description") as [d|]|]; try exact IH.
    destruct (Dict.key_eqb (Xml.text c) (Some code)); [|exact IH].
    intros s. unfold bind, get, put. cbn [fst snd].
    rewrite save_error_codes_run. cbn [UartHandler.env UartHandler.set_error_codes_db].
    destruct (disk_ok (UartHandler.env s)); reflexivity.
Qed.

Lemma get_error_description_keeps_link code :
  keeps_link (UartHandler.get_error_description code).
Proof.
  unfold UartHandler.get_error_description.
  destruct (negb _); [link_step|].
  link_step; [link_step|].
  destruct (Dict.get _ _); [link_step|].
  link_step.
  - link_step.
    + link_step; [apply requests_get_keeps_link|].
      destruct a0 as [status_code body].
      destruct (status_code =? 200); [|link_step].
      link_step.
      * destruct body; [link_step | link_step].
      * destruct (String.eqb _ _); [apply lookup_nodes_keeps_link | link_step].
    + destruct e; link_step.
  - destruct a0; link_step.
Qed.

Lemma handle_codes_keeps_link codes :
  forall acc, keeps_link (UartHandler.handle_codes codes acc).
Proof.
  induction codes as [|code codes IH]; intros acc; cbn [UartHandler.handle_codes].
  - link_step.
  - destruct (UartHandler.validate_error_code _); [|apply IH].
    link_step; [apply get_error_description_keeps_link | apply IH].
Qed.

Lemma handle_error_response_keeps_link response :
  keeps_link (UartHandler.handle_error_response response).
Proof.
  unfold UartHandler.handle_error_response.
  link_step; [|link_step].
  destruct (startswith _ _); [|link_step].
  link_step; [apply handle_codes_keeps_link | link_step].
Qed.

Lemma send_command_keeps_link command : keeps_link (UartHandler.send_command command).
Proof.
  intros s. unfold UartHandler.send_command, try_except, bind, get.
  destruct (UartHandler.connection s) as [conn|] eqn:Hconn; [|reflexivity].
  destruct (negb _); [reflexivity|].
  unfold UartHandler.serial_write, bind, get, put.
  cbn [fst snd].
  assert (Hresp : forall line s2,
             link_port s2 = Some (port conn) ->
             link_port (snd (UartHandler.handle_error_response line s2))
             = Some (port conn)).
  { intros line s2 H2. rewrite handle_error_response_keeps_link. exact H2. }
  assert (Hs : link_port s = Some (port conn))
    by (unfold link_port; rewrite Hconn; reflexivity).
  rewrite Hs.
  destruct (write_fails conn).
  { cbn. unfold link_port. cbn. rewrite Hconn. reflexivity. }
  unfold UartHandler.serial_readline, bind, get, put, ret, raise. cbn [fst snd].
  destruct (incoming conn) as [|[line|] rest].
  - match goal with
    | |- context [UartHandler.handle_error_response ?l ?s2] =>
        specialize (Hresp l s2);
        destruct (UartHandler.handle_error_response l s2) as [[r|e] s3]
    end; cbn [snd] in *.
    + apply Hresp. unfold link_port. cbn. rewrite Hconn. reflexivity.
    + destruct e; cbn; apply Hresp; unfold link_port; cbn; rewrite Hconn; reflexivity.
  - match goal with
    | |- context [UartHandler.handle_error_response ?l ?s2] =>
        specialize (Hresp l s2);
        destruct (UartHandler.handle_error_response l s2) as [[r|e] s3]
    end; cbn [snd] in *.
    + apply Hresp. reflexivity.
    + destruct e; cbn; apply Hresp; reflexivity.
  - reflexivity.
Qed.

(** X23: no exchange drops the link.  [send_command], [get_error_codes] and
    [clear_error_codes] leave the handler connected to the same port when it
    was connected and disconnected when it was not, whatever happens during
    the exchange: a failed write, a failed read, a failed lookup. *)
Theorem exchanges_keep_the_link (self : UartHandler.t) (command : string) :
  link_port (snd (UartHandler.send_command command self)) = link_port self
  /\ link_port (snd (UartHandler.get_error_codes self)) = link_port self
  /\ link_port (snd (UartHandler.clear_error_codes self)) = link_port self.
Proof.
  split; [apply send_command_keeps_link|].
  split.
  - unfold UartHandler.get_error_codes, UartHandler.rewrap, try_except, bind, get.
    destruct (UartHandler.connection self) eqn:Hconn; [|reflexivity].
    pose proof (send_command_keeps_link "get_error_codes" self) as H.
    destruct (UartHandler.send_command "get_error_codes" self) as [[r|e] s1];
      cbn [snd] in H.
    + destruct (_ && _); exact H.
    + destruct (is_UartError e); exact H.
  - unfold UartHandler.clear_error_codes, UartHandler.rewrap, try_except, bind, get.
    destruct (UartHandler.connection self) eqn:Hconn; [|reflexivity].
    pose proof (send_command_keeps_link "clear_error_codes" self) as H.
    destruct (UartHandler.send_command "clear_error_codes" self) as [[r|e] s1];
      cbn [snd] in H.
    + exact H.
    + destruct (is_UartError e); exact H.
Qed.

(* ===================================================================== *)
(** ** Lookups in the cache *)
(* ===================================================================== *)

Lemma get_set_same d k v : Dict.get (Dict.set d k v) k = Some v.
Proof.
  induction d as [|[k0 v0] d IH]; simpl.
  - rewrite (proj2 (key_eqb_eq k k) eq_refl). reflexivity.
  - destruct (Dict.key_eqb k k0) eqn:E; simpl.
    + rewrite (proj2 (key_eqb_eq k k) eq_refl). reflexivity.
    + rewrite E. exact IH.
Qed.

Lemma get_set_other d k v k' :
  k' <> k -> Dict.get (Dict.set d k v) k' = Dict.get d k'.
Proof.
  intros Hne.
  assert (Hkk : Dict.key_eqb k' k = false).
  { destruct (Dict.key_eqb k' k) eqn:E; [|reflexivity].
    apply key_eqb_eq in E. contradiction. }
  induction d as [|[k0 v0] d IH]; simpl.
  - rewrite Hkk. reflexivity.
  - destruct (Dict.key_eqb k k0) eqn:E; simpl.
    + apply key_eqb_eq in E. subst k0. rewrite Hkk. reflexivity.
    + destruct (Dict.key_eqb k' k0); [reflexivity | exact IH].
Qed.

(** The loop of the remote lookup: it ends without a match and without a
    change, or it has stored a description under the queried code. *)
Lemma lookup_nodes_outcome code nodes (s s' : UartHandler.t)
    (r : result (option (option string))) :
  UartHandler.lookup_nodes code nodes s = (r, s') ->
  (r = Ok None /\ s' = s)
  \/ exists desc,
       UartHandler.error_codes_db s'
       = Dict.set (UartHandler.error_codes_db s) (Some code) desc
       /\ (r = Ok (Some desc) \/ exists e, r = Raise e).
Proof.
  induction nodes as [|node nodes IH]; cbn [UartHandler.lookup_nodes].
  - intros H. injection H as <- <-. left. auto.
  - destruct (Xml.find node "ErrorCode") as [c|];
      [destruct (Xml.find node "Description") as [d|]|]; try exact IH.
    destruct (Dict.key_eqb (Xml.text c) (Some code)); [|exact IH].
    unfold bind, get, put. rewrite save_error_codes_run.
    cbn [UartHandler.env UartHandler.set_error_codes_db].
    destruct (disk_ok (UartHandler.env s)); intros H; injection H as <- <-;
      right; exists (Xml.text d); split; try reflexivity.
    + left. reflexivity.
    + right. eexists. reflexivity.
Qed.

(** What [get_error_description] does to the cache, and what it returns when
    it has written to it. *)
Lemma get_error_description_outcome code (s s' : UartHandler.t)
    (r : result (option string)) :
  UartHandler.get_error_description code s = (r, s') ->
  (UartHandler.error_codes_db s' = UartHandler.error_codes_db s
   /\ (forall d, r = Ok d ->
         Dict.get (UartHandler.error_codes_db s) (Some code) = Some d
         \/ Dict.get (UartHandler.error_codes_db s) (Some code) = None))
  \/ exists desc,
       UartHandler.error_codes_db s'
       = Dict.set (UartHandler.error_codes_db s) (Some code) desc
       /\ (r = Ok desc \/ exists e, r = Raise e).
Proof.
  unfold UartHandler.get_error_description.
  destruct (negb _).
  { intros H. injection H as <- <-. left. split; [reflexivity|]. discriminate. }
  unfold bind at 1, get at 1.
  destruct (Dict.get (UartHandler.error_codes_db s) (Some code)) as [cached|] eqn:Hget.
  { intros H. injection H as <- <-. left. split; [reflexivity|].
    intros d Hd. injection Hd as <-. left. reflexivity. }
  unfold bind at 1, try_except. unfold bind at 1. rewrite requests_get_run.
  destruct (remote (UartHandler.env s) _) as [|status_code body].
  { intros H. injection H as <- <-. left. split; [reflexivity|]. discriminate. }
  destruct (status_code =? 200).
  2: { intros H. injection H as <- <-. left. split; [reflexivity|]. auto. }
  destruct body as [|root].
  { intros H. injection H as <- <-. left. split; [reflexivity|]. discriminate. }
  unfold bind at 1. cbn [Xml.parse ret].
  destruct (String.eqb (Xml.tag root) "errorCodes").
  2: { intros H. injection H as <- <-. left. split; [reflexivity|]. auto. }
  destruct (UartHandler.lookup_nodes code _ _) as [found s2] eqn:Hlookup.
  destruct (lookup_nodes_outcome _ _ _ _ _ Hlookup)
    as [[-> ->]|(desc & Hdb & Hr)].
  - intros H. injection H as <- <-. left. split; [reflexivity|]. auto.
  - destruct Hr as [->|[e ->]].
    + intros H. injection H as <- <-. right. exists desc. auto.
    + destruct e; intros H; injection H as <- <-; right; exists desc;
        (split; [exact Hdb | right; eexists; reflexivity]).
Qed.

(** X24: a lookup that has put the code into the cache, or found it there,
    is answered from the cache from then on: when [get_error_description]
    returns a description and the code is in the cache afterwards, calling
    it again returns the same description and changes nothing, so no second
    request is sent. *)
Theorem second_lookup_is_a_cache_hit (self self' : UartHandler.t) (code : string)
    (d : option string) :
  UartHandler.get_error_description code self = (Ok d, self') ->
  Dict.get (UartHandler.error_codes_db self') (Some code) <> None ->
  UartHandler.get_error_description code self' = (Ok d, self').
Proof.
  intros H Hin.
  assert (Hvalid : UartHandler.validate_error_code code = true).
  { revert H. unfold UartHandler.get_error_description.
    destruct (UartHandler.validate_error_code code); [reflexivity | discriminate]. }
  assert (Hhit : Dict.get (UartHandler.error_codes_db self') (Some code) = Some d).
  { destruct (get_error_description_outcome _ _ _ _ H)
      as [[Hdb Hr]|(desc & Hdb & Hr)].
    - rewrite Hdb in *. destruct (Hr d eq_refl) as [E|E]; [exact E | contradiction].
    - destruct Hr as [E|[e E]]; [|discriminate E].
      injection E as <-. rewrite Hdb. apply get_set_same. }
  unfold UartHandler.get_error_description. rewrite Hvalid. cbn [negb].
  unfold bind at 1, get at 1. rewrite Hhit. reflexivity.
Qed.

Lemma second_lookup_is_a_cache_hit_witness :
  UartHandler.get_error_description "deadbeef" lower_handler
  = (Ok (Some "x"), snd (UartHandler.get_error_description "deadbeef" lower_handler))
  /\ Dict.get (UartHandler.error_codes_db
                 (snd (UartHandler.get_error_description "deadbeef" lower_handler)))
       (Some "deadbeef") <> None
  /\ UartHandler.get_error_description "deadbeef"
       (snd (UartHandler.get_error_description "deadbeef" lower_handler))
     = (Ok (Some "x"), snd (UartHandler.get_error_description "deadbeef" lower_handler)).
Proof.
  assert (H : UartHandler.get_error_description "deadbeef" lower_handler
              = (Ok (Some "x"),
                 snd (UartHandler.get_error_description "deadbeef" lower_handler)))
    by (vm_compute; reflexivity).
  assert (Hin : Dict.get (UartHandler.error_codes_db
                            (snd (UartHandler.get_error_description "deadbeef"
                                    lower_handler)))
                  (Some "deadbeef") <> None)
    by (vm_compute; discriminate).
  split; [exact H|]. split; [exact Hin|].
  exact (second_lookup_is_a_cache_hit _ _ "deadbeef" (Some "x") H Hin).
Defined.

(** X25: a lookup changes no other entry of the cache: after
    [get_error_description], whatever it returned, every key other than the
    queried code has the description it had before, or is absent as
    before. *)
Theorem lookup_keeps_other_entries (self : UartHandler.t) (code : string)
    (k : Dict.key) :
  k <> Some code ->
  Dict.get (UartHandler.error_codes_db
              (snd (UartHandler.get_error_description code self))) k
  = Dict.get (UartHandler.error_codes_db self) k.
Proof.
  intros Hne.
  destruct (UartHandler.get_error_description code self) as [r s'] eqn:H.
  destruct (get_error_description_outcome _ _ _ _ H) as [[Hdb _]|(desc & Hdb & _)];
    cbn [snd]; rewrite Hdb; [reflexivity|].
  apply get_set_other. exact Hne.
Qed.

Lemma lookup_keeps_other_entries_witness :
  Some "11111111" <> Some "DEADBEEF"
  /\ Dict.get (UartHandler.error_codes_db
                 (snd (UartHandler.get_error_description "DEADBEEF" stale_handler)))
       (Some "DEADBEEF") = Some (Some "x")
  /\ Dict.get (UartHandler.error_codes_db
                 (snd (UartHandler.get_error_description "DEADBEEF" stale_handler)))
       (Some "11111111")
     = Dict.get (UartHandler.error_codes_db stale_handler) (Some "11111111").
Proof.
  assert (Hne : Some "11111111" <> Some "DEADBEEF") by discriminate.
  split; [exact Hne|]. split; [vm_compute; reflexivity|].
  exact (lookup_keeps_other_entries stale_handler "DEADBEEF" (Some "11111111") Hne).
Defined.

(* ===================================================================== *)
(** ** The database file: save, load, and the lookups that leave it alone *)
(* ===================================================================== *)

Lemma set_error_codes_db_same (s : UartHandler.t) :
  UartHandler.set_error_codes_db (UartHandler.error_codes_db s) s = s.
Proof. destruct s; reflexivity. Qed.

(** The loop of [load_error_codes] fills the cache with the entries of the
    nodes, whatever their codes are, and always runs to its end. *)
Lemma load_nodes_run nodes (s : UartHandler.t) :
  UartHandler.load_nodes nodes s
  = (Ok tt,
     UartHandler.set_error_codes_db
       (fill (UartHandler.error_codes_db s) (entries_of nodes)) s).
Proof.
  revert s. induction nodes as [|node nodes IH]; intros s;
    cbn [UartHandler.load_nodes].
  - unfold entries_of, fill. simpl. rewrite set_error_codes_db_same. reflexivity.
  - unfold entries_of in *. cbn [flat_map].
    destruct (Xml.find node "ErrorCode") as [code|];
      [destruct (Xml.find node "Description") as [desc|]|];
      cbn [app]; try apply IH.
    unfold bind, get, put. rewrite IH. destruct s; reflexivity.
Qed.

Lemma findall_document (d : Dict.t) :
  Xml.findall (UartHandler.document d) "errorCode"
  = Xml.children (UartHandler.document d).
Proof.
  unfold Xml.findall, UartHandler.document. cbn [Xml.children].
  induction d as [|[k v] d IH]; [reflexivity|].
  cbn [map filter Xml.tag]. rewrite String.eqb_refl, IH. reflexivity.
Qed.

Lemma entries_of_document (d : Dict.t) :
  entries_of (Xml.children (UartHandler.document d)) = d.
Proof.
  unfold entries_of, UartHandler.document. cbn [Xml.children].
  induction d as [|[k v] d IH]; [reflexivity|].
  cbn [map flat_map]. rewrite IH. reflexivity.
Qed.



(** X27: [load_error_codes] on a missing file, or on a file whose root is
    not [errorCodes], does nothing; on a file that is not well-formed XML it
    raises "Invalid error codes database format"; in every case the entries
    the cache held under other keys than those of the file are kept, for the
    load adds to the cache and never clears it. *)
Theorem load_error_codes_edges (self : UartHandler.t) :
  (db_file (UartHandler.env self) = None ->
   UartHandler.load_error_codes self = (Ok tt, self))
  /\ (db_file (UartHandler.env self) = Some Xml.Malformed ->
      UartHandler.load_error_codes self
      = (Raise (UartError "Invalid error codes database format" (Some ParseError)),
         self))
  /\ (forall root,
        db_file (UartHandler.env self) = Some (Xml.Wellformed root) ->
        Xml.tag root <> "errorCodes" ->
        UartHandler.load_error_codes self = (Ok tt, self))
  /\ (forall k,
        In k (Dict.keys (UartHandler.error_codes_db self)) ->
        In k (Dict.keys (UartHandler.error_codes_db
                           (snd (UartHandler.load_error_codes self))))).
Proof.
  split; [|split; [|split]].
  - intros H. unfold UartHandler.load_error_codes, try_except, bind, get.
    rewrite H. reflexivity.
  - intros H. unfold UartHandler.load_error_codes, try_except, bind, get.
    rewrite H. reflexivity.
  - intros root H Htag. unfold UartHandler.load_error_codes, try_except, bind, get.
    rewrite H. cbn [Xml.parse ret].
    apply String.eqb_neq in Htag. rewrite Htag. reflexivity.
  - intros k Hk. unfold UartHandler.load_error_codes, try_except, bind, get.
    destruct (db_file (UartHandler.env self)) as [[|root]|]; try exact Hk.
    cbn [Xml.parse ret].
    destruct (String.eqb (Xml.tag root) "errorCodes"); [|exact Hk].
    rewrite load_nodes_run. cbn [snd UartHandler.error_codes_db
                                   UartHandler.set_error_codes_db].
    apply keys_fill. left. exact Hk.
Qed.

Lemma parse_error_code_offline_run code (s : UartHandler.t) :
  UartHandler._parse_error_offline code s
  = (Ok (match Dict.get (UartHandler.error_codes_db s) (Some code) with
         | Some desc => "Error code: " ++ code ++ nl ++ "Description: " ++ fmt_opt desc
         | None => "Error code: " ++ code ++ nl
                   ++ "No description available in offline database"
         end), s).
Proof.
  unfold UartHandler._parse_error_offline, bind, get.
  destruct (Dict.get _ _); reflexivity.
Qed.

(** X28: [parse_error_code] never writes: in either mode it leaves the
    cache, the database file and the link as they were; in offline mode it
    changes nothing at all, so it sends no request, and online it sends at
    most one request and stores nothing of what it learns. *)
Theorem parse_error_code_never_writes (self : UartHandler.t) (code : string)
    (use_offline : bool) :
  UartHandler.error_codes_db (snd (UartHandler.parse_error_code code use_offline self))
  = UartHandler.error_codes_db self
  /\ db_file (UartHandler.env (snd (UartHandler.parse_error_code code use_offline self)))
     = db_file (UartHandler.env self)
  /\ UartHandler.connection (snd (UartHandler.parse_error_code code use_offline self))
     = UartHandler.connection self
  /\ snd (UartHandler.parse_error_code code true self) = self
  /\ (trace (UartHandler.env (snd (UartHandler.parse_error_code code false self)))
      = trace (UartHandler.env self)
      \/ trace (UartHandler.env (snd (UartHandler.parse_error_code code false self)))
         = HttpGet ("http://uartcodes.com/xml.php?errorCode=" ++ code)
             :: trace (UartHandler.env self)).
Proof.
  assert (Hoff : snd (UartHandler.parse_error_code code true self) = self).
  { unfold UartHandler.parse_error_code.
    destruct (negb _); [reflexivity|].
    rewrite parse_error_code_offline_run. reflexivity. }
  assert (Hon : exists r,
             UartHandler.parse_error_code code false self = (r, self)
             \/ UartHandler.parse_error_code code false self
                = (r, UartHandler.set_env
                        (UartHandler.log
                           (HttpGet ("http://uartcodes.com/xml.php?errorCode=" ++ code))
                           (UartHandler.env self)) self)).
  { unfold UartHandler.parse_error_code.
    destruct (negb _); [eexists; left; reflexivity|].
    unfold try_except, bind. rewrite requests_get_run.
    destruct (remote (UartHandler.env self) _) as [|status_code body];
      [eexists; right; reflexivity|].
    unfold ret, raise.
    destruct (status_code =? 200); [|eexists; right; reflexivity].
    destruct body as [|root]; cbn [Xml.parse raise ret];
      [eexists; right; reflexivity|].
    destruct (String.eqb (Xml.tag root) "errorCodes");
      [|eexists; right; reflexivity].
    destruct (UartHandler.parse_nodes code _); eexists; right; reflexivity. }
  destruct Hon as [r Hon].
  destruct use_offline.
  - rewrite Hoff. repeat split; try reflexivity.
    destruct Hon as [E|E]; rewrite E; [left | right]; reflexivity.
  - destruct Hon as [E|E]; rewrite E; repeat split; try reflexivity;
      try exact Hoff; [left | right]; reflexivity.
Qed.

(** X29: [disconnect] always ends disconnected, also when closing the port
    fails and it raises; a command sent afterwards is refused with "Not
    connected to UART device", and a second [disconnect] does nothing.  The
    cache and the world are not touched. *)
Theorem disconnect_always_disconnects (self : UartHandler.t) (close_fails : bool)
    (command : string) :
  UartHandler.connection (snd (UartHandler.disconnect close_fails self)) = None
  /\ UartHandler.error_codes_db (snd (UartHandler.disconnect close_fails self))
     = UartHandler.error_codes_db self
  /\ UartHandler.env (snd (UartHandler.disconnect close_fails self))
     = UartHandler.env self
  /\ UartHandler.send_command command (snd (UartHandler.disconnect close_fails self))
     = (Raise (UartError "Not connected to UART device" None),
        snd (UartHandler.disconnect close_fails self))
  /\ (forall again,
        UartHandler.disconnect again (snd (UartHandler.disconnect close_fails self))
        = (Ok tt, snd (UartHandler.disconnect close_fails self)))
  /\ (UartHandler.connection self <> None -> close_fails = true ->
      fst (UartHandler.disconnect close_fails self)
      = Raise (UartError "Failed to disconnect from UART device"
                 (Some SerialException))).
Proof.
  assert (Hnone : UartHandler.connection (snd (UartHandler.disconnect close_fails self))
                  = None).
  { unfold UartHandler.disconnect, bind, get, put.
    destruct (UartHandler.connection self) eqn:Hconn; [|exact Hconn].
    destruct close_fails; reflexivity. }
  split; [exact Hnone|].
  split.
  { unfold UartHandler.disconnect, bind, get, put.
    destruct (UartHandler.connection self); [|reflexivity].
    destruct close_fails; reflexivity. }
  split.
  { unfold UartHandler.disconnect, bind, get, put.
    destruct (UartHandler.connection self); [|reflexivity].
    destruct close_fails; reflexivity. }
  split.
  { unfold UartHandler.send_command, bind, get. rewrite Hnone. reflexivity. }
  split.
  { intros again. unfold UartHandler.disconnect at 1. unfold bind, get.
    rewrite Hnone. reflexivity. }
  intros Hconn ->. unfold UartHandler.disconnect, bind, get, put.
  destruct (UartHandler.connection self); [reflexivity | contradiction].
Qed.

(* ===================================================================== *)
(** ** The serial numbers as the UART helper reads them *)
(* ===================================================================== *)

Lemma text_bytes_app (a b : list byte) :
  text_bytes (a ++ b) = text_bytes a && text_bytes b.
Proof. unfold text_bytes. apply forallb_app. Qed.

(** On bytes that are ASCII and not NUL the strict decoding succeeds, agrees
    with the lenient one, keeps the length and yields no NUL. *)
Lemma decode_text_bytes (bs : list byte) :
  text_bytes bs = true ->
  decode_ascii bs = Some (decode_ascii_ignore bs)
  /\ String.length (decode_ascii_ignore bs) = List.length bs
  /\ nul_free (decode_ascii_ignore bs) = true.
Proof.
  unfold text_bytes, nul_free.
  induction bs as [|b bs IH]; cbn [forallb decode_ascii decode_ascii_ignore].
  - auto.
  - intros H. apply andb_true_iff in H. destruct H as [Hb Hbs].
    apply andb_true_iff in Hb. destruct Hb as [Hpos Hlt].
    destruct (IH Hbs) as (E & L & N). rewrite Hlt, E.
    cbn [option_map String.length contains]. rewrite L.
    split; [reflexivity|]. split; [reflexivity|].
    apply negb_true_iff in N. rewrite N, orb_false_r.
    apply negb_true_iff.
    destruct b; try reflexivity. discriminate Hpos.
Qed.

Lemma substring_prefix (a b : string) :
  substring 0 (String.length a) (a ++ b) = a.
Proof.
  induction a as [|c a IH]; cbn [String.length append substring].
  - destruct b; reflexivity.
  - rewrite IH. reflexivity.
Qed.

(** A text field of 16 text bytes, read whole by the NOR handler and by its
    first 10 bytes by the UART helper. *)
Lemma ten_of_sixteen (data : list byte) offset :
  0 <= offset -> offset + 16 <= len data ->
  text_bytes (slice data offset (offset + 16)) = true ->
  String.length (strip is_nul (decode_ascii_ignore (slice data offset (offset + 16))))
  = 16%nat
  /\ UartHandler.decode_strip (slice data offset (offset + 10))
     = Ok (substring 0 10
             (strip is_nul (decode_ascii_ignore (slice data offset (offset + 16))))).
Proof.
  intros H0 H1 Htext.
  rewrite (slice_split data offset (offset + 10) (offset + 16)) in * by lia.
  rewrite text_bytes_app in Htext. apply andb_true_iff in Htext.
  destruct Htext as [Ta Tb].
  pose proof (len_slice_in_range data offset (offset + 10) H0 ltac:(lia) ltac:(lia)) as La.
  pose proof (len_slice_in_range data (offset + 10) (offset + 16)
                ltac:(lia) ltac:(lia) H1) as Lb.
  destruct (decode_text_bytes _ Ta) as (Ea & Na & Fa).
  destruct (decode_text_bytes _ Tb) as (Eb & Nb & Fb).
  assert (Hfree : nul_free (decode_ascii_ignore (slice data offset (offset + 10))
                            ++ decode_ascii_ignore (slice data (offset + 10) (offset + 16)))
                  = true).
  { unfold nul_free in *. rewrite contains_append.
    apply negb_true_iff in Fa, Fb. rewrite Fa, Fb. reflexivity. }
  rewrite decode_ascii_ignore_app, (strip_nul_free _ Hfree).
  split.
  - rewrite string_length_app, Na, Nb. unfold len in La, Lb. lia.
  - unfold UartHandler.decode_strip. rewrite Ea, (strip_nul_free _ Fa).
    assert (H10 : String.length (decode_ascii_ignore (slice data offset (offset + 10)))
                  = 10%nat) by (rewrite Na; unfold len in La; lia).
    rewrite <- H10 at 1. rewrite substring_prefix. reflexivity.
Qed.

(** X30: on a valid image whose two serial fields hold 16 ASCII characters
    and no NUL, the NOR handler reads both serials whole, 16 characters
    each, while [get_serial_numbers] reports only the first 10 characters of
    each. *)
Theorem get_serial_numbers_reads_ten_characters (nor_data : list byte) :
  UartHandler.validate_nor_file nor_data = true ->
  text_bytes (slice nor_data UartHandler.SERIAL_OFFSET (UartHandler.SERIAL_OFFSET + 16))
  = true ->
  text_bytes (slice nor_data UartHandler.MOBO_SERIAL_OFFSET
                (UartHandler.MOBO_SERIAL_OFFSET + 16)) = true ->
  exists serial mobo,
    NorHandler.get_serial_number (NorHandler.mk (Some nor_data))
    = (Ok serial, NorHandler.mk (Some nor_data))
    /\ NorHandler.get_motherboard_serial (NorHandler.mk (Some nor_data))
       = (Ok mobo, NorHandler.mk (Some nor_data))
    /\ String.length serial = 16%nat /\ String.length mobo = 16%nat
    /\ UartHandler.get_serial_numbers nor_data
       = Ok (UartHandler.mkSerialNumbers (substring 0 10 serial) (substring 0 10 mobo)).
Proof.
  intros Hvalid Hs Hm. pose proof (validate_nor_file_len _ Hvalid) as Hlen.
  unfold UartHandler.WIFI_MAC_OFFSET in Hlen.
  assert (Hl : NorHandler.loaded (NorHandler.mk (Some nor_data)) = Some nor_data)
    by (apply loaded_mk; lia).
  destruct (ten_of_sixteen nor_data UartHandler.SERIAL_OFFSET) as [S16 S10];
    try solve [exact Hs | uart_offsets; lia].
  destruct (ten_of_sixteen nor_data UartHandler.MOBO_SERIAL_OFFSET) as [M16 M10];
    try solve [exact Hm | uart_offsets; lia].
  eexists _, _.
  split.
  { unfold NorHandler.get_serial_number, NorHandler.rewrap, try_except.
    rewrite (read_string_in_bounds _ _ Hl) by (nor_offsets; lia). reflexivity. }
  split.
  { unfold NorHandler.get_motherboard_serial, NorHandler.rewrap, try_except.
    rewrite (read_string_in_bounds _ _ Hl) by (nor_offsets; lia). reflexivity. }
  split; [exact S16|]. split; [exact M16|].
  unfold UartHandler.get_serial_numbers. rewrite Hvalid. cbn [negb].
  rewrite S10, M10. reflexivity.
Qed.

Lemma get_serial_numbers_reads_ten_characters_witness :
  UartHandler.validate_nor_file lettered_data = true
  /\ text_bytes (slice lettered_data UartHandler.SERIAL_OFFSET
                   (UartHandler.SERIAL_OFFSET + 16)) = true
  /\ text_bytes (slice lettered_data UartHandler.MOBO_SERIAL_OFFSET
                   (UartHandler.MOBO_SERIAL_OFFSET + 16)) = true
  /\ exists serial mobo,
       NorHandler.get_serial_number (NorHandler.mk (Some lettered_data))
       = (Ok serial, NorHandler.mk (Some lettered_data))
       /\ NorHandler.get_motherboard_serial (NorHandler.mk (Some lettered_data))
          = (Ok mobo, NorHandler.mk (Some lettered_data))
       /\ String.length serial = 16%nat /\ String.length mobo = 16%nat
       /\ UartHandler.get_serial_numbers lettered_data
          = Ok (UartHandler.mkSerialNumbers (substring 0 10 serial)
                  (substring 0 10 mobo)).
Proof.
  assert (Hvalid : UartHandler.validate_nor_file lettered_data = true)
    by (vm_compute; reflexivity).
  assert (Hs : text_bytes (slice lettered_data UartHandler.SERIAL_OFFSET
                             (UartHandler.SERIAL_OFFSET + 16)) = true)
    by (vm_compute; reflexivity).
  assert (Hm : text_bytes (slice lettered_data UartHandler.MOBO_SERIAL_OFFSET
                             (UartHandler.MOBO_SERIAL_OFFSET + 16)) = true)
    by (vm_compute; reflexivity).
  split; [exact Hvalid|]. split; [exact Hs|]. split; [exact Hm|].
  exact (get_serial_numbers_reads_ten_characters lettered_data Hvalid Hs Hm).
Defined.
